(** * Shelly Dimmer protocol engine

    A shallow embedding of [esphome/components/shelly_dimmer/shelly_dimmer.cpp]
    and the properties of its frame codec, stream parser, command
    transceiver, response dispatcher and firmware-version gate.

    Conventions.
    - C++ unsigned integers are [Z] values; every store into a [uint8_t],
      [uint16_t] or [uint32_t] writes the wrap-around out ([u8], [u16], [u32]).
    - Raw arrays are [list Z]; an access outside the array is undefined
      behaviour in C++ and makes the embedded function return [None].
    - [float] is IEEE-754 binary32, through the parametric specification
      [SpecFloat] of the standard library (precision 24, emax 128).
    - The member functions thread the object through explicitly; everything
      outside the object that they touch (UART, clock, GPIO lines) lives in
      the [Env] record. *)

From Stdlib Require Import ZArith Lia Bool SpecFloat.
From stdpp Require Import base option list.

Local Open Scope Z_scope.

(** ** Fixed-width integers *)

Definition u8 (x : Z) : Z := x mod 256.
Definition u16 (x : Z) : Z := x mod 65536.
Definition u32 (x : Z) : Z := x mod 4294967296.

(** ** Raw arrays *)

(** [buf[i]] *)
Definition rd (buf : list Z) (i : Z) : option Z :=
  if 0 <=? i then buf !! Z.to_nat i else None.

(** [buf[i] = v] *)
Definition wr (buf : list Z) (i v : Z) : option (list Z) :=
  if (0 <=? i) && (i <? Z.of_nat (length buf))
  then Some (<[Z.to_nat i := v]> buf) else None.

(** [memcpy(dst + off, src, n)] *)
Definition memcpy (dst : list Z) (off : Z) (src : list Z) (n : Z) : option (list Z) :=
  if (0 <=? n) && (n <=? Z.of_nat (length src)) && (off + n <=? Z.of_nat (length dst))
  then Some (take (Z.to_nat off) dst ++ take (Z.to_nat n) src
               ++ drop (Z.to_nat (off + n)) dst)
  else None.

(** ** binary32 arithmetic *)

Definition float := spec_float.
Definition prec32 : Z := 24.
Definition emax32 : Z := 128.

(** Conversion of an integer to [float] (round to nearest even). *)
Definition float_of_Z (z : Z) : float := binary_normalize prec32 emax32 z 0 false.
Definition fmul : float -> float -> float := SFmul prec32 emax32.
Definition fdiv : float -> float -> float := SFdiv prec32 emax32.
Definition fzero : float := S754_zero false.

(** Truncation toward zero, the first half of a float-to-integer cast. *)
Definition ftrunc (x : float) : option Z :=
  match x with
  | S754_zero _ => Some 0
  | S754_finite sg m e =>
      let mag := if 0 <=? e then Z.shiftl (Z.pos m) e else Z.shiftr (Z.pos m) (- e) in
      Some (if sg then - mag else mag)
  | _ => None
  end.

(** [static_cast<uint16_t>(x)]: undefined when the truncated value does not
    fit the destination type. *)
Definition float_to_u16 (x : float) : option Z :=
  t ← ftrunc x;
  if (0 <=? t) && (t <? 65536) then Some t else None.

(** ** Constants of the anonymous namespace *)

Definition SHELLY_DIMMER_ACK_TIMEOUT : Z := 200.
Definition SHELLY_DIMMER_MAX_RETRIES : Z := 3.
Definition SHELLY_DIMMER_MAX_BRIGHTNESS : Z := 1000.

Definition SHELLY_DIMMER_PROTO_START_BYTE : Z := 0x01.
Definition SHELLY_DIMMER_PROTO_END_BYTE : Z := 0x04.

Definition SHELLY_DIMMER_PROTO_CMD_SWITCH : Z := 0x01.
Definition SHELLY_DIMMER_PROTO_CMD_POLL : Z := 0x10.
Definition SHELLY_DIMMER_PROTO_CMD_VERSION : Z := 0x11.
Definition SHELLY_DIMMER_PROTO_CMD_SETTINGS : Z := 0x20.

Definition SHELLY_DIMMER_PROTO_CMD_SWITCH_SIZE : Z := 2.
Definition SHELLY_DIMMER_PROTO_CMD_SETTINGS_SIZE : Z := 10.
Definition SHELLY_DIMMER_PROTO_MAX_FRAME_SIZE : Z := 4 + 72 + 3.

Definition POWER_SCALING_FACTOR : float := float_of_Z 880373.
Definition VOLTAGE_SCALING_FACTOR : float := float_of_Z 347800.
Definition CURRENT_SCALING_FACTOR : float := float_of_Z 1448.

(** ** The world outside the object *)

(** The UART, the millisecond clock and the two GPIO lines.  [rx] holds the
    bytes that [available()] reports now; [incoming] lists what the peer
    delivers during each following millisecond; [tx] logs every
    [write_array] in order. *)
Record Env := mkEnv {
  rx : list Z;
  incoming : list (list Z);
  millis : Z;
  tx : list (list Z);
  nrst : bool;
  boot0 : bool
}.

(** One millisecond passes. *)
Definition tick (e : Env) : Env :=
  mkEnv (rx e ++ hd [] (incoming e)) (tl (incoming e)) (u32 (millis e + 1))
        (tx e) (nrst e) (boot0 e).

(** [delay(n)] *)
Fixpoint delay (n : nat) (e : Env) : Env :=
  match n with
  | O => e
  | S k => delay k (tick e)
  end.

(** [write_array(data, len)] followed by [flush()] *)
Definition write_array (bytes : list Z) (e : Env) : Env :=
  mkEnv (rx e) (incoming e) (millis e) (tx e ++ [bytes]) (nrst e) (boot0 e).

Definition set_rx (q : list Z) (e : Env) : Env :=
  mkEnv q (incoming e) (millis e) (tx e) (nrst e) (boot0 e).

Definition digital_write_nrst (v : bool) (e : Env) : Env :=
  mkEnv (rx e) (incoming e) (millis e) (tx e) v (boot0 e).

Definition digital_write_boot0 (v : bool) (e : Env) : Env :=
  mkEnv (rx e) (incoming e) (millis e) (tx e) (nrst e) v.

(** ** The object *)

(** Configuration set before [setup()].  [state_] is the brightness that
    [state_->current_values_as_brightness] reports, [None] for a null
    pointer. *)
Record Config := mkConfig {
  min_brightness_ : Z;
  max_brightness_ : Z;
  fade_rate_ : Z;
  warmup_brightness_ : Z;
  warmup_time_ : Z;
  leading_edge_ : bool;
  state_ : option float
}.

(** A sensor pointer is [None] when null, otherwise the list of states
    published to it so far.  [failed_] is the flag of [mark_failed()],
    [poll_interval_] records the [set_interval] registration and
    [upgrades_] counts the calls of [upgrade_firmware_]. *)
Record ShellyDimmer := mkDimmer {
  config : Config;
  seq_ : Z;
  buffer_ : list Z;
  buffer_pos_ : Z;
  brightness_ : Z;
  version_major_ : Z;
  version_minor_ : Z;
  ready_ : bool;
  failed_ : bool;
  power_sensor_ : option (list float);
  voltage_sensor_ : option (list float);
  current_sensor_ : option (list float);
  poll_interval_ : bool;
  upgrades_ : nat;
  env : Env
}.

Definition set_seq_ (v : Z) (s : ShellyDimmer) : ShellyDimmer :=
  mkDimmer (config s) v (buffer_ s) (buffer_pos_ s) (brightness_ s) (version_major_ s)
    (version_minor_ s) (ready_ s) (failed_ s) (power_sensor_ s) (voltage_sensor_ s)
    (current_sensor_ s) (poll_interval_ s) (upgrades_ s) (env s).
Definition set_buffer_ (v : list Z) (s : ShellyDimmer) : ShellyDimmer :=
  mkDimmer (config s) (seq_ s) v (buffer_pos_ s) (brightness_ s) (version_major_ s)
    (version_minor_ s) (ready_ s) (failed_ s) (power_sensor_ s) (voltage_sensor_ s)
    (current_sensor_ s) (poll_interval_ s) (upgrades_ s) (env s).
Definition set_buffer_pos_ (v : Z) (s : ShellyDimmer) : ShellyDimmer :=
  mkDimmer (config s) (seq_ s) (buffer_ s) v (brightness_ s) (version_major_ s)
    (version_minor_ s) (ready_ s) (failed_ s) (power_sensor_ s) (voltage_sensor_ s)
    (current_sensor_ s) (poll_interval_ s) (upgrades_ s) (env s).
Definition set_brightness_ (v : Z) (s : ShellyDimmer) : ShellyDimmer :=
  mkDimmer (config s) (seq_ s) (buffer_ s) (buffer_pos_ s) v (version_major_ s)
    (version_minor_ s) (ready_ s) (failed_ s) (power_sensor_ s) (voltage_sensor_ s)
    (current_sensor_ s) (poll_interval_ s) (upgrades_ s) (env s).
Definition set_version_major_ (v : Z) (s : ShellyDimmer) : ShellyDimmer :=
  mkDimmer (config s) (seq_ s) (buffer_ s) (buffer_pos_ s) (brightness_ s) v
    (version_minor_ s) (ready_ s) (failed_ s) (power_sensor_ s) (voltage_sensor_ s)
    (current_sensor_ s) (poll_interval_ s) (upgrades_ s) (env s).
Definition set_version_minor_ (v : Z) (s : ShellyDimmer) : ShellyDimmer :=
  mkDimmer (config s) (seq_ s) (buffer_ s) (buffer_pos_ s) (brightness_ s)
    (version_major_ s) v (ready_ s) (failed_ s) (power_sensor_ s) (voltage_sensor_ s)
    (current_sensor_ s) (poll_interval_ s) (upgrades_ s) (env s).
Definition set_ready_ (v : bool) (s : ShellyDimmer) : ShellyDimmer :=
  mkDimmer (config s) (seq_ s) (buffer_ s) (buffer_pos_ s) (brightness_ s)
    (version_major_ s) (version_minor_ s) v (failed_ s) (power_sensor_ s)
    (voltage_sensor_ s) (current_sensor_ s) (poll_interval_ s) (upgrades_ s) (env s).
Definition set_failed_ (v : bool) (s : ShellyDimmer) : ShellyDimmer :=
  mkDimmer (config s) (seq_ s) (buffer_ s) (buffer_pos_ s) (brightness_ s)
    (version_major_ s) (version_minor_ s) (ready_ s) v (power_sensor_ s)
    (voltage_sensor_ s) (current_sensor_ s) (poll_interval_ s) (upgrades_ s) (env s).
Definition set_power_sensor_ (v : option (list float)) (s : ShellyDimmer) : ShellyDimmer :=
  mkDimmer (config s) (seq_ s) (buffer_ s) (buffer_pos_ s) (brightness_ s)
    (version_major_ s) (version_minor_ s) (ready_ s) (failed_ s) v (voltage_sensor_ s)
    (current_sensor_ s) (poll_interval_ s) (upgrades_ s) (env s).
Definition set_voltage_sensor_ (v : option (list float)) (s : ShellyDimmer) : ShellyDimmer :=
  mkDimmer (config s) (seq_ s) (buffer_ s) (buffer_pos_ s) (brightness_ s)
    (version_major_ s) (version_minor_ s) (ready_ s) (failed_ s) (power_sensor_ s) v
    (current_sensor_ s) (poll_interval_ s) (upgrades_ s) (env s).
Definition set_current_sensor_ (v : option (list float)) (s : ShellyDimmer) : ShellyDimmer :=
  mkDimmer (config s) (seq_ s) (buffer_ s) (buffer_pos_ s) (brightness_ s)
    (version_major_ s) (version_minor_ s) (ready_ s) (failed_ s) (power_sensor_ s)
    (voltage_sensor_ s) v (poll_interval_ s) (upgrades_ s) (env s).
Definition set_poll_interval_ (v : bool) (s : ShellyDimmer) : ShellyDimmer :=
  mkDimmer (config s) (seq_ s) (buffer_ s) (buffer_pos_ s) (brightness_ s)
    (version_major_ s) (version_minor_ s) (ready_ s) (failed_ s) (power_sensor_ s)
    (voltage_sensor_ s) (current_sensor_ s) v (upgrades_ s) (env s).
Definition set_upgrades_ (v : nat) (s : ShellyDimmer) : ShellyDimmer :=
  mkDimmer (config s) (seq_ s) (buffer_ s) (buffer_pos_ s) (brightness_ s)
    (version_major_ s) (version_minor_ s) (ready_ s) (failed_ s) (power_sensor_ s)
    (voltage_sensor_ s) (current_sensor_ s) (poll_interval_ s) v (env s).
Definition set_env (v : Env) (s : ShellyDimmer) : ShellyDimmer :=
  mkDimmer (config s) (seq_ s) (buffer_ s) (buffer_pos_ s) (brightness_ s)
    (version_major_ s) (version_minor_ s) (ready_ s) (failed_ s) (power_sensor_ s)
    (voltage_sensor_ s) (current_sensor_ s) (poll_interval_ s) (upgrades_ s) v.

(** [sensor->publish_state(v)] behind a null check *)
Definition publish_state (v : float) (sensor : option (list float)) : option (list float) :=
  match sensor with
  | Some log => Some (log ++ [v])
  | None => None
  end.

(** ** Frame codec *)

Fixpoint checksum_loop (buf : list Z) (i : Z) (n : nat) (sum : Z) : option Z :=
  match n with
  | O => Some sum
  | S k => b ← rd buf i; checksum_loop buf (i + 1) k (u16 (sum + b))
  end.

(** [shelly_dimmer_checksum(buf + off, len)] *)
Definition shelly_dimmer_checksum (buf : list Z) (off len : Z) : option Z :=
  checksum_loop buf off (Z.to_nat len) 0.

(** [frame_command_(data, cmd, payload, len)]: the frame buffer after the
    call, the returned length and the object with its bumped sequence
    counter.  [payload = None] is the null pointer. *)
Definition frame_command_ (data : list Z) (cmd : Z) (payload : option (list Z)) (len : Z)
    (s : ShellyDimmer) : option (list Z * Z * ShellyDimmer) :=
  let pos := 0 in
  data ← wr data 0 SHELLY_DIMMER_PROTO_START_BYTE;
  let s := set_seq_ (u8 (seq_ s + 1)) s in
  data ← wr data 1 (seq_ s);
  data ← wr data 2 (u8 cmd);
  data ← wr data 3 (u8 len);
  let pos := pos + 4 in
  '(data, pos) ← match payload with
                 | Some p => data ← memcpy data 4 p len; Some (data, pos + len)
                 | None => Some (data, pos)
                 end;
  csum ← shelly_dimmer_checksum data 1 (3 + len);
  data ← wr data pos (Z.shiftr csum 8);
  data ← wr data (pos + 1) (Z.land csum 0xff);
  data ← wr data (pos + 2) SHELLY_DIMMER_PROTO_END_BYTE;
  Some (data, pos + 3, s).

Section Engine.

(** The capacity of [buffer_], declared in the header. *)
Variable SHELLY_DIMMER_BUFFER_SIZE : Z.

(** ** Stream parser *)

(** [handle_byte_(c)]: 1 asks for more data, 0 reports a complete frame,
    -1 a failure. *)
Definition handle_byte_ (s : ShellyDimmer) (c : Z) : option Z :=
  let pos := buffer_pos_ s in
  if pos =? 0 then
    Some (if c =? SHELLY_DIMMER_PROTO_START_BYTE then 1 else -1)
  else if pos <? 4 then
    Some 1
  else
    payload_len ← rd (buffer_ s) 3;
    if 4 + payload_len + 3 >? SHELLY_DIMMER_BUFFER_SIZE then Some (-1)
    else if pos <? 4 + payload_len + 1 then Some 1
    else if pos =? 4 + payload_len + 1 then
      hi ← rd (buffer_ s) (pos - 1);
      let csum := u16 (Z.lor (Z.shiftl hi 8) c) in
      csum_verify ← shelly_dimmer_checksum (buffer_ s) 1 (3 + payload_len);
      if negb (csum =? csum_verify) then Some (-1) else Some 1
    else if pos =? 4 + payload_len + 2 then
      Some (if c =? SHELLY_DIMMER_PROTO_END_BYTE then 0 else -1)
    else Some (-1).

(** ** Response dispatcher *)

(** A little-endian [uint32_t] assembled from four payload bytes. *)
Definition le32 (b0 b1 b2 b3 : Z) : Z :=
  u32 (Z.lor (Z.lor (Z.lor (Z.shiftl b3 24) (Z.shiftl b2 16)) (Z.shiftl b1 8)) b0).

(** [float v = 0; if (raw > 0) v = factor / (float) raw;] *)
Definition scale_reading (factor : float) (raw : Z) : float :=
  let v := fzero in
  if raw >? 0 then fdiv factor (float_of_Z raw) else v.

Definition handle_frame_ (s : ShellyDimmer) : option (bool * ShellyDimmer) :=
  seq ← rd (buffer_ s) 1;
  cmd ← rd (buffer_ s) 2;
  payload_len ← rd (buffer_ s) 3;
  if negb (seq =? seq_ s) then Some (false, s)
  else
    let payload i := rd (buffer_ s) (4 + i) in
    if cmd =? SHELLY_DIMMER_PROTO_CMD_POLL then
      if payload_len <? 16 then Some (false, s)
      else
        hw_version ← payload 0;
        p2 ← payload 2; p3 ← payload 3;
        let brightness := u16 (Z.lor (Z.shiftl p3 8) p2) in
        p4 ← payload 4; p5 ← payload 5; p6 ← payload 6; p7 ← payload 7;
        let power_raw := le32 p4 p5 p6 p7 in
        p8 ← payload 8; p9 ← payload 9; p10 ← payload 10; p11 ← payload 11;
        let voltage_raw := le32 p8 p9 p10 p11 in
        p12 ← payload 12; p13 ← payload 13; p14 ← payload 14; p15 ← payload 15;
        let current_raw := le32 p12 p13 p14 p15 in
        fade_rate ← payload 16;
        let power := scale_reading POWER_SCALING_FACTOR power_raw in
        let voltage := scale_reading VOLTAGE_SCALING_FACTOR voltage_raw in
        let current := scale_reading CURRENT_SCALING_FACTOR current_raw in
        let s := set_power_sensor_ (publish_state power (power_sensor_ s)) s in
        let s := set_voltage_sensor_ (publish_state voltage (voltage_sensor_ s)) s in
        let s := set_current_sensor_ (publish_state current (current_sensor_ s)) s in
        Some (true, s)
    else if cmd =? SHELLY_DIMMER_PROTO_CMD_VERSION then
      if payload_len <? 2 then Some (false, s)
      else
        p0 ← payload 0;
        let s := set_version_minor_ p0 s in
        p1 ← payload 1;
        let s := set_version_major_ p1 s in
        Some (true, s)
    else if (cmd =? SHELLY_DIMMER_PROTO_CMD_SWITCH) || (cmd =? SHELLY_DIMMER_PROTO_CMD_SETTINGS) then
      if payload_len <? 1 then Some (false, s)
      else
        p0 ← payload 0;
        Some (negb (negb (p0 =? 0x01)), s)
    else Some (false, s).

(** The body of the loop of [read_frame_]: store the byte at the cursor,
    classify it and move the cursor.  The result is the code returned by
    [handle_byte_]. *)
Definition read_byte_ (c : Z) (s : ShellyDimmer) : option (Z * ShellyDimmer) :=
  buf ← wr (buffer_ s) (buffer_pos_ s) c;
  let s := set_buffer_ buf s in
  r ← handle_byte_ s c;
  if r =? 0 then
    '(_, s) ← handle_frame_ s;
    Some (r, set_buffer_pos_ 0 s)
  else if r =? -1 then Some (r, set_buffer_pos_ 0 s)
  else if r =? 1 then Some (r, set_buffer_pos_ (u8 (buffer_pos_ s + 1)) s)
  else Some (r, s).

(** [while (available()) { c = read(); ... }] over the bytes available. *)
Fixpoint read_frame_loop (avail : list Z) (s : ShellyDimmer) : option (bool * ShellyDimmer) :=
  match avail with
  | [] => Some (false, set_env (set_rx [] (env s)) s)
  | c :: rest =>
      '(r, s) ← read_byte_ (u8 c) s;
      if r =? 0 then Some (true, set_env (set_rx rest (env s)) s)
      else read_frame_loop rest s
  end.

Definition read_frame_ (s : ShellyDimmer) : option (bool * ShellyDimmer) :=
  read_frame_loop (rx (env s)) s.

(** ** Command transceiver *)

(** [brightness == 0.0] *)
Definition float_is_zero (x : float) : bool := SFeqb x fzero.

Definition convert_brightness_ (s : ShellyDimmer) (brightness : float) : option Z :=
  if float_is_zero brightness then Some 0
  else
    let range := max_brightness_ (config s) - min_brightness_ (config s) in
    brightness_int ← float_to_u16 (fmul brightness (float_of_Z range));
    let brightness_int := u16 (brightness_int + min_brightness_ (config s)) in
    Some (Z.min brightness_int SHELLY_DIMMER_MAX_BRIGHTNESS).

(** The polling loop of one attempt.  Reading takes no time and [delay(1)]
    advances the clock by one, so the window closes after
    [SHELLY_DIMMER_ACK_TIMEOUT] rounds; [fuel] bounds the rounds and [None]
    stands for fuel that ran out (or undefined behaviour of the parser). *)
Fixpoint wait_ack (fuel : nat) (tx_time : Z) (s : ShellyDimmer) : option (bool * ShellyDimmer) :=
  match fuel with
  | O => None
  | S k =>
      if u32 (millis (env s) - tx_time) <? SHELLY_DIMMER_ACK_TIMEOUT then
        '(got, s) ← read_frame_ s;
        if (got : bool) then Some (true, s)
        else wait_ack k tx_time (set_env (delay 1 (env s)) s)
      else Some (false, s)
  end.

(** [while (retries--) { ... }] *)
Fixpoint send_attempts (retries : nat) (frame : list Z) (s : ShellyDimmer)
    : option (bool * ShellyDimmer) :=
  match retries with
  | O => Some (false, s)
  | S k =>
      let s := set_env (write_array frame (env s)) s in
      let tx_time := millis (env s) in
      '(got, s) ← wait_ack (S (Z.to_nat SHELLY_DIMMER_ACK_TIMEOUT)) tx_time s;
      if (got : bool) then Some (true, s) else send_attempts k frame s
  end.

(** The local [frame] is uninitialised in the source; [frame_command_]
    writes every byte that is later read whenever the payload pointer is not
    null or [len] is 0, which is how every caller uses it. *)
Definition send_command_ (cmd : Z) (payload : option (list Z)) (len : Z) (s : ShellyDimmer)
    : option (bool * ShellyDimmer) :=
  let frame := replicate (Z.to_nat SHELLY_DIMMER_PROTO_MAX_FRAME_SIZE) 0 in
  '(frame, frame_len, s) ← frame_command_ frame cmd payload (u8 len) s;
  send_attempts (Z.to_nat SHELLY_DIMMER_MAX_RETRIES) (take (Z.to_nat frame_len) frame) s.

Definition send_brightness_ (brightness : Z) (s : ShellyDimmer) : option ShellyDimmer :=
  let payload := [u8 (Z.land brightness 0xff); u8 (Z.shiftr brightness 8)] in
  '(_, s) ← send_command_ SHELLY_DIMMER_PROTO_CMD_SWITCH (Some payload)
             SHELLY_DIMMER_PROTO_CMD_SWITCH_SIZE s;
  Some (set_brightness_ brightness s).

(** The ten bytes that [send_settings_] writes into its payload array. *)
Definition settings_payload (s : ShellyDimmer) (brightness_int fade_rate : Z) : list Z :=
  [ u8 (Z.land brightness_int 0xff); u8 (Z.shiftr brightness_int 8);
    (if leading_edge_ (config s) then 0x01 else 0x02); 0x00;
    u8 (Z.land fade_rate 0xff); u8 (Z.shiftr fade_rate 8);
    u8 (Z.land (warmup_brightness_ (config s)) 0xff);
    u8 (Z.shiftr (warmup_brightness_ (config s)) 8);
    u8 (Z.land (warmup_time_ (config s)) 0xff);
    u8 (Z.shiftr (warmup_time_ (config s)) 8) ].

Definition send_settings_ (s : ShellyDimmer) : option ShellyDimmer :=
  let fade_rate := Z.min 100 (fade_rate_ (config s)) in
  let brightness :=
    match state_ (config s) with
    | Some b => b
    | None => fzero
    end in
  brightness_int ← convert_brightness_ s brightness;
  let payload := settings_payload s brightness_int fade_rate in
  '(_, s) ← send_command_ SHELLY_DIMMER_PROTO_CMD_SETTINGS (Some payload)
             SHELLY_DIMMER_PROTO_CMD_SETTINGS_SIZE s;
  send_brightness_ brightness_int s.

(** [write_state(state)], with the brightness that
    [state->current_values_as_brightness] reports. *)
Definition write_state (brightness : float) (s : ShellyDimmer) : option ShellyDimmer :=
  if negb (ready_ s) then Some s
  else
    brightness_int ← convert_brightness_ s brightness;
    if brightness_int =? brightness_ s then Some s
    else send_brightness_ brightness_int s.

(** ** Reset lines *)

Definition reset_ (boot0 : bool) (s : ShellyDimmer) : ShellyDimmer :=
  let e := digital_write_boot0 boot0 (env s) in
  let e := digital_write_nrst false e in
  let e := delay 50 e in
  let e := set_rx [] e in
  let e := digital_write_nrst true e in
  let e := delay 50 e in
  set_env e s.

(** The reconfiguration of the serial port, compiled in only without
    [USE_ESP_IDF], belongs to the transport and is not modelled. *)
Definition reset_normal_boot_ (s : ShellyDimmer) : ShellyDimmer := reset_ false s.
Definition reset_dfu_boot_ (s : ShellyDimmer) : ShellyDimmer := reset_ true s.

(** ** Upgrade orchestrator *)

(** The handle returned by [stm32_init]; [fl_start] is [dev->fl_start]. *)
Record stm32_t := mkStm32 { fl_start : Z }.

(** The version and image macros of the firmware header. *)
Variable SHD_FIRMWARE_MAJOR_VERSION : Z.
Variable SHD_FIRMWARE_MINOR_VERSION : Z.
Variable STM_FIRMWARE : list Z.

(** The flashing service of [stm32flash.h].  It talks to the bootloader over
    the same UART, so each operation transforms the environment; [true]
    stands for [STM32_ERR_OK] and [None] for a null handle. *)
Variable stm32_init : Env -> option stm32_t * Env.
Variable stm32_erase_memory : stm32_t -> Env -> bool * Env.
Variable stm32_write_memory : stm32_t -> Z -> list Z -> Z -> Env -> bool * Env.
Variable stm32_close : stm32_t -> Env -> Env.

(** The copy loop of [upgrade_firmware_].  [p] is the offset of the read
    pointer into the image and [buffer] the local array of 256 bytes.
    [memcpy(buffer, p, sizeof(buffer))] always reads 256 bytes at [p], so it
    leaves the image, which is undefined, when the image has fewer than 256
    bytes left there; the service is then told to write the first [len]
    bytes of the buffer. *)
Fixpoint write_chunks (fuel : nat) (stm32 : stm32_t) (buffer : list Z)
    (p offset addr end_ fw_len : Z) (e : Env) : option (bool * Env) :=
  match fuel with
  | O => None
  | S k =>
      if (addr <? end_) && (offset <? fw_len) then
        let left := u32 (end_ - addr) in
        let len := if 256 >? left then left else 256 in
        let len := if len >? u32 (fw_len - offset) then u32 (fw_len - offset) else len in
        if len =? 0 then Some (true, e)
        else
          buffer ← memcpy buffer 0 (drop (Z.to_nat p) STM_FIRMWARE) 256;
          let p := p + 256 in
          let '(ok, e) := stm32_write_memory stm32 addr buffer len e in
          if negb ok then Some (false, stm32_close stm32 e)
          else write_chunks k stm32 buffer p (u32 (offset + len)) (u32 (addr + len))
                 end_ fw_len e
      else Some (true, e)
  end.

(** The local [buffer] is uninitialised in the source; every round
    overwrites all of it before it is handed over. *)
Definition upgrade_firmware_ (s : ShellyDimmer) : option (bool * ShellyDimmer) :=
  let s := set_upgrades_ (S (upgrades_ s)) s in
  let s := reset_dfu_boot_ s in
  let '(stm32, e) := stm32_init (env s) in
  match stm32 with
  | None => Some (false, set_env e s)
  | Some stm32 =>
      let '(ok, e) := stm32_erase_memory stm32 e in
      if negb ok then Some (false, set_env (stm32_close stm32 e) s)
      else
        let fw_len := u32 (Z.of_nat (length STM_FIRMWARE)) in
        let buffer := replicate 256 0 in
        let addr := u32 (fl_start stm32) in
        let end_ := u32 (addr + Z.of_nat (length STM_FIRMWARE)) in
        '(ok, e) ← write_chunks (S (length STM_FIRMWARE)) stm32 buffer 0 0 addr end_ fw_len e;
        if negb (ok : bool) then Some (false, set_env e s)
        else Some (true, set_env (stm32_close stm32 e) s)
  end.

Definition mark_failed (s : ShellyDimmer) : ShellyDimmer := set_failed_ true s.

(** [for (int i = 0; i < 2; i++) { ... }] of [setup()].  The boolean is
    [false] when the body returned from [setup()] and [true] when the loop
    was left by [break] or by its condition. *)
Fixpoint version_gate (fuel : nat) (i : Z) (s : ShellyDimmer) : option (bool * ShellyDimmer) :=
  match fuel with
  | O => None
  | S k =>
      if i <? 2 then
        let s := reset_normal_boot_ s in
        '(_, s) ← send_command_ SHELLY_DIMMER_PROTO_CMD_VERSION None 0 s;
        if negb (version_major_ s =? SHD_FIRMWARE_MAJOR_VERSION)
           || negb (version_minor_ s =? SHD_FIRMWARE_MINOR_VERSION) then
          if i >? 0 then Some (false, mark_failed s)
          else
            '(ok, s) ← upgrade_firmware_ s;
            if negb (ok : bool) then Some (false, mark_failed s)
            else version_gate k (i + 1) s
        else Some (true, s)
      else Some (true, s)
  end.

Definition setup (s : ShellyDimmer) : option ShellyDimmer :=
  '(go_on, s) ← version_gate 3 0 s;
  if negb (go_on : bool) then Some s
  else
    let s := set_poll_interval_ true s in
    s ← send_settings_ s;
    '(_, s) ← send_command_ SHELLY_DIMMER_PROTO_CMD_POLL None 0 s;
    Some (set_ready_ true s).

(** ** Vocabulary of the statements *)

(** The checksum as a fold: the 16-bit sum of [l] started at [acc]. *)
Definition sum16 (acc : Z) (l : list Z) : Z := fold_left (fun a b => u16 (a + b)) l acc.

(** The frame layout of the wire format: start marker, sequence, command,
    length, payload, checksum high and low byte, end marker. *)
Definition wire_frame (seq cmd : Z) (p : list Z) : list Z :=
  let len := Z.of_nat (length p) in
  let csum := sum16 0 (seq :: cmd :: len :: p) in
  [SHELLY_DIMMER_PROTO_START_BYTE; seq; cmd; len] ++ p
    ++ [Z.shiftr csum 8; Z.land csum 0xff; SHELLY_DIMMER_PROTO_END_BYTE].

(** The bytes behind a payload pointer, none for the null pointer. *)
Definition payload_bytes (payload : option (list Z)) : list Z := default [] payload.

(** Feeding bytes to the parser one at a time, with the code that
    [handle_byte_] returned for each. *)
Fixpoint feed (bytes : list Z) (s : ShellyDimmer) : option (list Z * ShellyDimmer) :=
  match bytes with
  | [] => Some ([], s)
  | c :: rest =>
      '(r, s) ← read_byte_ c s;
      '(rs, s) ← feed rest s;
      Some (r :: rs, s)
  end.

(** The object once the first [k] bytes of [frame] were stored from cursor 0. *)
Definition stored (frame : list Z) (k : nat) (s : ShellyDimmer) : ShellyDimmer :=
  set_buffer_pos_ (Z.of_nat k) (set_buffer_ (take k frame ++ drop k (buffer_ s)) s).

(** The parse buffer has its declared capacity and the cursor is inside the
    frame whose length byte it has accepted. *)
Definition parser_ok (s : ShellyDimmer) : Prop :=
  Z.of_nat (length (buffer_ s)) = SHELLY_DIMMER_BUFFER_SIZE
  /\ 0 <= buffer_pos_ s
  /\ (buffer_pos_ s <= 4
      \/ exists len, rd (buffer_ s) 3 = Some len
                     /\ buffer_pos_ s <= 4 + len + 2
                     /\ 4 + len + 3 <= SHELLY_DIMMER_BUFFER_SIZE).

(** What the parser and the dispatcher leave alone: everything but the parse
    buffer, its cursor, the stored version and the sensor sinks. *)
Definition quiet (s s' : ShellyDimmer) : Prop :=
  config s' = config s /\ seq_ s' = seq_ s /\ brightness_ s' = brightness_ s
  /\ ready_ s' = ready_ s /\ failed_ s' = failed_ s /\ upgrades_ s' = upgrades_ s
  /\ poll_interval_ s' = poll_interval_ s /\ env s' = env s.

(** What the transceiver leaves alone: configuration, last-sent brightness,
    readiness, failure mark, upgrade count, timer registration and the GPIO
    lines. *)
Definition stable (s s' : ShellyDimmer) : Prop :=
  config s' = config s /\ brightness_ s' = brightness_ s /\ ready_ s' = ready_ s
  /\ failed_ s' = failed_ s /\ upgrades_ s' = upgrades_ s
  /\ poll_interval_ s' = poll_interval_ s
  /\ nrst (env s') = nrst (env s) /\ boot0 (env s') = boot0 (env s).

(** The raw 32-bit reading at offset [off] of the payload in the parse
    buffer. *)
Definition raw_reading (s : ShellyDimmer) (off : Z) : option Z :=
  b0 ← rd (buffer_ s) (4 + off);
  b1 ← rd (buffer_ s) (4 + (off + 1));
  b2 ← rd (buffer_ s) (4 + (off + 2));
  b3 ← rd (buffer_ s) (4 + (off + 3));
  Some (le32 b0 b1 b2 b3).

(** What waiting for a reply leaves alone: like [quiet], but time passes and
    received bytes are consumed. *)
Definition kept (s s' : ShellyDimmer) : Prop :=
  config s' = config s /\ seq_ s' = seq_ s /\ brightness_ s' = brightness_ s
  /\ ready_ s' = ready_ s /\ failed_ s' = failed_ s /\ upgrades_ s' = upgrades_ s
  /\ poll_interval_ s' = poll_interval_ s
  /\ tx (env s') = tx (env s) /\ nrst (env s') = nrst (env s)
  /\ boot0 (env s') = boot0 (env s).

(** The peer stays silent: nothing is waiting in the UART and nothing will
    arrive. *)
Definition silent (e : Env) : Prop :=
  rx e = [] /\ Forall (fun arrival => arrival = []) (incoming e).

(** The two bytes that [send_brightness_] sends. *)
Definition switch_payload (brightness : Z) : list Z :=
  [u8 (Z.land brightness 0xff); u8 (Z.shiftr brightness 8)].

(** The brightness a payload carries in its first two bytes, little-endian. *)
Definition payload_brightness (p : list Z) : option Z :=
  lo ← p !! 0%nat; hi ← p !! 1%nat; Some (Z.lor (Z.shiftl hi 8) lo).

(** The brightness of the light state behind [state_], 0.0 for a null
    pointer, as [send_settings_] reads it. *)
Definition light_brightness (s : ShellyDimmer) : float :=
  match state_ (config s) with
  | Some b => b
  | None => fzero
  end.

(** The comparison of the reported version with the expected one. *)
Definition version_mismatch (s : ShellyDimmer) : bool :=
  negb (version_major_ s =? SHD_FIRMWARE_MAJOR_VERSION)
  || negb (version_minor_ s =? SHD_FIRMWARE_MINOR_VERSION).

(** One version check of [setup()]: reset into normal mode, ask for the
    version, compare. *)
Definition check_version (s : ShellyDimmer) : option (bool * ShellyDimmer) :=
  '(_, s) ← send_command_ SHELLY_DIMMER_PROTO_CMD_VERSION None 0 (reset_normal_boot_ s);
  Some (version_mismatch s, s).

(** The float 1.0. *)
Definition fone : float := float_of_Z 1.

(** A valid binary32 value [x] with [0 < x <= 1]. *)
Definition in_unit_interval (x : float) : bool :=
  valid_binary prec32 emax32 x && SFltb fzero x && SFleb x fone.

(** [x] is +0 or a positive finite float of value at most [B]; exponents are
    shifted by [K] to keep every power of two integral. *)
Definition float_le (K : Z) (x : float) (B : Z) : Prop :=
  match x with
  | S754_zero false => True
  | S754_finite false m e => - K <= e /\ Z.pos m * 2 ^ (e + K) <= B * 2 ^ K
  | _ => False
  end.

(** ** Example data *)

(** The default configuration and an idle device on a silent line, with a
    256-byte parse buffer. *)
Definition config_default : Config := mkConfig 0 1000 0 100 20 false None.

Definition env_silent : Env := mkEnv [] [] 0 [] true false.

Definition dimmer_idle : ShellyDimmer :=
  mkDimmer config_default 4 (replicate 256 0) 0 0 0 0 false false
           (Some []) (Some []) (Some []) false 0 env_silent.

(** A ready device whose light is at half brightness. *)
Definition fhalf : float := S754_finite false 8388608 (-24).

Definition dimmer_ready : ShellyDimmer := set_ready_ true dimmer_idle.

(** A configuration whose floor lies above the ceiling of 1000. *)
Definition dimmer_high_floor : ShellyDimmer :=
  mkDimmer (mkConfig 2000 3000 0 100 20 false None) 4 (replicate 256 0) 0 0 0 0
           false false (Some []) (Some []) (Some []) false 0 env_silent.

(** A version reply under sequence number 7, well formed, waiting in the
    UART of a device whose counter stands at 4. *)
Definition stale_reply : list Z := [0x01; 0x07; 0x11; 0x02; 0x00; 0x00; 0x00; 0x1A; 0x04].

Definition dimmer_stale : ShellyDimmer :=
  set_env (mkEnv stale_reply [] 0 [] true false) dimmer_idle.

(** A poll report in the parse buffer, under the current sequence number,
    whose power reading is 0. *)
Definition dimmer_polled : ShellyDimmer :=
  set_buffer_ ([0x01; 0x04; 0x10; 0x11;
                0x01; 0x00; 0xE8; 0x03;
                0x00; 0x00; 0x00; 0x00;
                0x10; 0x27; 0x00; 0x00;
                0x00; 0x00; 0x00; 0x00;
                0x05] ++ replicate 235 0) dimmer_idle.

(** A flashing service that always succeeds, a firmware image of 600 bytes
    and one of 512 bytes, which is two whole chunks. *)
Definition flash_init_ok (e : Env) : option stm32_t * Env := (Some (mkStm32 0x08000000), e).
Definition flash_erase_ok (_ : stm32_t) (e : Env) : bool * Env := (true, e).
Definition flash_write_ok (_ : stm32_t) (_ : Z) (_ : list Z) (_ : Z) (e : Env) : bool * Env :=
  (true, e).
Definition flash_close_ok (_ : stm32_t) (e : Env) : Env := e.
Definition firmware_example : list Z := replicate 600 0xAA.
Definition firmware_padded : list Z := replicate 512 0xAA.

(** ** Vocabulary of the further properties *)

(** The plain sum of a list of bytes. *)
Definition byte_sum (l : list Z) : Z := foldr Z.add 0 l.

(** The number that a list of bytes spells, least significant byte first. *)
Definition le_value (l : list Z) : Z := foldr (fun b acc => b + 256 * acc) 0 l.

(** The image is a whole number of 256-byte chunks. *)
Definition whole_chunks (image : list Z) : Prop := Z.of_nat (length image) mod 256 = 0.

(** The writes that carry the whole 256-byte chunks of the firmware image
    to flash address [start], in order.  Each entry gives the address, the
    buffer handed over and the number of bytes to write. *)
Definition chunk_plan (start : Z) : list (Z * list Z * Z) :=
  let n := Z.of_nat (length STM_FIRMWARE) in
  map (fun i : nat =>
         let off := 256 * Z.of_nat i in
         (start + off, take 256 (drop (Z.to_nat off) STM_FIRMWARE), 256))
      (seq 0 (Z.to_nat (n / 256))).

(** Carrying out a list of writes, closing the handle at the first one that
    fails. *)
Fixpoint write_plan (stm32 : stm32_t) (plan : list (Z * list Z * Z)) (e : Env) : bool * Env :=
  match plan with
  | [] => (true, e)
  | (addr, buffer, len) :: rest =>
      let '(ok, e) := stm32_write_memory stm32 addr buffer len e in
      if negb ok then (false, stm32_close stm32 e) else write_plan stm32 rest e
  end.

(** * Properties *)

(** ** Arrays and checksum *)

Lemma rd_lookup (buf : list Z) (i : nat) : rd buf (Z.of_nat i) = buf !! i.
Proof. unfold rd. rewrite Nat2Z.id. destruct (Z.leb_spec 0 (Z.of_nat i)); [done | lia]. Qed.

Lemma rd_Some_inv (buf : list Z) i v :
  rd buf i = Some v -> 0 <= i < Z.of_nat (length buf).
Proof.
  unfold rd. destruct (Z.leb_spec 0 i); [| done].
  intros E. apply lookup_lt_Some in E. lia.
Qed.

Lemma rd_defined (buf : list Z) i :
  0 <= i < Z.of_nat (length buf) -> is_Some (rd buf i).
Proof.
  intros Hi. unfold rd. destruct (Z.leb_spec 0 i); [| lia].
  apply lookup_lt_is_Some. lia.
Qed.

Lemma wr_defined (buf : list Z) i v :
  0 <= i < Z.of_nat (length buf) -> wr buf i v = Some (<[Z.to_nat i := v]> buf).
Proof.
  intros Hi. unfold wr.
  destruct (Z.leb_spec 0 i); [| lia].
  destruct (Z.ltb_spec i (Z.of_nat (length buf))); [done | lia].
Qed.

Lemma wr_Some_inv (buf : list Z) i v buf' :
  wr buf i v = Some buf' ->
  0 <= i < Z.of_nat (length buf) /\ buf' = <[Z.to_nat i := v]> buf.
Proof.
  unfold wr. destruct (Z.leb_spec 0 i); destruct (Z.ltb_spec i (Z.of_nat (length buf)));
    simpl; intros E; try done. split; [lia | congruence].
Qed.

Lemma rd_wr_same (buf : list Z) i v :
  0 <= i < Z.of_nat (length buf) -> rd (<[Z.to_nat i := v]> buf) i = Some v.
Proof.
  intros Hi. unfold rd. destruct (Z.leb_spec 0 i); [| lia].
  apply list_lookup_insert_eq. lia.
Qed.

Lemma rd_wr_other (buf : list Z) i j v :
  0 <= i -> i <> j -> rd (<[Z.to_nat i := v]> buf) j = rd buf j.
Proof.
  intros Hi Hij. unfold rd. destruct (Z.leb_spec 0 j); [| done].
  apply list_lookup_insert_ne. lia.
Qed.

Lemma checksum_loop_segment (l : list Z) : forall (buf : list Z) (i : nat) acc,
  take (length l) (drop i buf) = l ->
  checksum_loop buf (Z.of_nat i) (length l) acc = Some (sum16 acc l).
Proof.
  induction l as [| x l IH]; intros buf i acc Hseg; [done |].
  simpl in *. destruct (drop i buf) as [| y rest] eqn:Hdrop; [done |].
  simpl in Hseg. injection Hseg as -> Hrest.
  assert (Hx : buf !! i = Some x).
  { rewrite <- (Nat.add_0_r i), <- lookup_drop, Hdrop. done. }
  rewrite rd_lookup, Hx. simpl.
  replace (Z.of_nat i + 1) with (Z.of_nat (S i)) by lia.
  apply IH. replace (S i) with (i + 1)%nat by lia.
  rewrite <- drop_drop, Hdrop. simpl. by rewrite drop_0.
Qed.

Lemma wr_middle (buf l1 l2 : list Z) x v i :
  buf = l1 ++ x :: l2 -> i = Z.of_nat (length l1) -> wr buf i v = Some (l1 ++ v :: l2).
Proof.
  intros -> ->. rewrite wr_defined by (rewrite length_app; simpl; lia).
  rewrite Nat2Z.id. f_equal.
  rewrite insert_app_r_alt by lia. by rewrite Nat.sub_diag.
Qed.

Lemma frame_command__wire (data : list Z) cmd (p : list Z) (s : ShellyDimmer) :
  let len := Z.of_nat (length p) in
  len <= 255 ->
  4 + len + 3 <= Z.of_nat (length data) ->
  exists data',
    frame_command_ data cmd (Some p) len s
      = Some (data', 4 + len + 3, set_seq_ (u8 (seq_ s + 1)) s)
    /\ length data' = length data
    /\ take (Z.to_nat (4 + len + 3)) data' = wire_frame (u8 (seq_ s + 1)) (u8 cmd) p.
Proof.
  intros len Hlen Hdata.
  destruct data as [| a0 rest1]; [simpl in Hdata; lia |].
  destruct rest1 as [| a1 rest2]; [simpl in Hdata; lia |].
  destruct rest2 as [| a2 rest3]; [simpl in Hdata; lia |].
  destruct rest3 as [| a3 rest]; [simpl in Hdata; lia |].
  simpl in Hdata.
  assert (Hrest : (length p + 3 <= length rest)%nat) by (subst len; lia).
  destruct (drop (length p) rest) as [| r0 [| r1 [| r2 tail]]] eqn:Hdrop;
    try (apply (f_equal length) in Hdrop; rewrite length_drop in Hdrop; simpl in Hdrop; lia).
  exists ([SHELLY_DIMMER_PROTO_START_BYTE; u8 (seq_ s + 1); u8 cmd; len] ++ p
            ++ [Z.shiftr (sum16 0 (u8 (seq_ s + 1) :: u8 cmd :: len :: p)) 8;
                Z.land (sum16 0 (u8 (seq_ s + 1) :: u8 cmd :: len :: p)) 0xff;
                SHELLY_DIMMER_PROTO_END_BYTE] ++ tail).
  assert (Hu8 : u8 len = len) by (unfold u8; apply Z.mod_small; lia).
  split; [| split].
  - unfold frame_command_.
    rewrite (wr_middle _ [] _ a0) by done. simpl.
    rewrite (wr_middle _ [_] _ a1) by done. simpl.
    rewrite (wr_middle _ [_; _] _ a2) by done. simpl.
    rewrite (wr_middle _ [_; _; _] rest a3) by done. simpl.
    rewrite Hu8.
    unfold memcpy.
    replace ((0 <=? len) && (len <=? Z.of_nat (length p))
             && (4 + len <=? Z.of_nat (length (SHELLY_DIMMER_PROTO_START_BYTE
                  :: u8 (seq_ s + 1) :: u8 cmd :: len :: rest)))) with true.
    2:{ symmetry. rewrite !andb_true_iff, !Z.leb_le. simpl length. lia. }
    simpl.
    replace (Z.to_nat len) with (length p) by lia.
    replace (Z.to_nat (4 + len)) with (4 + length p)%nat by lia.
    rewrite firstn_all. simpl. rewrite Hdrop.
    unfold shelly_dimmer_checksum.
    replace (Z.to_nat (3 + len)) with (length (u8 (seq_ s + 1) :: u8 cmd :: len :: p))
      by (simpl; lia).
    rewrite (checksum_loop_segment _ _ 1).
    2:{ simpl. rewrite take_app_length. done. }
    simpl.
    set (csum := sum16 0 (u8 (seq_ s + 1) :: u8 cmd :: len :: p)).
    set (hdr := [SHELLY_DIMMER_PROTO_START_BYTE; u8 (seq_ s + 1); u8 cmd; len]).
    rewrite (wr_middle _ (hdr ++ p) (r1 :: r2 :: tail) r0)
      by (done || (rewrite length_app; simpl; lia)).
    simpl.
    rewrite (wr_middle _ (hdr ++ p ++ [Z.shiftr csum 8]) (r2 :: tail) r1).
    2:{ simpl. by rewrite <- app_assoc. }
    2:{ rewrite !length_app. simpl. lia. }
    simpl.
    rewrite (wr_middle _ (hdr ++ p ++ [Z.shiftr csum 8; Z.land csum 255]) tail r2).
    2:{ simpl. rewrite <- !app_assoc. done. }
    2:{ rewrite !length_app. simpl. lia. }
    simpl. rewrite <- !app_assoc. simpl.
    repeat f_equal; lia.
  - simpl. rewrite !length_app. simpl.
    apply (f_equal length) in Hdrop. rewrite length_drop in Hdrop. simpl in Hdrop. lia.
  - unfold wire_frame. fold len.
    replace (Z.to_nat (4 + len + 3)) with (4 + (length p + 3))%nat by lia.
    simpl. do 4 f_equal.
    rewrite take_app, take_ge by lia.
    replace (length p + 3 - length p)%nat with 3%nat by lia. done.
Qed.
(** ** Stream parser *)

Lemma sum16_range (l : list Z) : forall acc, 0 <= acc < 65536 -> 0 <= sum16 acc l < 65536.
Proof.
  induction l as [| x l IH]; intros acc Hacc; simpl; [done |].
  apply IH. unfold u16. apply Z.mod_pos_bound. lia.
Qed.

Lemma split_hi_lo x : 0 <= x -> Z.lor (Z.shiftl (Z.shiftr x 8) 8) (Z.land x 255) = x.
Proof.
  intros Hx. change 255 with (Z.ones 8). rewrite Z.land_ones by lia.
  apply Z.bits_inj'. intros n Hn. rewrite Z.lor_spec.
  destruct (Z.lt_ge_cases n 8).
  - rewrite Z.shiftl_spec_low, Z.mod_pow2_bits_low by lia. done.
  - rewrite Z.shiftl_spec_high, Z.shiftr_spec, Z.mod_pow2_bits_high by lia.
    rewrite orb_false_r. f_equal. lia.
Qed.

Lemma u16_hi_lo x : 0 <= x < 65536 -> u16 (Z.lor (Z.shiftl (Z.shiftr x 8) 8) (Z.land x 255)) = x.
Proof. intros Hx. rewrite split_hi_lo by lia. unfold u16. apply Z.mod_small. lia. Qed.

Lemma u8_le x : 0 <= x -> 0 <= u8 x <= x.
Proof.
  intros Hx. unfold u8. split; [apply Z.mod_pos_bound; lia | apply Z.mod_le; lia].
Qed.

Lemma checksum_loop_defined (buf : list Z) (n : nat) : forall i acc,
  0 <= i -> i + Z.of_nat n <= Z.of_nat (length buf) ->
  is_Some (checksum_loop buf i n acc).
Proof.
  induction n as [| n IH]; intros i acc Hi Hn; simpl; [done |].
  destruct (rd_defined buf i) as [b Hb]; [lia |]. rewrite Hb. simpl.
  apply IH; lia.
Qed.

Ltac read_defined :=
  match goal with
  | |- context [rd ?b ?i] =>
      let v := fresh "v" in
      let E := fresh "E" in
      destruct (rd_defined b i) as [v E]; [lia | rewrite E; simpl]
  end.

Ltac quiet_done := unfold quiet; simpl; repeat split; done.

Lemma quiet_refl s : quiet s s.
Proof. quiet_done. Qed.

Lemma quiet_trans s1 s2 s3 : quiet s1 s2 -> quiet s2 s3 -> quiet s1 s3.
Proof. unfold quiet. intros. destruct_and!. repeat split; congruence. Qed.

(** The dispatcher reads inside a complete frame only, and changes nothing
    but the version fields and the sensor sinks. *)
Lemma handle_frame__defined (s : ShellyDimmer) len :
  rd (buffer_ s) 3 = Some len ->
  4 + len + 3 <= Z.of_nat (length (buffer_ s)) ->
  exists ok s', handle_frame_ s = Some (ok, s')
    /\ buffer_ s' = buffer_ s /\ buffer_pos_ s' = buffer_pos_ s /\ quiet s s'.
Proof.
  intros Hlen Hfit. pose proof (rd_Some_inv _ _ _ Hlen) as Hsz.
  unfold handle_frame_.
  destruct (rd_defined (buffer_ s) 1) as [seq Hseq]; [lia |].
  destruct (rd_defined (buffer_ s) 2) as [cmd Hcmd]; [lia |].
  rewrite Hseq, Hcmd, Hlen. simpl.
  destruct (negb (seq =? seq_ s)); [eexists _, _; split; [done |]; split_and!; try done; quiet_done |].
  destruct (cmd =? SHELLY_DIMMER_PROTO_CMD_POLL).
  { destruct (Z.ltb_spec len 16);
      [eexists _, _; split; [done |]; split_and!; try done; quiet_done |].
    repeat read_defined.
    eexists _, _; split; [done |]; split_and!; try done; quiet_done. }
  destruct (cmd =? SHELLY_DIMMER_PROTO_CMD_VERSION).
  { destruct (Z.ltb_spec len 2);
      [eexists _, _; split; [done |]; split_and!; try done; quiet_done |].
    repeat read_defined.
    eexists _, _; split; [done |]; split_and!; try done; quiet_done. }
  destruct ((cmd =? SHELLY_DIMMER_PROTO_CMD_SWITCH) || (cmd =? SHELLY_DIMMER_PROTO_CMD_SETTINGS)).
  { destruct (Z.ltb_spec len 1);
      [eexists _, _; split; [done |]; split_and!; try done; quiet_done |].
    read_defined.
    eexists _, _; split; [done |]; split_and!; try done; quiet_done. }
  eexists _, _; split; [done |]; split_and!; try done; quiet_done.
Qed.

(** Frames of the largest size that [frame_command_] builds fit the parse
    buffer. *)
Hypothesis buffer_fits : SHELLY_DIMMER_PROTO_MAX_FRAME_SIZE <= SHELLY_DIMMER_BUFFER_SIZE.

Lemma parser_ok_cursor s :
  parser_ok s -> 0 <= buffer_pos_ s < Z.of_nat (length (buffer_ s)).
Proof.
  unfold SHELLY_DIMMER_PROTO_MAX_FRAME_SIZE in buffer_fits.
  intros (Hsz & Hpos & [Hhdr | (len & _ & Hin & Hfit)]); lia.
Qed.

(** One byte: the parser never leaves its buffer, answers with one of its
    three codes, and rewinds the cursor unless it asks for more. *)
Lemma read_byte__ok c s :
  parser_ok s ->
  exists r s', read_byte_ c s = Some (r, s')
    /\ parser_ok s' /\ quiet s s'
    /\ (r = 0 \/ r = -1 \/ r = 1)
    /\ (r <> 1 -> buffer_pos_ s' = 0).
Proof.
  intros Hok. pose proof (parser_ok_cursor s Hok) as Hcur.
  destruct Hok as (Hsz & Hpos & Hin).
  unfold SHELLY_DIMMER_PROTO_MAX_FRAME_SIZE in buffer_fits.
  unfold read_byte_. rewrite wr_defined by lia. simpl.
  set (buf := <[Z.to_nat (buffer_pos_ s) := c]> (buffer_ s)).
  assert (Hlen : length buf = length (buffer_ s)) by apply length_insert.
  unfold handle_byte_. simpl.
  destruct (Z.eqb_spec (buffer_pos_ s) 0) as [H0 | H0].
  { destruct (c =? SHELLY_DIMMER_PROTO_START_BYTE); simpl.
    - eexists _, _; split; [done |]. split_and!; try quiet_done; try lia.
      unfold parser_ok; simpl. rewrite H0. change (u8 (0 + 1)) with 1.
      split_and!; try lia.
    - eexists _, _; split; [done |]. split_and!; try quiet_done; try lia.
      unfold parser_ok; simpl. split_and!; try lia. }
  destruct (Z.ltb_spec (buffer_pos_ s) 4) as [H4 | H4].
  { simpl. eexists _, _; split; [done |]. split_and!; try quiet_done; try lia.
    unfold parser_ok; simpl. pose proof (u8_le (buffer_pos_ s + 1)). split_and!; try lia. }
  destruct (rd_defined buf 3) as [len Hl]; [lia |]. rewrite Hl. simpl.
  rewrite Z.gtb_ltb.
  destruct (Z.ltb_spec SHELLY_DIMMER_BUFFER_SIZE (4 + len + 3)) as [Hbig | Hfit].
  { simpl. eexists _, _; split; [done |]. split_and!; try quiet_done; try lia.
    unfold parser_ok; simpl. split_and!; try lia. }
  destruct (Z.ltb_spec (buffer_pos_ s) (4 + len + 1)) as [Hpay | Hpay].
  { simpl. eexists _, _; split; [done |]. split_and!; try quiet_done; try lia.
    unfold parser_ok; simpl. pose proof (u8_le (buffer_pos_ s + 1)).
    split_and!; try lia. right. exists len. split_and!; try done; lia. }
  destruct (Z.eqb_spec (buffer_pos_ s) (4 + len + 1)) as [Hcs | Hcs].
  { destruct (rd_defined buf (buffer_pos_ s - 1)) as [hi Hhi]; [lia |]. rewrite Hhi. simpl.
    destruct (checksum_loop_defined buf (Z.to_nat (3 + len)) 1 0) as [v Hv]; [lia | lia |].
    unfold shelly_dimmer_checksum. rewrite Hv. simpl.
    destruct (negb _); simpl.
    - eexists _, _; split; [done |]. split_and!; try quiet_done; try lia.
      unfold parser_ok; simpl. split_and!; try lia.
    - eexists _, _; split; [done |]. split_and!; try quiet_done; try lia.
      unfold parser_ok; simpl. pose proof (u8_le (buffer_pos_ s + 1)).
      split_and!; try lia. right. exists len. split_and!; try done; lia. }
  destruct (Z.eqb_spec (buffer_pos_ s) (4 + len + 2)) as [Hend | Hend].
  { destruct (c =? SHELLY_DIMMER_PROTO_END_BYTE); simpl.
    - destruct (handle_frame__defined (set_buffer_ buf s) len) as (ok & s' & E & Hb & Hp & Hq);
        [done | simpl; lia |].
      rewrite E. simpl. eexists _, _; split; [done |].
      split_and!; try lia.
      + unfold parser_ok; simpl. rewrite Hb. simpl. split_and!; try lia.
      + unfold quiet in *. simpl in *. destruct_and!. split_and!; congruence.
      + done.
    - eexists _, _; split; [done |]. split_and!; try quiet_done; try lia.
      unfold parser_ok; simpl. split_and!; try lia. }
  simpl. eexists _, _; split; [done |]. split_and!; try quiet_done; try lia.
  unfold parser_ok; simpl. split_and!; try lia.
Qed.

Lemma feed_app (l1 l2 : list Z) : forall s,
  feed (l1 ++ l2) s
  = '(r1, s1) ← feed l1 s; '(r2, s2) ← feed l2 s1; Some (r1 ++ r2, s2).
Proof.
  induction l1 as [| c l1 IH]; intros s; simpl.
  - destruct (feed l2 s) as [[r2 s2] |]; done.
  - destruct (read_byte_ c s) as [[r s1] |]; simpl; [| done].
    rewrite IH. destruct (feed l1 s1) as [[r1 s2] |]; simpl; [| done].
    destruct (feed l2 s2) as [[r2 s3] |]; done.
Qed.

Lemma feed_single c s :
  feed [c] s = '(r, s1) ← read_byte_ c s; Some ([r], s1).
Proof. simpl. by destruct (read_byte_ c s) as [[r s1] |]. Qed.

Lemma segment_of_lookup (l buf : list Z) (i : nat) :
  (forall j, (j < length l)%nat -> buf !! (i + j)%nat = l !! j) ->
  take (length l) (drop i buf) = l.
Proof.
  intros H. apply list_eq. intros j.
  destruct (Nat.lt_ge_cases j (length l)) as [Hj | Hj].
  - rewrite lookup_take_lt by lia. rewrite lookup_drop. by apply H.
  - rewrite lookup_take_ge by lia. symmetry. apply lookup_ge_None. lia.
Qed.

Lemma lookup_stored (F R : list Z) (k i : nat) :
  (i <= k)%nat -> (k < length F)%nat -> (take (S k) F ++ R) !! i = F !! i.
Proof.
  intros Hi Hk. rewrite lookup_app_l by (rewrite length_take; lia).
  apply lookup_take_lt. lia.
Qed.

Lemma stored_0 F s : buffer_pos_ s = 0 -> stored F 0 s = s.
Proof. intros H. unfold stored. rewrite take_0, drop_0. destruct s; simpl in *. by subst. Qed.

Section Frame.

Variables (seq cmd : Z) (p : list Z).

Let F := wire_frame seq cmd p.
Let len := Z.of_nat (length p).
Let csum := sum16 0 (seq :: cmd :: len :: p).

Hypothesis frame_fits : 4 + len + 3 <= SHELLY_DIMMER_BUFFER_SIZE.
Hypothesis cursor_fits : len <= 249.

Lemma wire_frame_length : length F = (4 + length p + 3)%nat.
Proof. unfold F, wire_frame. simpl. rewrite length_app. simpl. lia. Qed.

Lemma wire_frame_header :
  F !! 0%nat = Some SHELLY_DIMMER_PROTO_START_BYTE /\ F !! 1%nat = Some seq
  /\ F !! 2%nat = Some cmd /\ F !! 3%nat = Some len.
Proof. done. Qed.

Lemma wire_frame_payload j : (j < length p)%nat -> F !! (4 + j)%nat = p !! j.
Proof. intros Hj. unfold F, wire_frame. simpl. by rewrite lookup_app_l. Qed.

Lemma wire_frame_trailer :
  F !! (4 + length p)%nat = Some (Z.shiftr csum 8)
  /\ F !! (5 + length p)%nat = Some (Z.land csum 255)
  /\ F !! (6 + length p)%nat = Some SHELLY_DIMMER_PROTO_END_BYTE.
Proof.
  unfold F, wire_frame. simpl. split_and!.
  - by rewrite lookup_app_r, Nat.sub_diag by lia.
  - rewrite lookup_app_r by lia. by replace (S (length p) - length p)%nat with 1%nat by lia.
  - rewrite lookup_app_r by lia. by replace (S (S (length p)) - length p)%nat with 2%nat by lia.
Qed.

Lemma wire_frame_body (R : list Z) (k : nat) :
  (3 + length p <= k)%nat -> (k < length F)%nat ->
  shelly_dimmer_checksum (take (S k) F ++ R) 1 (3 + len) = Some csum.
Proof.
  intros Hk HF. unfold shelly_dimmer_checksum.
  replace (Z.to_nat (3 + len)) with (length (seq :: cmd :: len :: p)) by (simpl; lia).
  apply (checksum_loop_segment _ _ 1). apply segment_of_lookup.
  intros j Hj. simpl in Hj. rewrite lookup_stored by lia.
  unfold F, wire_frame. simpl.
  destruct j as [| [| [| j]]]; try done. simpl.
  apply lookup_app_l. lia.
Qed.

(** Every byte of a frame but the last asks for more data. *)
Lemma read_byte__frame (k : nat) c s :
  Z.of_nat (length (buffer_ s)) = SHELLY_DIMMER_BUFFER_SIZE ->
  F !! k = Some c -> (S k < length F)%nat ->
  read_byte_ c (stored F k s) = Some (1, stored F (S k) s).
Proof.
  intros Hsz Hc Hk. pose proof wire_frame_length as HF.
  destruct wire_frame_header as (F0 & F1 & F2 & F3).
  destruct wire_frame_trailer as (Fhi & Flo & Fend).
  destruct (lookup_lt_is_Some_2 (buffer_ s) k) as [x Hx]; [lia |].
  unfold read_byte_, stored. simpl.
  rewrite (wr_middle _ (take k F) (drop (S k) (buffer_ s)) x).
  2:{ f_equal. by apply drop_S. }
  2:{ rewrite length_take. lia. }
  simpl.
  replace (take k F ++ c :: drop (S k) (buffer_ s))
    with (take (S k) F ++ drop (S k) (buffer_ s))
    by (rewrite (take_S_r _ _ _ Hc), <- app_assoc; done).
  set (B := take (S k) F ++ drop (S k) (buffer_ s)).
  assert (HBcs : (3 + length p <= k)%nat ->
                 shelly_dimmer_checksum B 1 (3 + len) = Some csum)
    by (intros; apply wire_frame_body; lia).
  assert (HBhi : k = (5 + length p)%nat -> rd B (Z.of_nat k - 1) = Some (Z.shiftr csum 8)).
  { intros ->. replace (Z.of_nat (5 + length p) - 1) with (Z.of_nat (4 + length p)) by lia.
    rewrite rd_lookup. unfold B. rewrite lookup_stored by lia. done. }
  assert (Hone : handle_byte_ (set_buffer_ B (set_buffer_pos_ (Z.of_nat k)
            (set_buffer_ (take k F ++ drop k (buffer_ s)) s))) c = Some 1).
  { unfold handle_byte_. simpl.
    destruct (Z.eqb_spec (Z.of_nat k) 0) as [H0 | H0].
    { replace k with 0%nat in Hc by lia. rewrite F0 in Hc. injection Hc as <-. done. }
    destruct (Z.ltb_spec (Z.of_nat k) 4) as [H4 | H4]; [done |].
    assert (HB3 : rd B 3 = Some len).
    { change 3 with (Z.of_nat 3). rewrite rd_lookup. unfold B. rewrite lookup_stored by lia. done. }
    rewrite HB3. simpl. rewrite Z.gtb_ltb.
    destruct (Z.ltb_spec SHELLY_DIMMER_BUFFER_SIZE (4 + len + 3)); [lia |].
    destruct (Z.ltb_spec (Z.of_nat k) (4 + len + 1)) as [Hp | Hp]; [done |].
    assert (Hk5 : k = (5 + length p)%nat) by (subst len; lia).
    destruct (Z.eqb_spec (Z.of_nat k) (4 + len + 1)); [| subst len; lia].
    rewrite HBhi, HBcs by lia. simpl.
    rewrite Hk5, Flo in Hc. injection Hc as <-.
    rewrite u16_hi_lo by (apply sum16_range; lia).
    by rewrite Z.eqb_refl. }
  rewrite Hone. simpl.
  replace (u8 (Z.of_nat k + 1)) with (Z.of_nat (S k)); [done |].
  unfold u8. rewrite Z.mod_small; subst len; lia.
Qed.

Lemma feed_frame_prefix s (k : nat) :
  Z.of_nat (length (buffer_ s)) = SHELLY_DIMMER_BUFFER_SIZE ->
  (S k <= length F)%nat ->
  feed (take k F) (stored F 0 s) = Some (replicate k 1, stored F k s).
Proof.
  intros Hsz. induction k as [| k IH]; intros Hk; [done |].
  destruct (lookup_lt_is_Some_2 F k) as [c Hc]; [lia |].
  rewrite (take_S_r _ _ _ Hc), feed_app, IH by lia. simpl.
  rewrite read_byte__frame by (done || lia). simpl.
  by rewrite <- replicate_cons_app.
Qed.

(** The end marker completes the frame: it is dispatched and the cursor
    returns to 0, with the frame left in the buffer. *)
Lemma read_byte__frame_end s :
  Z.of_nat (length (buffer_ s)) = SHELLY_DIMMER_BUFFER_SIZE ->
  exists s', read_byte_ SHELLY_DIMMER_PROTO_END_BYTE (stored F (6 + length p) s) = Some (0, s')
    /\ buffer_pos_ s' = 0
    /\ buffer_ s' = F ++ drop (length F) (buffer_ s)
    /\ quiet s s'.
Proof.
  intros Hsz. pose proof wire_frame_length as HF.
  destruct wire_frame_header as (F0 & F1 & F2 & F3).
  destruct wire_frame_trailer as (Fhi & Flo & Fend).
  remember (6 + length p)%nat as k eqn:Hk.
  destruct (lookup_lt_is_Some_2 (buffer_ s) k) as [x Hx]; [subst len; lia |].
  unfold read_byte_, stored. simpl.
  rewrite (wr_middle _ (take k F) (drop (S k) (buffer_ s)) x).
  2:{ f_equal. by apply drop_S. }
  2:{ rewrite length_take. lia. }
  simpl.
  replace (take k F ++ SHELLY_DIMMER_PROTO_END_BYTE :: drop (S k) (buffer_ s))
    with (take (S k) F ++ drop (S k) (buffer_ s))
    by (rewrite (take_S_r _ _ _ Fend), <- app_assoc; done).
  set (B := take (S k) F ++ drop (S k) (buffer_ s)).
  assert (HB3 : rd B 3 = Some len).
  { change 3 with (Z.of_nat 3). rewrite rd_lookup. unfold B.
    rewrite lookup_stored by lia. done. }
  assert (Hzero : handle_byte_ (set_buffer_ B (set_buffer_pos_ (Z.of_nat k)
            (set_buffer_ (take k F ++ drop k (buffer_ s)) s))) SHELLY_DIMMER_PROTO_END_BYTE
          = Some 0).
  { unfold handle_byte_. simpl.
    destruct (Z.eqb_spec (Z.of_nat k) 0); [lia |].
    destruct (Z.ltb_spec (Z.of_nat k) 4); [lia |].
    rewrite HB3. simpl. rewrite Z.gtb_ltb.
    destruct (Z.ltb_spec SHELLY_DIMMER_BUFFER_SIZE (4 + len + 3)); [lia |].
    destruct (Z.ltb_spec (Z.of_nat k) (4 + len + 1)); [subst len; lia |].
    destruct (Z.eqb_spec (Z.of_nat k) (4 + len + 1)); [subst len; lia |].
    destruct (Z.eqb_spec (Z.of_nat k) (4 + len + 2)); [done | subst len; lia]. }
  rewrite Hzero. simpl.
  assert (HlenB : length B = length (buffer_ s)).
  { unfold B. rewrite length_app, length_take, length_drop. subst len. lia. }
  edestruct (handle_frame__defined (set_buffer_ B (set_buffer_pos_ (Z.of_nat k)
            (set_buffer_ (take k F ++ drop k (buffer_ s)) s))) len)
    as (ok & s' & E & Hb & Hp & Hq);
    [done | cbn [buffer_ set_buffer_]; rewrite HlenB; lia |].
  rewrite E. simpl. eexists; split; [done |]. simpl. split_and!; [done | |].
  - rewrite Hb. cbn [buffer_ set_buffer_]. unfold B. rewrite take_ge by lia.
    by replace (S k) with (length F) by lia.
  - unfold quiet in *. simpl in *. destruct_and!. split_and!; congruence.
Qed.

(** Decoding a frame from cursor 0: every byte asks for more but the last,
    which completes the frame, and the buffer then starts with the frame. *)
Lemma feed_wire_frame s :
  Z.of_nat (length (buffer_ s)) = SHELLY_DIMMER_BUFFER_SIZE ->
  buffer_pos_ s = 0 ->
  exists s', feed F s = Some (replicate (6 + length p) 1 ++ [0], s')
    /\ buffer_pos_ s' = 0
    /\ buffer_ s' = F ++ drop (length F) (buffer_ s)
    /\ quiet s s'.
Proof.
  intros Hsz Hpos. pose proof wire_frame_length as HF.
  destruct wire_frame_trailer as (_ & _ & Fend).
  destruct (read_byte__frame_end s Hsz) as (s' & E & H1 & H2 & H3).
  exists s'. split; [| done].
  rewrite <- (take_drop (6 + length p) F) at 1.
  rewrite (drop_S _ _ _ Fend), drop_ge by lia.
  rewrite feed_app. rewrite <- (stored_0 F s Hpos) at 1.
  rewrite feed_frame_prefix by (done || lia).
  cbn [mbind option_bind]. rewrite feed_single, E. done.
Qed.

End Frame.

(** The null payload pointer with length 0 gives the frame of the empty
    payload. *)
Lemma frame_command__wire_null (data : list Z) cmd (s : ShellyDimmer) :
  7 <= Z.of_nat (length data) ->
  exists data',
    frame_command_ data cmd None 0 s = Some (data', 7, set_seq_ (u8 (seq_ s + 1)) s)
    /\ length data' = length data
    /\ take 7 data' = wire_frame (u8 (seq_ s + 1)) (u8 cmd) [].
Proof.
  intros Hdata.
  destruct data as [| a0 [| a1 [| a2 [| a3 [| a4 [| a5 [| a6 rest]]]]]]];
    simpl in Hdata; try lia.
  eexists. unfold frame_command_.
  rewrite (wr_middle _ [] _ a0) by done. simpl.
  rewrite (wr_middle _ [_] _ a1) by done. simpl.
  rewrite (wr_middle _ [_; _] _ a2) by done. simpl.
  rewrite (wr_middle _ [_; _; _] _ a3) by done. simpl.
  rewrite (wr_middle _ [_; _; _; _] _ a4) by done. simpl.
  rewrite (wr_middle _ [_; _; _; _; _] _ a5) by done. simpl.
  rewrite (wr_middle _ [_; _; _; _; _; _] _ a6) by done. simpl.
  split; [done |]. split; done.
Qed.

(** The frame that [frame_command_] builds, for a payload pointer that is
    null with length 0 or points to [len] bytes. *)
Lemma frame_command__frame (data : list Z) cmd payload len (s : ShellyDimmer) :
  len = Z.of_nat (length (payload_bytes payload)) ->
  len <= 255 ->
  4 + len + 3 <= Z.of_nat (length data) ->
  exists data',
    frame_command_ data cmd payload len s
      = Some (data', 4 + len + 3, set_seq_ (u8 (seq_ s + 1)) s)
    /\ length data' = length data
    /\ take (Z.to_nat (4 + len + 3)) data'
       = wire_frame (u8 (seq_ s + 1)) (u8 cmd) (payload_bytes payload).
Proof.
  intros -> Hlen Hdata. destruct payload as [p |]; simpl in *.
  - by apply frame_command__wire.
  - apply frame_command__wire_null. lia.
Qed.

(** The dispatcher never touches the parse buffer or its cursor. *)
Lemma handle_frame__inv (s : ShellyDimmer) ok s' :
  handle_frame_ s = Some (ok, s') ->
  buffer_ s' = buffer_ s /\ buffer_pos_ s' = buffer_pos_ s /\ quiet s s'.
Proof.
  unfold handle_frame_. intros H.
  repeat match type of H with
         | context [rd ?b ?i] => destruct (rd b i); simpl in H; [| done]
         | context [if ?c then _ else _] => destruct c; simpl in H
         end;
    injection H as <- <-; split_and!; try done; quiet_done.
Qed.

(** Whatever a byte does, the buffer keeps its size, and a code other than
    "more data" leaves the cursor at 0. *)
Lemma read_byte__inv c s r s' :
  read_byte_ c s = Some (r, s') ->
  length (buffer_ s') = length (buffer_ s)
  /\ (r = 0 \/ r = -1 -> buffer_pos_ s' = 0).
Proof.
  unfold read_byte_. intros H.
  destruct (wr (buffer_ s) (buffer_pos_ s) c) as [buf |] eqn:Hwr; simpl in H; [| done].
  apply wr_Some_inv in Hwr as [_ ->].
  destruct (handle_byte_ _ c) as [r0 |]; simpl in H; [| done].
  destruct (Z.eqb_spec r0 0) as [E0 | H0].
  { subst r0. destruct (handle_frame_ _) as [[ok s1] |] eqn:Hf; simpl in H; [| done].
    injection H as <- <-. apply handle_frame__inv in Hf as (Hb & _ & _).
    simpl. rewrite Hb. simpl. by rewrite length_insert. }
  destruct (Z.eqb_spec r0 (-1)) as [E1 | H1].
  { subst r0. injection H as <- <-. simpl. by rewrite length_insert. }
  destruct (Z.eqb_spec r0 1) as [E2 | H2]; injection H as <- <-; simpl;
    rewrite length_insert; (split; [done | lia]).
Qed.

Lemma feed_inv (bytes : list Z) : forall s codes s',
  feed bytes s = Some (codes, s') ->
  length (buffer_ s') = length (buffer_ s)
  /\ (last codes = Some 0 \/ last codes = Some (-1) -> buffer_pos_ s' = 0).
Proof.
  induction bytes as [| c bytes IH]; intros s codes s' H; simpl in H.
  - injection H as <- <-. split; [done |]. intros [? | ?]; done.
  - destruct (read_byte_ c s) as [[r s1] |] eqn:E1; simpl in H; [| done].
    destruct (feed bytes s1) as [[rs s2] |] eqn:E2; simpl in H; [| done].
    injection H as <- <-.
    apply read_byte__inv in E1 as [Hl1 Hp1].
    pose proof (IH _ _ _ E2) as [Hl2 Hp2].
    split; [congruence |].
    destruct rs as [| r' rs'].
    + simpl in E2. destruct bytes; simpl in E2.
      * injection E2 as <-. simpl. intros [? | ?]; apply Hp1; [left | right]; congruence.
      * destruct (read_byte_ _ _) as [[? ?] |]; simpl in E2; [| done].
        destruct (feed _ _) as [[? ?] |]; simpl in E2; done.
    + rewrite last_cons_cons. done.
Qed.


(** C2: for every command id, sequence value and payload of 0 to 72 bytes,
    the bytes that [frame_command_] produces, fed one at a time to the
    parser from cursor 0, ask for more data at every byte but the last and
    complete the frame on the last; the parse buffer then holds the sequence
    byte that was sent, the command id, the length and the payload. *)
Theorem frame_roundtrip (data : list Z) (cmd : Z) (payload : option (list Z)) (len : Z)
    (s parser : ShellyDimmer) :
  0 <= cmd < 256 ->
  len = Z.of_nat (length (payload_bytes payload)) ->
  len <= 72 ->
  Z.of_nat (length data) = SHELLY_DIMMER_PROTO_MAX_FRAME_SIZE ->
  Z.of_nat (length (buffer_ parser)) = SHELLY_DIMMER_BUFFER_SIZE ->
  buffer_pos_ parser = 0 ->
  exists data' frame_len s' parser',
    frame_command_ data cmd payload len s = Some (data', frame_len, s')
    /\ seq_ s' = u8 (seq_ s + 1)
    /\ feed (take (Z.to_nat frame_len) data') parser
       = Some (replicate (Z.to_nat frame_len - 1) 1 ++ [0], parser')
    /\ rd (buffer_ parser') 1 = Some (seq_ s')
    /\ rd (buffer_ parser') 2 = Some cmd
    /\ rd (buffer_ parser') 3 = Some len
    /\ take (Z.to_nat len) (drop 4 (buffer_ parser')) = payload_bytes payload.
Proof.
  intros Hcmd Hlen H72 Hdata Hsz Hpos.
  unfold SHELLY_DIMMER_PROTO_MAX_FRAME_SIZE in *.
  destruct (frame_command__frame data cmd payload len s) as (data' & E & Hl & Hw);
    [done | lia | lia |].
  destruct (feed_wire_frame (u8 (seq_ s + 1)) (u8 cmd) (payload_bytes payload))
    with (s := parser) as (parser' & Ef & Hp & Hb & _); [lia | lia | done | done |].
  exists data', (4 + len + 3), (set_seq_ (u8 (seq_ s + 1)) s), parser'.
  assert (Hu : u8 cmd = cmd) by (unfold u8; apply Z.mod_small; lia).
  rewrite Hu in *.
  split; [done |]. split; [done |].
  split.
  { rewrite Hw, Ef.
    by replace (Z.to_nat (4 + len + 3) - 1)%nat
      with (6 + length (payload_bytes payload))%nat by lia. }
  rewrite Hb. unfold wire_frame. simpl. rewrite <- Hlen.
  split_and!; try done.
  rewrite <- app_assoc. apply take_app_length'. lia.
Qed.

(** The header bytes of a frame are accepted as they come. *)
Lemma read_byte__start s :
  buffer_pos_ s = 0 -> (0 < length (buffer_ s))%nat ->
  read_byte_ SHELLY_DIMMER_PROTO_START_BYTE s
  = Some (1, set_buffer_pos_ 1
               (set_buffer_ (<[0%nat := SHELLY_DIMMER_PROTO_START_BYTE]> (buffer_ s)) s)).
Proof.
  intros Hpos Hsz. unfold read_byte_. rewrite Hpos, wr_defined by lia. simpl.
  unfold handle_byte_. simpl. rewrite Hpos. done.
Qed.

Lemma read_byte__header c s :
  1 <= buffer_pos_ s < 4 -> buffer_pos_ s < Z.of_nat (length (buffer_ s)) ->
  read_byte_ c s
  = Some (1, set_buffer_pos_ (buffer_pos_ s + 1)
               (set_buffer_ (<[Z.to_nat (buffer_pos_ s) := c]> (buffer_ s)) s)).
Proof.
  intros Hpos Hsz. unfold read_byte_. rewrite wr_defined by lia. simpl.
  unfold handle_byte_. simpl.
  destruct (Z.eqb_spec (buffer_pos_ s) 0); [lia |].
  destruct (Z.ltb_spec (buffer_pos_ s) 4); [| lia]. simpl.
  do 3 f_equal. unfold u8. apply Z.mod_small. lia.
Qed.

(** Past the header, a length byte that does not fit the buffer fails every
    byte. *)
Lemma handle_byte__oversized s c len :
  4 <= buffer_pos_ s -> rd (buffer_ s) 3 = Some len ->
  4 + len + 3 > SHELLY_DIMMER_BUFFER_SIZE ->
  handle_byte_ s c = Some (-1).
Proof.
  intros Hpos Hlen Hbig. unfold handle_byte_.
  destruct (Z.eqb_spec (buffer_pos_ s) 0); [lia |].
  destruct (Z.ltb_spec (buffer_pos_ s) 4); [lia |].
  rewrite Hlen. simpl. rewrite Z.gtb_ltb.
  by destruct (Z.ltb_spec SHELLY_DIMMER_BUFFER_SIZE (4 + len + 3)); [| lia].
Qed.

(** C3: a declared payload length whose frame size 4 + len + 3 exceeds the
    buffer capacity never completes: the four header bytes are accepted and
    the very next byte is answered with the failure code and the cursor back
    at 0, before any further payload is consumed; and in any state past the
    header with such a length byte stored, [handle_byte_] fails. *)
Theorem oversized_frame_rejected (s : ShellyDimmer) (seq cmd len c : Z) :
  Z.of_nat (length (buffer_ s)) = SHELLY_DIMMER_BUFFER_SIZE ->
  buffer_pos_ s = 0 ->
  4 + len + 3 > SHELLY_DIMMER_BUFFER_SIZE ->
  (exists s', feed [SHELLY_DIMMER_PROTO_START_BYTE; seq; cmd; len; c] s
              = Some ([1; 1; 1; 1; -1], s')
              /\ buffer_pos_ s' = 0)
  /\ (forall s1 c1, 4 <= buffer_pos_ s1 -> rd (buffer_ s1) 3 = Some len ->
                    handle_byte_ s1 c1 = Some (-1)).
Proof.
  intros Hsz Hpos Hbig. unfold SHELLY_DIMMER_PROTO_MAX_FRAME_SIZE in buffer_fits.
  split; [| intros s1 c1 H4 H3; by apply handle_byte__oversized with len].
  cbn [feed].
  rewrite read_byte__start by (done || lia). cbn [mbind option_bind].
  rewrite read_byte__header by (simpl; rewrite ?length_insert; lia).
  cbn [mbind option_bind buffer_pos_ buffer_ set_buffer_pos_ set_buffer_].
  rewrite read_byte__header by (simpl; rewrite ?length_insert; lia).
  cbn [mbind option_bind buffer_pos_ buffer_ set_buffer_pos_ set_buffer_].
  rewrite read_byte__header by (simpl; rewrite ?length_insert; lia).
  cbn [mbind option_bind buffer_pos_ buffer_ set_buffer_pos_ set_buffer_].
  change (1 + 1 + 1 + 1) with 4. change (Z.to_nat (1 + 1 + 1)) with 3%nat.
  unfold read_byte_ at 1.
  cbn [mbind option_bind buffer_pos_ buffer_ set_buffer_pos_ set_buffer_].
  rewrite wr_defined by (rewrite ?length_insert; lia).
  cbn [mbind option_bind buffer_pos_ buffer_ set_buffer_pos_ set_buffer_].
  erewrite handle_byte__oversized with (len := len); [| simpl; lia | | lia].
  2:{ simpl. rewrite rd_wr_other by lia. change 3 with (Z.of_nat 3).
      rewrite rd_lookup. apply list_lookup_insert_eq. rewrite !length_insert. lia. }
  simpl. eexists. split; done.
Qed.

(** C4: the cursor is back at 0 after every byte answered with the complete
    or the failure code; and after bytes whose last one failed, whatever
    garbage came before, a well-formed frame asks for more data at every
    byte but the last and completes on the last. *)
Theorem parser_resynchronises :
  (forall c s r s', read_byte_ c s = Some (r, s') -> r = 0 \/ r = -1 -> buffer_pos_ s' = 0)
  /\ (forall (garbage : list Z) s codes s1 seq cmd (p : list Z),
        Z.of_nat (length (buffer_ s)) = SHELLY_DIMMER_BUFFER_SIZE ->
        feed garbage s = Some (codes, s1) ->
        last codes = Some (-1) ->
        (length p <= 72)%nat ->
        exists s2, feed (wire_frame seq cmd p) s1
                   = Some (replicate (6 + length p) 1 ++ [0], s2)
                   /\ buffer_pos_ s2 = 0).
Proof.
  unfold SHELLY_DIMMER_PROTO_MAX_FRAME_SIZE in buffer_fits.
  split.
  - intros c s r s' H. by apply read_byte__inv in H as [_ H].
  - intros garbage s codes s1 seq cmd p Hsz Hfeed Hlast Hp.
    apply feed_inv in Hfeed as [Hl Hpos].
    destruct (feed_wire_frame seq cmd p) with (s := s1) as (s2 & E & Hp2 & _);
      [lia | lia | lia | auto |].
    by exists s2.
Qed.

(** ** Response dispatcher *)

Lemma scale_reading_zero factor : scale_reading factor 0 = fzero.
Proof. done. Qed.

(** C8: when a poll report is dispatched, each of power, voltage and current
    whose raw little-endian 32-bit reading is 0 is published as the value 0;
    the division is only performed for a raw reading above 0. *)
Theorem zero_reading_decodes_to_zero (s s' : ShellyDimmer) :
  handle_frame_ s = Some (true, s') ->
  rd (buffer_ s) 2 = Some SHELLY_DIMMER_PROTO_CMD_POLL ->
  (raw_reading s 4 = Some 0 -> power_sensor_ s' = publish_state fzero (power_sensor_ s))
  /\ (raw_reading s 8 = Some 0 -> voltage_sensor_ s' = publish_state fzero (voltage_sensor_ s))
  /\ (raw_reading s 12 = Some 0 -> current_sensor_ s' = publish_state fzero (current_sensor_ s))
  /\ (forall factor raw, scale_reading factor raw
        = if raw >? 0 then fdiv factor (float_of_Z raw) else fzero).
Proof.
  intros H Hcmd. unfold handle_frame_ in H. rewrite Hcmd in H.
  destruct (rd (buffer_ s) 1) as [seq |]; [| done].
  destruct (rd (buffer_ s) 3) as [len |]; [| done].
  cbn [mbind option_bind] in H.
  destruct (negb (seq =? seq_ s)); [done |].
  change (SHELLY_DIMMER_PROTO_CMD_POLL =? SHELLY_DIMMER_PROTO_CMD_POLL) with true in H.
  cbv iota in H.
  destruct (len <? 16); [done |].
  unfold raw_reading.
  repeat match goal with
         | |- context [rd _ (4 + (?a + ?b))] =>
             let v := eval compute in (a + b) in change (a + b) with v
         end.
  repeat match type of H with
         | context [rd ?b ?i] => destruct (rd b i); cbn [mbind option_bind] in H; [| done]
         end.
  injection H as <-. cbn [mbind option_bind].
  split_and!; [intros [= ->] .. |]; done.
Qed.

(** ** Command transceiver *)

Ltac kept_done := unfold kept; simpl; repeat split; done.

Lemma kept_refl s : kept s s.
Proof. kept_done. Qed.

Lemma kept_trans s1 s2 s3 : kept s1 s2 -> kept s2 s3 -> kept s1 s3.
Proof. unfold kept. intros. destruct_and!. repeat split; congruence. Qed.

Lemma quiet_kept s s' : quiet s s' -> kept s s'.
Proof. unfold quiet, kept. intros. destruct_and!. repeat split; congruence. Qed.

Lemma stable_refl s : stable s s.
Proof. unfold stable. repeat split; done. Qed.

Lemma stable_trans s1 s2 s3 : stable s1 s2 -> stable s2 s3 -> stable s1 s3.
Proof. unfold stable. intros. destruct_and!. repeat split; congruence. Qed.

Lemma kept_stable s s' : kept s s' -> stable s s'.
Proof. unfold kept, stable. intros. destruct_and!. repeat split; congruence. Qed.

Lemma delay_frame (n : nat) : forall e,
  tx (delay n e) = tx e /\ nrst (delay n e) = nrst e /\ boot0 (delay n e) = boot0 e.
Proof.
  induction n as [| n IH]; intros e; simpl; [done |].
  destruct (IH (tick e)) as (-> & -> & ->). done.
Qed.

Lemma parser_ok_env e s : parser_ok (set_env e s) <-> parser_ok s.
Proof. done. Qed.

(** Draining the UART: the parser stays inside its buffer; only received
    bytes are consumed. *)
Lemma read_frame_loop_ok (avail : list Z) : forall s,
  parser_ok s ->
  exists got s' q, read_frame_loop avail s = Some (got, s')
    /\ parser_ok s' /\ kept s s'
    /\ env s' = set_rx q (env s).
Proof.
  induction avail as [| c rest IH]; intros s Hok; simpl.
  - eexists _, _, _. split; [done |]. split_and!; try done; kept_done.
  - destruct (read_byte__ok (u8 c) s Hok) as (r & s1 & E & Hok1 & Hq & Hr & _).
    rewrite E. simpl.
    destruct (Z.eqb_spec r 0).
    + eexists _, _, _. split; [done |]. split_and!; try done.
      * apply quiet_kept in Hq. unfold kept in *. simpl. destruct_and!.
        repeat split; congruence.
      * simpl. f_equal. by destruct Hq as (_ & _ & _ & _ & _ & _ & _ & ->).
    + destruct (IH s1 Hok1) as (got & s' & q & E' & Hok' & Hk & He).
      exists got, s', q. split; [done |]. split_and!; try done.
      * eapply kept_trans; [by apply quiet_kept | done].
      * rewrite He. by destruct Hq as (_ & _ & _ & _ & _ & _ & _ & ->).
Qed.

Lemma read_frame__ok s :
  parser_ok s ->
  exists got s' q, read_frame_ s = Some (got, s')
    /\ parser_ok s' /\ kept s s'
    /\ env s' = set_rx q (env s).
Proof. apply read_frame_loop_ok. Qed.

Lemma elapsed_next m t :
  u32 (m - t) < SHELLY_DIMMER_ACK_TIMEOUT -> u32 (u32 (m + 1) - t) = u32 (m - t) + 1.
Proof.
  unfold u32, SHELLY_DIMMER_ACK_TIMEOUT. intros H.
  rewrite Zminus_mod_idemp_l.
  replace (m + 1 - t) with ((m - t) + 1) by lia.
  rewrite <- Zplus_mod_idemp_l. apply Z.mod_small.
  pose proof (Z.mod_pos_bound (m - t) 4294967296). lia.
Qed.

(** The window of one attempt closes: with the clock advancing by one per
    round, fuel above the time left is never used up. *)
Lemma wait_ack_ok (fuel : nat) : forall tx_time s,
  parser_ok s ->
  u32 (millis (env s) - tx_time) <= SHELLY_DIMMER_ACK_TIMEOUT ->
  SHELLY_DIMMER_ACK_TIMEOUT - u32 (millis (env s) - tx_time) < Z.of_nat fuel ->
  exists got s', wait_ack fuel tx_time s = Some (got, s')
    /\ parser_ok s' /\ kept s s'.
Proof.
  induction fuel as [| fuel IH]; intros tx_time s Hok Hin200 Hfuel; [lia |].
  simpl.
  destruct (Z.ltb_spec (u32 (millis (env s) - tx_time)) SHELLY_DIMMER_ACK_TIMEOUT)
    as [Hin | Hout].
  - destruct (read_frame__ok s Hok) as (got & s1 & q & E & Hok1 & Hk1 & He1).
    rewrite E. simpl. destruct got.
    + eexists _, _. split; [done |]. done.
    + destruct (IH tx_time (set_env (delay 1 (env s1)) s1)) as (got' & s' & E' & Hok' & Hk').
      * done.
      * simpl. rewrite He1. simpl. rewrite elapsed_next by done. lia.
      * simpl. rewrite He1. simpl. rewrite elapsed_next by done. lia.
      * exists got', s'. split; [done |]. split; [done |].
        eapply kept_trans; [exact Hk1 |].
        eapply kept_trans; [| exact Hk'].
        unfold kept. simpl. repeat split; done.
  - eexists _, _. split; [done |]. split; [done | apply kept_refl].
Qed.

(** The retry loop transmits the frame between once and [retries] times and
    nothing else. *)
Lemma send_attempts_ok (retries : nat) (frame : list Z) : forall s,
  parser_ok s ->
  exists got s' (k : nat), send_attempts retries frame s = Some (got, s')
    /\ parser_ok s'
    /\ tx (env s') = tx (env s) ++ replicate k frame
    /\ (k <= retries)%nat /\ (0 < retries -> 0 < k)%nat
    /\ seq_ s' = seq_ s /\ stable s s'.
Proof.
  induction retries as [| n IH]; intros s Hok.
  { exists false, s, 0%nat. split; [done |]. simpl. rewrite app_nil_r.
    split_and!; try done; try lia. }
  cbn [send_attempts].
  destruct (wait_ack_ok (S (Z.to_nat SHELLY_DIMMER_ACK_TIMEOUT))
              (millis (env (set_env (write_array frame (env s)) s)))
              (set_env (write_array frame (env s)) s)) as (got & s1 & E & Hok1 & Hk1).
  { done. }
  { rewrite Z.sub_diag. done. }
  { rewrite Z.sub_diag. done. }
  rewrite E. cbn [mbind option_bind].
  assert (Htx1 : tx (env s1) = tx (env s) ++ [frame])
    by (destruct Hk1 as (_ & _ & _ & _ & _ & _ & _ & -> & _); done).
  assert (Hst1 : stable s s1).
  { apply kept_stable in Hk1. unfold stable in *. simpl in *. done. }
  assert (Hseq1 : seq_ s1 = seq_ s) by (by destruct Hk1 as (_ & -> & _)).
  destruct got.
  - exists true, s1, 1%nat. split; [done |]. split_and!; try done; lia.
  - destruct (IH s1 Hok1) as (got' & s' & k & E' & Hok' & Htx' & Hk & Hpos & Hseq' & Hst').
    exists got', s', (S k). split; [done |].
    split_and!; [done | | lia | lia | congruence | by eapply stable_trans].
    rewrite Htx', Htx1, <- app_assoc. done.
Qed.

(** Every call of [send_command_] with a proper payload returns, having
    bumped the sequence counter once and transmitted one and the same frame
    between one and three times. *)
Lemma send_command__ok cmd payload len s :
  parser_ok s ->
  len = Z.of_nat (length (payload_bytes payload)) -> len <= 72 ->
  exists got s' (k : nat), send_command_ cmd payload len s = Some (got, s')
    /\ parser_ok s'
    /\ seq_ s' = u8 (seq_ s + 1)
    /\ tx (env s') = tx (env s)
         ++ replicate k (wire_frame (u8 (seq_ s + 1)) (u8 cmd) (payload_bytes payload))
    /\ (1 <= k <= 3)%nat
    /\ stable s s'.
Proof.
  intros Hok Hlen H72. unfold send_command_.
  assert (Hu : u8 len = len) by (unfold u8; apply Z.mod_small; lia).
  rewrite Hu.
  destruct (frame_command__frame
              (replicate (Z.to_nat SHELLY_DIMMER_PROTO_MAX_FRAME_SIZE) 0) cmd payload len s)
    as (data' & E & _ & Hw); [done | lia | |].
  { rewrite length_replicate. unfold SHELLY_DIMMER_PROTO_MAX_FRAME_SIZE. lia. }
  rewrite E. cbn [mbind option_bind]. rewrite Hw.
  destruct (send_attempts_ok (Z.to_nat SHELLY_DIMMER_MAX_RETRIES)
              (wire_frame (u8 (seq_ s + 1)) (u8 cmd) (payload_bytes payload))
              (set_seq_ (u8 (seq_ s + 1)) s))
    as (got & s' & k & E' & Hok' & Htx & Hk & Hpos & Hseq & Hst); [done |].
  exists got, s', k. split; [done |].
  unfold SHELLY_DIMMER_MAX_RETRIES in *. simpl in Hk, Hpos.
  split_and!; try done; lia.
Qed.


Lemma silent_tick e : silent e -> silent (tick e).
Proof.
  intros [Hrx Hin]. unfold silent, tick. simpl. rewrite Hrx.
  destruct (incoming e) as [| a rest]; simpl; [done |].
  apply Forall_cons in Hin as [-> Hrest]. done.
Qed.

Lemma silent_delay (n : nat) : forall e, silent e -> silent (delay n e).
Proof. induction n as [| n IH]; intros e He; simpl; [done |]. by apply IH, silent_tick. Qed.

Lemma read_frame__silent s : silent (env s) -> read_frame_ s = Some (false, s).
Proof.
  intros [Hrx _]. unfold read_frame_. rewrite Hrx. simpl.
  destruct s as [? ? ? ? ? ? ? ? ? ? ? ? ? ? [? ? ? ? ? ?]]. simpl in *. by subst.
Qed.

(** With a silent peer the window runs to its end and the attempt fails,
    leaving everything but the environment as it was. *)
Lemma wait_ack_silent (fuel : nat) : forall tx_time s,
  silent (env s) ->
  u32 (millis (env s) - tx_time) <= SHELLY_DIMMER_ACK_TIMEOUT ->
  SHELLY_DIMMER_ACK_TIMEOUT - u32 (millis (env s) - tx_time) < Z.of_nat fuel ->
  exists e, wait_ack fuel tx_time s = Some (false, set_env e s)
    /\ silent e /\ tx e = tx (env s).
Proof.
  induction fuel as [| fuel IH]; intros tx_time s Hs Hin200 Hfuel; [lia |].
  simpl.
  destruct (Z.ltb_spec (u32 (millis (env s) - tx_time)) SHELLY_DIMMER_ACK_TIMEOUT)
    as [Hin | Hout].
  - rewrite read_frame__silent by done. simpl.
    destruct (IH tx_time (set_env (tick (env s)) s)) as (e & E & He & Htx).
    + simpl. by apply silent_tick.
    + simpl. rewrite elapsed_next by done. lia.
    + simpl. rewrite elapsed_next by done. lia.
    + exists e. rewrite E. done.
  - exists (env s). split; [| done].
    destruct s as [? ? ? ? ? ? ? ? ? ? ? ? ? ? [? ? ? ? ? ?]]. done.
Qed.

Lemma send_attempts_silent (retries : nat) (frame : list Z) : forall s,
  silent (env s) ->
  exists e, send_attempts retries frame s = Some (false, set_env e s)
    /\ silent e /\ tx e = tx (env s) ++ replicate retries frame.
Proof.
  induction retries as [| n IH]; intros s Hs.
  { exists (env s). simpl. rewrite app_nil_r. split; [| done].
    destruct s as [? ? ? ? ? ? ? ? ? ? ? ? ? ? [? ? ? ? ? ?]]. done. }
  cbn [send_attempts].
  destruct (wait_ack_silent (S (Z.to_nat SHELLY_DIMMER_ACK_TIMEOUT))
              (millis (env (set_env (write_array frame (env s)) s)))
              (set_env (write_array frame (env s)) s)) as (e1 & E & He1 & Htx1).
  { done. }
  { rewrite Z.sub_diag. done. }
  { rewrite Z.sub_diag. done. }
  rewrite E. cbn [mbind option_bind].
  destruct (IH (set_env e1 (set_env (write_array frame (env s)) s))) as (e2 & E2 & He2 & Htx2);
    [done |].
  exists e2. rewrite E2. split; [done |]. split; [done |].
  rewrite Htx2. simpl. rewrite Htx1. simpl. by rewrite <- app_assoc.
Qed.

(** C6: when the transport never makes a byte available, [send_command_]
    transmits the same encoded frame exactly three times, under the one
    sequence number taken at the start, and returns failure. *)
Theorem silent_peer_three_transmissions (cmd : Z) (payload : option (list Z)) (len : Z)
    (s : ShellyDimmer) :
  silent (env s) ->
  len = Z.of_nat (length (payload_bytes payload)) ->
  len <= 72 ->
  exists s', send_command_ cmd payload len s = Some (false, s')
    /\ seq_ s' = u8 (seq_ s + 1)
    /\ tx (env s') = tx (env s)
         ++ replicate 3 (wire_frame (u8 (seq_ s + 1)) (u8 cmd) (payload_bytes payload)).
Proof.
  intros Hs Hlen H72. unfold send_command_.
  assert (Hu : u8 len = len) by (unfold u8; apply Z.mod_small; lia).
  rewrite Hu.
  destruct (frame_command__frame
              (replicate (Z.to_nat SHELLY_DIMMER_PROTO_MAX_FRAME_SIZE) 0) cmd payload len s)
    as (data' & E & _ & Hw); [done | lia | |].
  { rewrite length_replicate. unfold SHELLY_DIMMER_PROTO_MAX_FRAME_SIZE. lia. }
  rewrite E. cbn [mbind option_bind]. rewrite Hw.
  destruct (send_attempts_silent (Z.to_nat SHELLY_DIMMER_MAX_RETRIES)
              (wire_frame (u8 (seq_ s + 1)) (u8 cmd) (payload_bytes payload))
              (set_seq_ (u8 (seq_ s + 1)) s)) as (e & E' & He & Htx); [done |].
  eexists. split; [exact E' |]. split; [done |]. exact Htx.
Qed.


Lemma convert_brightness__range s x b :
  convert_brightness_ s x = Some b -> 0 <= b <= SHELLY_DIMMER_MAX_BRIGHTNESS.
Proof.
  unfold convert_brightness_, SHELLY_DIMMER_MAX_BRIGHTNESS.
  destruct (float_is_zero x); [intros [= <-]; lia |].
  destruct (float_to_u16 _) as [t |]; simpl; [| done].
  intros [= <-]. pose proof (Z.mod_pos_bound (t + min_brightness_ (config s)) 65536).
  unfold u16. lia.
Qed.

Lemma switch_payload_brightness b :
  0 <= b < 65536 -> payload_brightness (switch_payload b) = Some b.
Proof.
  intros Hb. unfold payload_brightness, switch_payload. simpl. f_equal.
  assert (Hlo : u8 (Z.land b 255) = Z.land b 255).
  { unfold u8. apply Z.mod_small. change 255 with (Z.ones 8).
    rewrite Z.land_ones by lia. apply Z.mod_pos_bound. lia. }
  assert (Hhi : u8 (Z.shiftr b 8) = Z.shiftr b 8).
  { unfold u8. apply Z.mod_small. rewrite Z.shiftr_div_pow2 by lia.
    change (2 ^ 8) with 256. split; [apply Z.div_pos; lia |].
    apply Z.div_lt_upper_bound; lia. }
  rewrite Hlo, Hhi. apply split_hi_lo. lia.
Qed.

(** [send_brightness_] sends one switch command and records the value. *)
Lemma send_brightness__ok b s :
  parser_ok s ->
  exists s1 (k : nat), send_brightness_ b s = Some (set_brightness_ b s1)
    /\ parser_ok s1
    /\ seq_ s1 = u8 (seq_ s + 1)
    /\ tx (env s1) = tx (env s)
         ++ replicate k (wire_frame (u8 (seq_ s + 1)) SHELLY_DIMMER_PROTO_CMD_SWITCH
                           (switch_payload b))
    /\ (1 <= k <= 3)%nat
    /\ stable s s1.
Proof.
  intros Hok. unfold send_brightness_.
  destruct (send_command__ok SHELLY_DIMMER_PROTO_CMD_SWITCH (Some (switch_payload b))
              SHELLY_DIMMER_PROTO_CMD_SWITCH_SIZE s)
    as (got & s1 & k & E & Hok1 & Hseq & Htx & Hk & Hst); [done | done | done |].
  unfold switch_payload in E. rewrite E. simpl. by exists s1, k.
Qed.

(** [send_settings_] sends the settings command and then the switch
    command, and records the brightness. *)
Lemma send_settings__ok (s : ShellyDimmer) (b : Z) :
  parser_ok s ->
  convert_brightness_ s (light_brightness s) = Some b ->
  exists s2 (k1 k2 : nat),
    send_settings_ s = Some (set_brightness_ b s2)
    /\ parser_ok s2 /\ stable s s2
    /\ tx (env s2) = tx (env s)
         ++ replicate k1 (wire_frame (u8 (seq_ s + 1)) SHELLY_DIMMER_PROTO_CMD_SETTINGS
                            (settings_payload s b (Z.min 100 (fade_rate_ (config s)))))
         ++ replicate k2 (wire_frame (u8 (u8 (seq_ s + 1) + 1)) SHELLY_DIMMER_PROTO_CMD_SWITCH
                            (switch_payload b))
    /\ (1 <= k1 <= 3)%nat /\ (1 <= k2 <= 3)%nat.
Proof.
  intros Hok Hconv.
  unfold send_settings_. fold (light_brightness s). rewrite Hconv. cbn [mbind option_bind].
  destruct (send_command__ok SHELLY_DIMMER_PROTO_CMD_SETTINGS
              (Some (settings_payload s b (Z.min 100 (fade_rate_ (config s)))))
              SHELLY_DIMMER_PROTO_CMD_SETTINGS_SIZE s)
    as (got & s1 & k1 & E1 & Hok1 & Hseq1 & Htx1 & Hk1 & Hst1); [done | done | done |].
  rewrite E1. cbn [mbind option_bind].
  destruct (send_brightness__ok b s1 Hok1) as (s2 & k2 & E2 & Hok2 & Hseq2 & Htx2 & Hk2 & Hst2).
  rewrite E2. exists s2, k1, k2.
  split; [done |]. split_and!; try done; try lia.
  - by eapply stable_trans.
  - rewrite Htx2, Htx1, Hseq1, <- app_assoc. done.
Qed.

(** C7: every call of [send_settings_] (for a brightness that converts)
    transmits two commands and no more: the settings command, then the
    switch command under the next sequence number, each sent between one and
    three times; the first two payload bytes of both carry the same
    brightness, the converted brightness of the light. *)
Theorem settings_then_switch (s : ShellyDimmer) (b : Z) :
  parser_ok s ->
  convert_brightness_ s (light_brightness s) = Some b ->
  exists s' (k1 k2 : nat),
    let settings := settings_payload s b (Z.min 100 (fade_rate_ (config s))) in
    let seq1 := u8 (seq_ s + 1) in
    let seq2 := u8 (seq1 + 1) in
    send_settings_ s = Some s'
    /\ tx (env s') = tx (env s)
         ++ replicate k1 (wire_frame seq1 SHELLY_DIMMER_PROTO_CMD_SETTINGS settings)
         ++ replicate k2 (wire_frame seq2 SHELLY_DIMMER_PROTO_CMD_SWITCH (switch_payload b))
    /\ (1 <= k1 <= 3)%nat /\ (1 <= k2 <= 3)%nat
    /\ payload_brightness settings = Some b
    /\ payload_brightness (switch_payload b) = Some b
    /\ brightness_ s' = b.
Proof.
  intros Hok Hconv. pose proof (convert_brightness__range _ _ _ Hconv) as Hb.
  unfold SHELLY_DIMMER_MAX_BRIGHTNESS in Hb.
  destruct (send_settings__ok s b Hok Hconv) as (s2 & k1 & k2 & E & _ & _ & Htx & Hk1 & Hk2).
  exists (set_brightness_ b s2), k1, k2. cbn zeta.
  split; [done |]. split_and!; try done; try lia.
  - apply (switch_payload_brightness b). lia.
  - apply switch_payload_brightness. lia.
Qed.

(** C10: [write_state] returns the object as it was when the readiness flag
    is not set, and also when the converted brightness equals the last-sent
    one; on a ready device a different brightness sends a switch command
    with it and records it. *)
Theorem write_state_gated (brightness : float) (s : ShellyDimmer) :
  (ready_ s = false -> write_state brightness s = Some s)
  /\ (convert_brightness_ s brightness = Some (brightness_ s) ->
      write_state brightness s = Some s)
  /\ (forall b, parser_ok s -> ready_ s = true ->
        convert_brightness_ s brightness = Some b ->
        b <> brightness_ s ->
        exists s' (k : nat), write_state brightness s = Some s'
          /\ tx (env s') = tx (env s)
               ++ replicate k (wire_frame (u8 (seq_ s + 1)) SHELLY_DIMMER_PROTO_CMD_SWITCH
                                 (switch_payload b))
          /\ (1 <= k <= 3)%nat
          /\ brightness_ s' = b).
Proof.
  unfold write_state. split_and!.
  - by intros ->.
  - intros ->. simpl. rewrite Z.eqb_refl. by destruct (ready_ s).
  - intros b Hok -> -> Hne. simpl.
    destruct (Z.eqb_spec b (brightness_ s)); [done |].
    destruct (send_brightness__ok b s Hok) as (s1 & k & E & _ & _ & Htx & Hk & _).
    rewrite E. by exists (set_brightness_ b s1), k.
Qed.


(** ** Upgrade orchestrator *)

Lemma version_gate_step (k : nat) (i : Z) (s : ShellyDimmer) :
  version_gate (S k) i s
  = if i <? 2 then
      '(mismatch, s1) ← check_version s;
      if (mismatch : bool) then
        if i >? 0 then Some (false, mark_failed s1)
        else
          '(ok, s2) ← upgrade_firmware_ s1;
          if negb (ok : bool) then Some (false, mark_failed s2)
          else version_gate k (i + 1) s2
      else Some (true, s1)
    else Some (true, s).
Proof.
  cbn [version_gate]. unfold check_version, version_mismatch.
  destruct (i <? 2); [| done].
  destruct (send_command_ _ _ _ _) as [[got s1] |]; done.
Qed.

Lemma memcpy_chunk (buffer src : list Z) :
  length buffer = 256%nat -> (256 <= length src)%nat ->
  memcpy buffer 0 src 256 = Some (take 256 src).
Proof.
  intros Hb Hs. unfold memcpy.
  destruct (Z.leb_spec 0 256); [| lia].
  destruct (Z.leb_spec 256 (Z.of_nat (length src))); [| lia].
  destruct (Z.leb_spec (0 + 256) (Z.of_nat (length buffer))); [| lia].
  cbn [andb]. change (Z.to_nat 0) with 0%nat. change (Z.to_nat (0 + 256)) with 256%nat.
  change (Z.to_nat 256) with 256%nat.
  rewrite take_0, (drop_ge buffer 256) by lia. by rewrite app_nil_r.
Qed.

Lemma memcpy_short (buffer src : list Z) :
  (length src < 256)%nat -> memcpy buffer 0 src 256 = None.
Proof.
  intros Hs. unfold memcpy.
  destruct (Z.leb_spec 256 (Z.of_nat (length src))); [lia |].
  by rewrite andb_false_r.
Qed.

(** The copy loop ends for an image of whole chunks: each round reads 256
    bytes that the image has and writes at least one byte. *)
Lemma write_chunks_total (fuel : nat) stm32 end_ fw_len : forall buffer p offset addr e,
  0 <= offset <= fw_len -> fw_len < 4294967296 ->
  0 <= end_ < 4294967296 ->
  fw_len <= Z.of_nat (length STM_FIRMWARE) -> (256 | fw_len) ->
  length buffer = 256%nat ->
  ((addr <? end_) && (offset <? fw_len) = true -> p = offset /\ (256 | offset)) ->
  fw_len - offset < Z.of_nat fuel ->
  is_Some (write_chunks fuel stm32 buffer p offset addr end_ fw_len e).
Proof.
  induction fuel as [| fuel IH];
    intros buffer p offset addr e Hoff Hfw Hend Hn Hdiv Hbuf Hinv Hfuel; [lia |].
  cbn [write_chunks].
  destruct ((addr <? end_) && (offset <? fw_len)) eqn:Hcond; [| done].
  destruct (Hinv eq_refl) as (-> & Hdo).
  apply andb_true_iff in Hcond as [_ Hlt]. apply Z.ltb_lt in Hlt.
  assert (Hfull : offset + 256 <= fw_len).
  { destruct Hdiv as [b ->]. destruct Hdo as [a ->]. lia. }
  assert (Hrem : u32 (fw_len - offset) = fw_len - offset)
    by (unfold u32; apply Z.mod_small; lia).
  rewrite Hrem.
  set (left := u32 (end_ - addr)).
  assert (Hleft : 0 <= left) by (unfold left, u32; apply Z.mod_pos_bound; lia).
  set (len0 := if 256 >? left then left else 256).
  assert (Hlen0 : 0 <= len0 <= 256 /\ (len0 < 256 -> len0 = left)).
  { unfold len0. rewrite Z.gtb_ltb. destruct (Z.ltb_spec left 256); lia. }
  replace (if len0 >? fw_len - offset then fw_len - offset else len0) with len0
    by (rewrite Z.gtb_ltb; destruct (Z.ltb_spec (fw_len - offset) len0); lia).
  destruct (Z.eqb_spec len0 0) as [? | Hnz]; [done |].
  rewrite memcpy_chunk by (rewrite ?length_drop; lia). cbn [mbind option_bind].
  destruct (stm32_write_memory stm32 addr _ len0 e) as [ok e1].
  destruct ok; cbn [negb]; [| done].
  assert (Hoff' : u32 (offset + len0) = offset + len0)
    by (unfold u32; rewrite Z.mod_small; lia).
  rewrite Hoff'.
  apply IH; try done; try lia.
  - rewrite length_take, length_drop. lia.
  - intros Hc. apply andb_true_iff in Hc as [Ha _]. apply Z.ltb_lt in Ha.
    destruct (Z.eq_dec len0 256) as [E | E].
    + rewrite E. split; [done |]. destruct Hdo as [a ->]. exists (a + 1). lia.
    + exfalso. destruct Hlen0 as (Hr & Hl). rewrite (Hl ltac:(lia)) in Ha.
      unfold left, u32 in Ha. rewrite Zplus_mod_idemp_r in Ha.
      replace (addr + (end_ - addr)) with end_ in Ha by lia.
      rewrite Z.mod_small in Ha by lia. lia.
Qed.

(** Whatever [upgrade_firmware_] returns, it has counted itself and
    otherwise touched the environment only. *)
Lemma upgrade_firmware__inv s ok s' :
  upgrade_firmware_ s = Some (ok, s') ->
  exists e, s' = set_env e (set_upgrades_ (S (upgrades_ s)) s).
Proof.
  unfold upgrade_firmware_, reset_dfu_boot_, reset_. cbn [env set_env set_upgrades_].
  intros H.
  destruct (stm32_init _) as [[stm32 |] e0]; [| injection H as _ <-; by eexists].
  destruct (stm32_erase_memory stm32 e0) as [ok1 e1].
  destruct ok1; cbn [negb] in H; [| injection H as _ <-; by eexists].
  destruct (write_chunks _ _ _ _ _ _ _ _ _) as [[ok2 e2] |];
    cbn [mbind option_bind] in H; [| done].
  destruct ok2; cbn [negb] in H; injection H as _ <-; by eexists.
Qed.

(** [upgrade_firmware_] returns for an image of whole chunks. *)
Lemma upgrade_firmware__ok s :
  whole_chunks STM_FIRMWARE ->
  exists ok e, upgrade_firmware_ s = Some (ok, set_env e (set_upgrades_ (S (upgrades_ s)) s)).
Proof.
  intros Hw.
  assert (E : is_Some (upgrade_firmware_ s)).
  { unfold upgrade_firmware_.
    destruct (stm32_init _) as [[stm32 |] e0]; [| done].
    destruct (stm32_erase_memory stm32 e0) as [ok e1].
    destruct ok; cbn [negb]; [| done].
    edestruct (write_chunks_total (S (length STM_FIRMWARE)) stm32) as [[ok e2] E];
      [| | | | | | | | rewrite E].
    - split; [done |]. apply Z.mod_pos_bound. lia.
    - apply Z.mod_pos_bound. lia.
    - apply Z.mod_pos_bound. lia.
    - apply Z.mod_le; lia.
    - apply Z.mod_divide; [lia |]. unfold u32.
      rewrite Z.mod_mod_divide by (by exists 16777216).
      exact Hw.
    - apply length_replicate.
    - intros _. split; [done | by exists 0].
    - rewrite Z.sub_0_r. pose proof (Z.mod_le (Z.of_nat (length STM_FIRMWARE)) 4294967296).
      unfold u32. lia.
    - cbn [mbind option_bind]. by destruct ok. }
  destruct E as [[ok s'] E]. destruct (upgrade_firmware__inv _ _ _ E) as [e ->].
  by exists ok, e.
Qed.

Lemma check_version_ok s :
  parser_ok s ->
  exists mismatch s1, check_version s = Some (mismatch, s1)
    /\ parser_ok s1 /\ config s1 = config s /\ ready_ s1 = ready_ s
    /\ failed_ s1 = failed_ s /\ upgrades_ s1 = upgrades_ s.
Proof.
  intros Hok. unfold check_version.
  destruct (send_command__ok SHELLY_DIMMER_PROTO_CMD_VERSION None 0 (reset_normal_boot_ s))
    as (got & s1 & k & E & Hok1 & _ & _ & _ & Hst); [done | done | done |].
  rewrite E. cbn [mbind option_bind]. eexists _, _. split; [done |].
  destruct Hst as (? & ? & ? & ? & ? & _). done.
Qed.

(** The version gate runs the upgrade at most once, never sets the
    readiness flag, and marks the component failed whenever it makes
    [setup()] return early. *)
Lemma version_gate_ok s go g :
  parser_ok s ->
  version_gate 3 0 s = Some (go, g) ->
  parser_ok g /\ config g = config s /\ ready_ g = ready_ s
  /\ (upgrades_ g <= S (upgrades_ s))%nat
  /\ (go = false -> failed_ g = true).
Proof.
  intros Hok H.
  assert (P : match version_gate 3 0 s with
              | Some (go, g) =>
                  parser_ok g /\ config g = config s /\ ready_ g = ready_ s
                  /\ (upgrades_ g <= S (upgrades_ s))%nat
                  /\ (go = false -> failed_ g = true)
              | None => True
              end).
  { clear H. rewrite version_gate_step. change (0 <? 2) with true. cbv iota.
    destruct (check_version_ok s Hok) as (mm1 & s1 & E1 & Hok1 & Hc1 & Hr1 & _ & Hu1).
    rewrite E1. cbn [mbind option_bind].
    destruct mm1; [| split_and!; try done; lia].
    change (0 >? 0) with false. cbv iota.
    destruct (upgrade_firmware_ s1) as [[ok s2] |] eqn:E2; cbn [mbind option_bind];
      [| done].
    destruct (upgrade_firmware__inv _ _ _ E2) as [e ->].
    destruct ok; cbn [negb]; [| simpl; split_and!; try done; lia].
    rewrite version_gate_step. change (0 + 1 <? 2) with true. cbv iota.
    destruct (check_version_ok (set_env e (set_upgrades_ (S (upgrades_ s1)) s1)))
      as (mm2 & s3 & E3 & Hok3 & Hc3 & Hr3 & _ & Hu3); [done |].
    rewrite E3. cbn [mbind option_bind]. simpl in Hc3, Hr3, Hu3.
    destruct mm2.
    - change (0 + 1 >? 0) with true. cbv iota.
      simpl. split_and!; try done; try congruence. lia.
    - split_and!; try done; try congruence. lia. }
  rewrite H in P. exact P.
Qed.

(** The version gate returns for an image of whole chunks. *)
Lemma version_gate_returns s :
  whole_chunks STM_FIRMWARE -> parser_ok s -> is_Some (version_gate 3 0 s).
Proof.
  intros Hw Hok. rewrite version_gate_step. change (0 <? 2) with true. cbv iota.
  destruct (check_version_ok s Hok) as (mm1 & s1 & E1 & Hok1 & _).
  rewrite E1. cbn [mbind option_bind].
  destruct mm1; [| done].
  change (0 >? 0) with false. cbv iota.
  destruct (upgrade_firmware__ok s1 Hw) as (ok & e & E2). rewrite E2.
  cbn [mbind option_bind].
  destruct ok; cbn [negb]; [| done].
  rewrite version_gate_step. change (0 + 1 <? 2) with true. cbv iota.
  destruct (check_version_ok (set_env e (set_upgrades_ (S (upgrades_ s1)) s1)))
    as (mm2 & s3 & E3 & _); [done |].
  rewrite E3. cbn [mbind option_bind]. by destruct mm2.
Qed.

Lemma setup_gate_undefined s : version_gate 3 0 s = None -> setup s = None.
Proof. intros E. unfold setup. by rewrite E. Qed.


Lemma convert_brightness__config s s' x :
  config s' = config s -> convert_brightness_ s' x = convert_brightness_ s x.
Proof. intros H. unfold convert_brightness_. by rewrite H. Qed.

Lemma light_brightness_config s s' :
  config s' = config s -> light_brightness s' = light_brightness s.
Proof. intros H. unfold light_brightness. by rewrite H. Qed.

(** After the version gate, [setup()] sends the settings, polls once and
    sets the readiness flag, without another upgrade. *)
Lemma setup_tail_ok s b :
  parser_ok s ->
  convert_brightness_ s (light_brightness s) = Some b ->
  exists s2 got s3,
    send_settings_ (set_poll_interval_ true s) = Some s2
    /\ send_command_ SHELLY_DIMMER_PROTO_CMD_POLL None 0 s2 = Some (got, s3)
    /\ upgrades_ s3 = upgrades_ s.
Proof.
  intros Hok Hconv.
  destruct (send_settings__ok (set_poll_interval_ true s) b) as
    (s2 & k1 & k2 & E & Hok2 & Hst2 & _); [done | done |].
  destruct (send_command__ok SHELLY_DIMMER_PROTO_CMD_POLL None 0 (set_brightness_ b s2))
    as (got & s3 & k & E3 & _ & _ & _ & _ & Hst3); [done | done | done |].
  exists (set_brightness_ b s2), got, s3. split; [done |]. split; [done |].
  destruct Hst2 as (_ & _ & _ & _ & Hu2 & _). destruct Hst3 as (_ & _ & _ & _ & Hu3 & _).
  simpl in *. congruence.
Qed.


(** ** binary32 rounding *)

Lemma digits2_pos_bounds (m : positive) :
  2 ^ (Z.pos (digits2_pos m) - 1) <= Z.pos m < 2 ^ Z.pos (digits2_pos m).
Proof.
  induction m as [m IH | m IH |]; cbn [digits2_pos]; [| | done].
  - rewrite Pos2Z.inj_succ.
    replace (Z.succ (Z.pos (digits2_pos m)) - 1) with (Z.succ (Z.pos (digits2_pos m) - 1))
      by lia.
    rewrite !Z.pow_succ_r by lia. lia.
  - rewrite Pos2Z.inj_succ.
    replace (Z.succ (Z.pos (digits2_pos m)) - 1) with (Z.succ (Z.pos (digits2_pos m) - 1))
      by lia.
    rewrite !Z.pow_succ_r by lia. lia.
Qed.

Lemma shr_1_spec m r s :
  0 <= m ->
  m = 2 * shr_m (shr_1 (Build_shr_record m r s))
      + (if shr_r (shr_1 (Build_shr_record m r s)) then 1 else 0)
  /\ 0 <= shr_m (shr_1 (Build_shr_record m r s))
  /\ shr_s (shr_1 (Build_shr_record m r s)) = r || s.
Proof. intros Hm. destruct m as [| [p | p |] | p]; cbn; split_and!; try done; lia. Qed.

Lemma iter_pos_nat {A} (f : A -> A) (p : positive) : forall x,
  SpecFloat.iter_pos f p x = Nat.iter (Pos.to_nat p) f x.
Proof.
  induction p as [p IH | p IH |]; intros x; cbn [SpecFloat.iter_pos].
  - rewrite !IH, Pos2Nat.inj_xI, Nat.iter_succ_r.
    replace (2 * Pos.to_nat p)%nat with (Pos.to_nat p + Pos.to_nat p)%nat by lia.
    by rewrite Nat.iter_add.
  - rewrite !IH, Pos2Nat.inj_xO.
    replace (2 * Pos.to_nat p)%nat with (Pos.to_nat p + Pos.to_nat p)%nat by lia.
    by rewrite Nat.iter_add.
  - done.
Qed.

(** [k] right shifts split [M] into the quotient kept as mantissa and a
    remainder that the round and sticky bits witness. *)
Lemma shr_iter (k : nat) M :
  0 <= M ->
  exists rem,
    M = shr_m (Nat.iter k shr_1 (Build_shr_record M false false)) * 2 ^ Z.of_nat k + rem
    /\ 0 <= rem < 2 ^ Z.of_nat k
    /\ 0 <= shr_m (Nat.iter k shr_1 (Build_shr_record M false false))
    /\ (shr_r (Nat.iter k shr_1 (Build_shr_record M false false))
        || shr_s (Nat.iter k shr_1 (Build_shr_record M false false)) = true -> 0 < rem).
Proof.
  intros HM. induction k as [| k IH].
  - exists 0. cbn [Nat.iter nat_rect shr_m shr_r shr_s orb]. change (Z.of_nat 0) with 0.
    rewrite Z.pow_0_r. split_and!; try done; lia.
  - destruct IH as (rem & HMk & Hrem & Hm & Hrs).
    rewrite Nat.iter_succ.
    destruct (Nat.iter k shr_1 (Build_shr_record M false false)) as [m r s].
    cbn [shr_m shr_r shr_s] in *.
    destruct (shr_1_spec m r s Hm) as (Hsplit & Hm' & Hs').
    destruct (shr_1 (Build_shr_record m r s)) as [m' r' s'].
    cbn [shr_m shr_r shr_s] in *.
    rewrite Nat2Z.inj_succ, Z.pow_succ_r by lia.
    assert (0 < 2 ^ Z.of_nat k) by (apply Z.pow_pos_nonneg; lia).
    exists (rem + (if r' then 1 else 0) * 2 ^ Z.of_nat k).
    split_and!.
    + rewrite HMk, Hsplit. ring.
    + destruct r'; lia.
    + destruct r'; lia.
    + done.
    + subst s'. destruct r'; [lia |]. intros Hor. simpl in Hor.
      specialize (Hrs Hor). lia.
Qed.

Lemma shr_spec M e n mrs e' :
  0 <= M ->
  shr (Build_shr_record M false false) e n = (mrs, e') ->
  exists rem,
    e' = e + Z.max n 0
    /\ M = shr_m mrs * 2 ^ Z.max n 0 + rem
    /\ 0 <= rem < 2 ^ Z.max n 0
    /\ 0 <= shr_m mrs
    /\ (shr_r mrs || shr_s mrs = true -> 0 < rem).
Proof.
  intros HM H. destruct n as [| p | p]; cbn [shr] in H.
  - injection H as <- <-. exists 0. change (Z.max 0 0) with 0.
    rewrite Z.pow_0_r. cbn [shr_m shr_r shr_s orb]. split_and!; try done; lia.
  - injection H as <- <-. rewrite iter_pos_nat.
    destruct (shr_iter (Pos.to_nat p) M HM) as (rem & H1 & H2 & H3 & H4).
    rewrite positive_nat_Z in *.
    exists rem. replace (Z.max (Z.pos p) 0) with (Z.pos p) by lia. done.
  - injection H as <- <-. exists 0. change (Z.max (Z.neg p) 0) with 0.
    rewrite Z.pow_0_r. cbn [shr_m shr_r shr_s orb]. split_and!; try done; lia.
Qed.

Lemma round_nearest_even_spec mrs :
  round_nearest_even (shr_m mrs) (loc_of_shr_record mrs) = shr_m mrs
  \/ (round_nearest_even (shr_m mrs) (loc_of_shr_record mrs) = shr_m mrs + 1
      /\ shr_r mrs || shr_s mrs = true).
Proof.
  destruct mrs as [m [] []]; cbn; try (by left); try (by right).
  destruct (Z.even m); [by left | by right].
Qed.

Lemma Zdigits2_bound (K m e B : Z) :
  0 <= K -> 0 < m -> - K <= e -> 0 <= B < 65536 ->
  m * 2 ^ (e + K) <= B * 2 ^ K ->
  Zdigits2 m + e <= 16.
Proof.
  intros HK0 Hm HK HB Hle. destruct m as [| p | p]; [lia | | lia].
  cbn [Zdigits2]. pose proof (digits2_pos_bounds p) as [Hlo _].
  assert (0 < 2 ^ K) by (apply Z.pow_pos_nonneg; lia).
  assert (0 < 2 ^ (e + K)) by (apply Z.pow_pos_nonneg; lia).
  assert (Hlt : 2 ^ (Z.pos (digits2_pos p) - 1 + (e + K)) < 2 ^ (16 + K)).
  { rewrite (Z.pow_add_r 2 (Z.pos (digits2_pos p) - 1) (e + K)), (Z.pow_add_r 2 16 K) by lia.
    change (2 ^ 16) with 65536. nia. }
  apply Z.pow_lt_mono_r_iff in Hlt; lia.
Qed.

(** Rounding to nearest never carries a value past an integer bound below
    2^16: such an integer lies on the grid of every exponent the rounding
    can choose. *)
Lemma binary_round_aux_le (K : Z) (m : positive) (e B : Z) :
  0 <= K -> - K <= e -> 0 <= B < 65536 ->
  Z.pos m * 2 ^ (e + K) <= B * 2 ^ K ->
  float_le K (binary_round_aux prec32 emax32 false (Z.pos m) e loc_Exact) B.
Proof.
  intros HK0 HK HB Hle.
  assert (H2K : 0 < 2 ^ K) by (apply Z.pow_pos_nonneg; lia).
  pose proof (Zdigits2_bound K (Z.pos m) e B HK0 ltac:(lia) HK HB Hle) as Hdig.
  unfold binary_round_aux, shr_fexp. cbn [shr_record_of_loc].
  set (n1 := fexp prec32 emax32 (Zdigits2 (Z.pos m) + e) - e).
  assert (Hn1 : e + Z.max n1 0 <= 15 /\ (0 < n1 -> e + n1 <= -8)).
  { unfold n1, fexp, emin, prec32, emax32. cbn [Zdigits2] in *. lia. }
  destruct (shr (Build_shr_record (Z.pos m) false false) e n1) as [mrs1 e1] eqn:E1.
  apply shr_spec in E1 as (rem1 & -> & HM1 & Hrem1 & Hm1 & Hrs1); [| lia].
  set (m1 := round_nearest_even (shr_m mrs1) (loc_of_shr_record mrs1)).
  assert (Hpow1 : 0 < 2 ^ Z.max n1 0) by (apply Z.pow_pos_nonneg; lia).
  assert (Hm1' : 0 <= m1 /\ m1 * 2 ^ (e + Z.max n1 0 + K) <= B * 2 ^ K).
  { replace (e + Z.max n1 0 + K) with (Z.max n1 0 + (e + K)) by lia.
    rewrite Z.pow_add_r by lia.
    assert (HG : 0 < 2 ^ (e + K)) by (apply Z.pow_pos_nonneg; lia).
    destruct (round_nearest_even_spec mrs1) as [Hsame | [Hup Hrs]]; fold m1 in Hsame || fold m1 in Hup.
    - rewrite Hsame. split; [lia |]. nia.
    - specialize (Hrs1 Hrs). rewrite Hup. split; [lia |].
      assert (Hpos : 0 < n1).
      { destruct (Z.le_gt_cases n1 0) as [Hn0 | ?]; [| lia].
        replace (Z.max n1 0) with 0 in Hrem1 by lia.
        rewrite Z.pow_0_r in Hrem1. lia. }
      replace (Z.max n1 0) with n1 in * by lia.
      assert (HB2 : B * 2 ^ K = B * 2 ^ (- (e + n1)) * (2 ^ n1 * 2 ^ (e + K))).
      { rewrite <- !Z.mul_assoc. f_equal. rewrite <- !Z.pow_add_r by lia. f_equal. lia. }
      rewrite HB2.
      assert (0 < 2 ^ n1 * 2 ^ (e + K)) by lia.
      assert (shr_m mrs1 < B * 2 ^ (- (e + n1))).
      { apply Z.mul_lt_mono_pos_r with (2 ^ n1 * 2 ^ (e + K)); [done |].
        rewrite <- HB2. nia. }
      nia. }
  destruct Hm1' as [Hm1pos Hm1le].
  set (e1 := e + Z.max n1 0) in *.
  set (n2 := fexp prec32 emax32 (Zdigits2 m1 + e1) - e1).
  destruct (shr (Build_shr_record m1 false false) e1 n2) as [mrs2 e2] eqn:E2.
  apply shr_spec in E2 as (rem2 & -> & HM2 & Hrem2 & Hm2 & _); [| done].
  assert (Hpow2 : 0 < 2 ^ Z.max n2 0) by (apply Z.pow_pos_nonneg; lia).
  assert (He2 : e1 + Z.max n2 0 <= 15).
  { destruct (Z.max_spec n2 0) as [[? ->] | [? ->]]; [lia |].
    destruct (Z.eq_dec m1 0) as [-> | Hnz].
    - unfold n2, fexp, emin, prec32, emax32 in *. cbn [Zdigits2] in *. lia.
    - pose proof (Zdigits2_bound K m1 e1 B HK0 ltac:(lia) ltac:(lia) HB Hm1le).
      unfold n2, fexp, emin, prec32, emax32 in *. lia. }
  destruct (shr_m mrs2) as [| m2 | m2] eqn:Em2; [exact I | | lia].
  destruct (Z.leb_spec (e1 + Z.max n2 0) (emax32 - prec32)) as [_ | Hbad];
    [| unfold emax32, prec32 in Hbad; lia].
  split; [lia |].
  replace (e1 + Z.max n2 0 + K) with (Z.max n2 0 + (e1 + K)) by lia.
  rewrite Z.pow_add_r by lia.
  assert (0 < 2 ^ (e1 + K)) by (apply Z.pow_pos_nonneg; lia).
  nia.
Qed.



(** An integer below 2^16 converts to a float that is not above it. *)
Lemma float_of_Z_le d : 0 <= d < 65536 -> float_le 149 (float_of_Z d) d.
Proof.
  intros Hd. unfold float_of_Z, binary_normalize.
  destruct d as [| p | p]; [done | | lia].
  unfold binary_round, shl_align.
  set (ex' := fexp prec32 emax32 (Z.pos (digits2_pos p) + 0)).
  assert (Hex : -149 <= ex') by (unfold ex', fexp, emin, prec32, emax32; lia).
  destruct (ex' - 0) as [| k | k] eqn:Hk.
  - apply binary_round_aux_le; [lia | lia | lia |]. rewrite Z.add_0_l. lia.
  - apply binary_round_aux_le; [lia | lia | lia |]. rewrite Z.add_0_l. lia.
  - apply binary_round_aux_le; [lia | lia | lia |].
    fold (shift_pos k p). rewrite shift_pos_correct.
    change (Zpower_pos 2 k) with (2 ^ Z.pos k).
    replace ex' with (- Z.pos k) by lia.
    rewrite <- Z.mul_assoc, (Z.mul_comm (Z.pos p)), Z.mul_assoc, <- Z.pow_add_r by lia.
    replace (Z.pos k + (- Z.pos k + 149)) with 149 by lia. lia.
Qed.

Lemma SFleb_one_inv m e :
  SFleb (S754_finite false m e) fone = true ->
  e < -23 \/ (e = -23 /\ Z.pos m <= 8388608).
Proof.
  unfold SFleb, SFcompare. change fone with (S754_finite false 8388608 (-23)).
  cbn iota. intros Hle.
  destruct (Z.compare_spec e (-23)) as [Heq | Hlt | Hgt]; [| by left | done].
  right. split; [done |]. apply Pos2Z.pos_le_pos.
  unfold Pos.le, Pos.compare. intros Hc.
  rewrite Hc in Hle. done.
Qed.

(** A valid positive float that compares at most 1.0 has a value of at most
    one. *)
Lemma unit_interval_inv x :
  in_unit_interval x = true ->
  exists m e, x = S754_finite false m e /\ -149 <= e /\ Z.pos m * 2 ^ (e + 149) <= 2 ^ 149.
Proof.
  unfold in_unit_interval. rewrite !andb_true_iff. intros [[Hvalid Hpos] Hle].
  destruct x as [[] | [] | | [] m e]; try done.
  exists m, e. split; [done |].
  apply SFleb_one_inv in Hle.
  cbn [valid_binary] in Hvalid. unfold bounded, canonical_mantissa in Hvalid.
  apply andb_true_iff in Hvalid as [Hcan _]. apply Z.eqb_eq in Hcan.
  unfold fexp, emin, prec32, emax32 in Hcan.
  pose proof (digits2_pos_bounds m) as [_ Hhi].
  assert (Hdig : Z.pos (digits2_pos m) <= 24) by lia.
  assert (He : -149 <= e) by lia.
  split; [done |].
  assert (Hm : Z.pos m <= 2 ^ (- e)).
  { destruct Hle as [Hlt | [-> Hc]].
    - apply Z.lt_le_incl. eapply Z.lt_le_trans; [exact Hhi |].
      apply Z.pow_le_mono_r; lia.
    - change (2 ^ (- -23)) with 8388608. lia. }
  replace (2 ^ 149) with (2 ^ (- e) * 2 ^ (e + 149)).
  2:{ rewrite <- Z.pow_add_r by lia. f_equal. lia. }
  apply Z.mul_le_mono_nonneg_r; [apply Z.pow_nonneg; lia | done].
Qed.

(** The product of a float in (0, 1] with an integer range below 2^16 is not
    above the range. *)
Lemma fmul_unit_le x d :
  in_unit_interval x = true -> 0 <= d < 65536 ->
  float_le 298 (fmul x (float_of_Z d)) d.
Proof.
  intros Hx Hd. destruct (unit_interval_inv x Hx) as (mx & ex & -> & Hex & Hmx).
  pose proof (float_of_Z_le d Hd) as Hdf.
  destruct (float_of_Z d) as [[] | | | [] md ed]; try done.
  cbn in Hdf. destruct Hdf as [Hed Hmd].
  unfold fmul, SFmul. cbn [xorb].
  apply binary_round_aux_le; [lia | lia | done |].
  rewrite Pos2Z.inj_mul.
  replace (ex + ed + 298) with ((ex + 149) + (ed + 149)) by lia.
  replace 298 with (149 + 149) by lia.
  rewrite !Z.pow_add_r by lia.
  assert (0 < 2 ^ (ex + 149)) by (apply Z.pow_pos_nonneg; lia).
  assert (0 < 2 ^ (ed + 149)) by (apply Z.pow_pos_nonneg; lia).
  assert (0 < 2 ^ 149) by done.
  transitivity ((Z.pos mx * 2 ^ (ex + 149)) * (Z.pos md * 2 ^ (ed + 149))); [lia |].
  transitivity (2 ^ 149 * (d * 2 ^ 149)); [| lia].
  apply Z.mul_le_mono_nonneg; lia.
Qed.

(** The cast of such a float to [uint16_t] is defined and within the bound. *)
Lemma float_to_u16_le K x B :
  0 <= K -> 0 <= B < 65536 -> float_le K x B ->
  exists t, float_to_u16 x = Some t /\ 0 <= t <= B.
Proof.
  intros HK HB Hx. destruct x as [[] | | | [] m e]; cbn in Hx; try done.
  - exists 0. split; [done | lia].
  - destruct Hx as [He Hle].
    assert (0 < 2 ^ K) by (apply Z.pow_pos_nonneg; lia).
    unfold float_to_u16, ftrunc. cbn [mbind option_bind].
    destruct (Z.leb_spec 0 e) as [Hpos | Hneg].
    + rewrite Z.shiftl_mul_pow2 by done.
      rewrite Z.pow_add_r in Hle by lia.
      assert (0 < 2 ^ e) by (apply Z.pow_pos_nonneg; lia).
      assert (Hv : 0 <= Z.pos m * 2 ^ e <= B) by nia.
      exists (Z.pos m * 2 ^ e). split; [| done].
      destruct (Z.leb_spec 0 (Z.pos m * 2 ^ e)); [| lia].
      destruct (Z.ltb_spec (Z.pos m * 2 ^ e) 65536); [done | lia].
    + rewrite Z.shiftr_div_pow2 by lia.
      assert (0 < 2 ^ (- e)) by (apply Z.pow_pos_nonneg; lia).
      assert (Hv : 0 <= Z.pos m / 2 ^ (- e) <= B).
      { split; [apply Z.div_pos; lia |].
        apply Z.div_le_upper_bound; [done |].
        replace K with ((- e) + (e + K)) in Hle at 2 by lia.
        rewrite (Z.pow_add_r 2 (- e) (e + K)) in Hle by lia.
        assert (0 < 2 ^ (e + K)) by (apply Z.pow_pos_nonneg; lia).
        nia. }
      exists (Z.pos m / 2 ^ (- e)). split; [| done].
      destruct (Z.leb_spec 0 (Z.pos m / 2 ^ (- e))); [| lia].
      destruct (Z.ltb_spec (Z.pos m / 2 ^ (- e)) 65536); [done | lia].
Qed.

Lemma unit_interval_nonzero x : in_unit_interval x = true -> float_is_zero x = false.
Proof.
  intros Hx. destruct (unit_interval_inv x Hx) as (m & e & -> & _). done.
Qed.

(** C5, as the code has it: [convert_brightness_] maps a zero input to 0 for
    every configuration; its result is always between 0 and 1000; for a
    configuration with [min_brightness_ <= max_brightness_], every input in
    (0.0, 1.0] gives the truncated product with the range plus
    [min_brightness_], clamped to 1000, which lies between
    [min_brightness_] and [max_brightness_] each clamped to 1000 (so it is
    at least [min_brightness_] when that is at most 1000); and 1.0 with
    min 0 and max 1000 gives exactly 1000. *)
Theorem convert_brightness_bounds (s : ShellyDimmer) (x : float) :
  (float_is_zero x = true -> convert_brightness_ s x = Some 0)
  /\ (forall r, convert_brightness_ s x = Some r -> 0 <= r <= SHELLY_DIMMER_MAX_BRIGHTNESS)
  /\ (in_unit_interval x = true ->
      0 <= min_brightness_ (config s) <= max_brightness_ (config s) ->
      max_brightness_ (config s) < 65536 ->
      exists t,
        float_to_u16 (fmul x (float_of_Z (max_brightness_ (config s)
                                          - min_brightness_ (config s)))) = Some t
        /\ 0 <= t <= max_brightness_ (config s) - min_brightness_ (config s)
        /\ convert_brightness_ s x
           = Some (Z.min (t + min_brightness_ (config s)) SHELLY_DIMMER_MAX_BRIGHTNESS)
        /\ Z.min (min_brightness_ (config s)) SHELLY_DIMMER_MAX_BRIGHTNESS
           <= Z.min (t + min_brightness_ (config s)) SHELLY_DIMMER_MAX_BRIGHTNESS
           <= Z.min (max_brightness_ (config s)) SHELLY_DIMMER_MAX_BRIGHTNESS)
  /\ (min_brightness_ (config s) = 0 -> max_brightness_ (config s) = 1000 ->
      convert_brightness_ s fone = Some 1000).
Proof.
  split_and!.
  - intros Hz. unfold convert_brightness_. by rewrite Hz.
  - intros r. apply convert_brightness__range.
  - intros Hx Hcfg Hmax.
    destruct (float_to_u16_le 298 (fmul x (float_of_Z (max_brightness_ (config s)
                                          - min_brightness_ (config s))))
                (max_brightness_ (config s) - min_brightness_ (config s)))
      as (t & Et & Ht); [lia | lia | apply fmul_unit_le; [done | lia] |].
    exists t. split; [done |]. split; [done |]. split.
    + unfold convert_brightness_. rewrite unit_interval_nonzero by done.
      rewrite Et. cbn [mbind option_bind]. unfold u16. rewrite Z.mod_small by lia. done.
    + unfold SHELLY_DIMMER_MAX_BRIGHTNESS. lia.
  - intros Hmin Hmax. unfold convert_brightness_. rewrite Hmin, Hmax. done.
Qed.


Lemma version_gate_second_mismatch s s1 s2 s3 :
  check_version s = Some (true, s1) ->
  upgrade_firmware_ s1 = Some (true, s2) ->
  check_version s2 = Some (true, s3) ->
  version_gate 3 0 s = Some (false, mark_failed s3).
Proof.
  intros E1 E2 E3.
  rewrite version_gate_step. change (0 <? 2) with true. cbv iota.
  rewrite E1. cbn [mbind option_bind]. change (0 >? 0) with false. cbv iota.
  rewrite E2. cbn [mbind option_bind negb].
  rewrite version_gate_step. change (0 + 1 <? 2) with true. cbv iota.
  rewrite E3. cbn [mbind option_bind]. change (0 + 1 >? 0) with true. cbv iota.
  done.
Qed.


Lemma send_settings__undefined s :
  convert_brightness_ s (light_brightness s) = None -> send_settings_ s = None.
Proof. intros H. unfold send_settings_. fold (light_brightness s). by rewrite H. Qed.

(** [setup()] after its version gate. *)
Lemma setup_after_gate s go g :
  version_gate 3 0 s = Some (go, g) ->
  setup s
  = if go then
      s2 ← send_settings_ (set_poll_interval_ true g);
      '(_, s3) ← send_command_ SHELLY_DIMMER_PROTO_CMD_POLL None 0 s2;
      Some (set_ready_ true s3)
    else Some g.
Proof. intros E. unfold setup. rewrite E. by destruct go. Qed.

(** [setup()] calls [upgrade_firmware_] at most once. *)
Lemma setup_upgrades s s' :
  parser_ok s -> setup s = Some s' -> (upgrades_ s' <= S (upgrades_ s))%nat.
Proof.
  intros Hok H.
  destruct (version_gate 3 0 s) as [[go g] |] eqn:Eg;
    [| by rewrite (setup_gate_undefined s Eg) in H].
  destruct (version_gate_ok s go g Hok Eg) as (Hokg & Hcg & Hrg & Hug & Hfg).
  rewrite (setup_after_gate s go g Eg) in H.
  destruct go; [| by injection H as <-].
  destruct (convert_brightness_ g (light_brightness g)) as [b |] eqn:Hconv.
  - destruct (setup_tail_ok g b Hokg Hconv) as (s2 & got & s3 & E2 & E3 & Hu3).
    rewrite E2 in H. cbn [mbind option_bind] in H. rewrite E3 in H.
    cbn [mbind option_bind] in H. injection H as <-.
    cbn [upgrades_ set_ready_]. lia.
  - rewrite (send_settings__undefined (set_poll_interval_ true g)) in H; [done |].
    rewrite (convert_brightness__config g), (light_brightness_config g); done.
Qed.


(** [setup()] returns whenever the image is a whole number of chunks and
    the brightness of the light converts. *)
Lemma setup_returns s :
  whole_chunks STM_FIRMWARE ->
  parser_ok s -> is_Some (convert_brightness_ s (light_brightness s)) -> is_Some (setup s).
Proof.
  intros Hw Hok [b Hconv].
  destruct (version_gate_returns s Hw Hok) as [[go g] Eg].
  destruct (version_gate_ok s go g Hok Eg) as (Hokg & Hcg & Hrg & Hug & Hfg).
  rewrite (setup_after_gate s go g Eg).
  destruct go; [| done].
  rewrite <- (convert_brightness__config s g), <- (light_brightness_config s g) in Hconv
    by done.
  destruct (setup_tail_ok g b Hokg Hconv) as (s2 & got & s3 & E2 & E3 & _).
  rewrite E2. cbn [mbind option_bind]. rewrite E3. done.
Qed.

(** A version that still mismatches after a successful flash ends
    [setup()]. *)
Lemma setup_second_mismatch s s1 s2 s3 :
  parser_ok s ->
  check_version s = Some (true, s1) ->
  upgrade_firmware_ s1 = Some (true, s2) ->
  check_version s2 = Some (true, s3) ->
  setup s = Some (mark_failed s3)
  /\ ready_ s3 = ready_ s /\ upgrades_ s3 = S (upgrades_ s).
Proof.
  intros Hok E1 E2 E3.
  split.
  { rewrite (setup_after_gate s false (mark_failed s3)); [done |].
    by eapply version_gate_second_mismatch. }
  destruct (check_version_ok s Hok) as (mm1 & t1 & F1 & Hok1 & _ & Hr1 & _ & Hu1).
  rewrite E1 in F1. injection F1 as <- <-.
  destruct (upgrade_firmware__inv _ _ _ E2) as [e Hs2].
  destruct (check_version_ok s2) as (mm3 & t3 & F3 & _ & _ & Hr3 & _ & Hu3).
  { subst s2. done. }
  rewrite E3 in F3. injection F3 as <- <-.
  subst s2. cbn [ready_ upgrades_ set_env set_upgrades_] in Hr3, Hu3.
  split; congruence.
Qed.

(** C9: during [setup()] the check, flash, check cycle runs at most once:
    whenever [setup()] returns, [upgrade_firmware_] was called at most one
    time; when the version check after a successful flash still mismatches,
    [setup()] ends there with the component marked failed, the readiness
    flag as it was and no further flash; and [setup()] does return whenever
    the image is a whole number of 256-byte chunks and the brightness of
    the light converts. *)
Theorem upgrade_cycle_once (s : ShellyDimmer) :
  parser_ok s ->
  (forall s', setup s = Some s' -> (upgrades_ s' <= S (upgrades_ s))%nat)
  /\ (forall s1 s2 s3,
        check_version s = Some (true, s1) ->
        upgrade_firmware_ s1 = Some (true, s2) ->
        check_version s2 = Some (true, s3) ->
        setup s = Some (mark_failed s3)
        /\ failed_ (mark_failed s3) = true
        /\ ready_ (mark_failed s3) = ready_ s
        /\ upgrades_ (mark_failed s3) = S (upgrades_ s))
  /\ (whole_chunks STM_FIRMWARE ->
      is_Some (convert_brightness_ s (light_brightness s)) -> is_Some (setup s)).
Proof.
  intros Hok. split_and!.
  - intros s'. by apply setup_upgrades.
  - intros s1 s2 s3 E1 E2 E3.
    destruct (setup_second_mismatch s s1 s2 s3 Hok E1 E2 E3) as (E & Hr & Hu).
    split_and!; done.
  - intros Hw. by apply setup_returns.
Qed.


(** * Further properties *)

(** ** Frame codec *)

Lemma sum16_byte_sum (l : list Z) : forall acc,
  sum16 acc l = if decide (l = []) then acc else (acc + byte_sum l) mod 65536.
Proof.
  induction l as [| x l IH]; intros acc; [done |].
  cbn [sum16 fold_left byte_sum foldr]. fold (sum16 (u16 (acc + x)) l). rewrite IH.
  fold (byte_sum l). unfold u16.
  destruct (decide (l = [])) as [-> | _]; cbn [byte_sum foldr].
  - by rewrite Z.add_0_r.
  - rewrite Zplus_mod_idemp_l. f_equal. lia.
Qed.

Lemma sum16_0 (l : list Z) : sum16 0 l = byte_sum l mod 65536.
Proof. rewrite sum16_byte_sum. by destruct (decide (l = [])) as [-> | _]. Qed.

Lemma checksum_loop_overrun (buf : list Z) (n : nat) : forall i acc,
  0 <= i -> (0 < n)%nat -> Z.of_nat (length buf) < i + Z.of_nat n ->
  checksum_loop buf i n acc = None.
Proof.
  induction n as [| n IH]; intros i acc Hi Hpos Hn; [lia |].
  cbn [checksum_loop].
  destruct (rd buf i) as [b |] eqn:Hb; [| done].
  apply rd_Some_inv in Hb. cbn [mbind option_bind]. apply IH; lia.
Qed.

(** The checksum of a range inside the buffer. *)
Lemma checksum_in_range (buf : list Z) (off len : Z) :
  0 <= off -> 0 <= len -> off + len <= Z.of_nat (length buf) ->
  shelly_dimmer_checksum buf off len
  = Some (byte_sum (take (Z.to_nat len) (drop (Z.to_nat off) buf)) mod 65536).
Proof.
  intros Hoff Hlen Hfit. unfold shelly_dimmer_checksum.
  set (l := take (Z.to_nat len) (drop (Z.to_nat off) buf)).
  assert (Hl : length l = Z.to_nat len).
  { unfold l. rewrite length_take, length_drop. lia. }
  rewrite <- Hl. replace off with (Z.of_nat (Z.to_nat off)) by lia.
  rewrite checksum_loop_segment.
  - by rewrite sum16_0.
  - by rewrite Hl.
Qed.

(** X1: the checksum loop, which wraps at every step, returns the plain sum
    of the [len] bytes from [off] modulo 65536; it returns 0 for a length
    that is not positive and is undefined when the range leaves the
    buffer. *)
Theorem checksum_is_sum_mod (buf : list Z) (off len : Z) :
  0 <= off ->
  (len <= 0 -> shelly_dimmer_checksum buf off len = Some 0)
  /\ (0 <= len -> off + len <= Z.of_nat (length buf) ->
      shelly_dimmer_checksum buf off len
      = Some (byte_sum (take (Z.to_nat len) (drop (Z.to_nat off) buf)) mod 65536))
  /\ (0 < len -> Z.of_nat (length buf) < off + len ->
      shelly_dimmer_checksum buf off len = None).
Proof.
  intros Hoff. split_and!.
  - intros Hlen. unfold shelly_dimmer_checksum. by replace (Z.to_nat len) with 0%nat by lia.
  - intros Hlen Hfit. by apply checksum_in_range.
  - intros Hlen Hover. apply checksum_loop_overrun; lia.
Qed.

Lemma byte_sum_app (l1 l2 : list Z) : byte_sum (l1 ++ l2) = byte_sum l1 + byte_sum l2.
Proof. induction l1 as [| x l1 IH]; cbn [byte_sum foldr app]; [done |]. fold (byte_sum (l1 ++ l2)). fold (byte_sum l1). lia. Qed.

Lemma byte_sum_insert (l : list Z) (j : nat) x y :
  l !! j = Some x -> byte_sum (<[j := y]> l) = byte_sum l - x + y.
Proof.
  intros Hj. rewrite <- (take_drop_middle l j x Hj) at 2.
  rewrite insert_take_drop by (by eapply lookup_lt_Some).
  rewrite !byte_sum_app. cbn [byte_sum foldr]. fold (byte_sum (drop (S j) l)). lia.
Qed.

(** X2: overwriting one byte inside the summed range with a different byte
    value always changes the checksum. *)
Theorem checksum_detects_byte_change (buf : list Z) (off len i x y : Z) :
  0 <= off -> off <= i < off + len -> off + len <= Z.of_nat (length buf) ->
  rd buf i = Some x -> 0 <= x < 256 -> 0 <= y < 256 -> x <> y ->
  shelly_dimmer_checksum (<[Z.to_nat i := y]> buf) off len
  <> shelly_dimmer_checksum buf off len.
Proof.
  intros Hoff Hi Hfit Hx Hxb Hyb Hne.
  rewrite !checksum_in_range by (rewrite ?length_insert; lia).
  set (j := (Z.to_nat i - Z.to_nat off)%nat).
  assert (Hseg : take (Z.to_nat len) (drop (Z.to_nat off) (<[Z.to_nat i := y]> buf))
                 = <[j := y]> (take (Z.to_nat len) (drop (Z.to_nat off) buf))).
  { rewrite drop_insert_ge by lia. fold j. rewrite take_insert_lt by lia. done. }
  assert (Hj : take (Z.to_nat len) (drop (Z.to_nat off) buf) !! j = Some x).
  { rewrite lookup_take_lt by lia. rewrite lookup_drop.
    unfold rd in Hx. destruct (0 <=? i); [| done].
    by replace (Z.to_nat off + j)%nat with (Z.to_nat i) by lia. }
  rewrite Hseg, (byte_sum_insert _ _ x y Hj).
  intros [= Heq].
  set (S0 := byte_sum (take (Z.to_nat len) (drop (Z.to_nat off) buf))) in *.
  assert (Hdiv : ((S0 - x + y) - S0) mod 65536 = 0).
  { rewrite Zminus_mod, Heq, Z.sub_diag. done. }
  replace (S0 - x + y - S0) with (y - x) in Hdiv by lia.
  apply Z.mod_divide in Hdiv; [| lia]. destruct Hdiv as [k Hk]. lia.
Qed.


Lemma memcpy_Some_inv (dst src : list Z) off n dst' :
  0 <= off -> memcpy dst off src n = Some dst' ->
  0 <= n <= Z.of_nat (length src) /\ off + n <= Z.of_nat (length dst)
  /\ length dst' = length dst.
Proof.
  intros Hoff. unfold memcpy.
  destruct (Z.leb_spec 0 n); [| done].
  destruct (Z.leb_spec n (Z.of_nat (length src))); [| done].
  destruct (Z.leb_spec (off + n) (Z.of_nat (length dst))); [| done].
  intros [= <-]. split_and!; try lia.
  rewrite !length_app, !length_take, length_drop. lia.
Qed.

Lemma frame_command__inv (data : list Z) cmd (p : list Z) len s data' n s' :
  frame_command_ data cmd (Some p) len s = Some (data', n, s') ->
  n = 4 + len + 3 /\ n <= Z.of_nat (length data) /\ length data' = length data
  /\ 0 <= len <= Z.of_nat (length p)
  /\ s' = set_seq_ (u8 (seq_ s + 1)) s.
Proof.
  intros H. unfold frame_command_ in H.
  destruct (wr data 0 _) as [d1 |] eqn:E1; cbn [mbind option_bind] in H; [| done].
  apply wr_Some_inv in E1 as [_ ->].
  destruct (wr _ 1 _) as [d2 |] eqn:E2; cbn [mbind option_bind] in H; [| done].
  apply wr_Some_inv in E2 as [_ ->].
  destruct (wr _ 2 _) as [d3 |] eqn:E3; cbn [mbind option_bind] in H; [| done].
  apply wr_Some_inv in E3 as [_ ->].
  destruct (wr _ 3 _) as [d4 |] eqn:E4; cbn [mbind option_bind] in H; [| done].
  apply wr_Some_inv in E4 as [_ ->].
  destruct (memcpy _ 4 p len) as [d5 |] eqn:E5; cbn [mbind option_bind] in H; [| done].
  apply memcpy_Some_inv in E5 as (Hlen & _ & Hl5); [| lia].
  rewrite !length_insert in Hl5.
  destruct (shelly_dimmer_checksum d5 1 (3 + len)) as [csum |];
    cbn [mbind option_bind] in H; [| done].
  destruct (wr d5 _ _) as [d6 |] eqn:E6; cbn [mbind option_bind] in H; [| done].
  apply wr_Some_inv in E6 as [_ ->].
  destruct (wr _ (0 + 4 + len + 1) _) as [d7 |] eqn:E7; cbn [mbind option_bind] in H;
    [| done].
  apply wr_Some_inv in E7 as [_ ->].
  destruct (wr _ (0 + 4 + len + 2) _) as [d8 |] eqn:E8; cbn [mbind option_bind] in H;
    [| done].
  apply wr_Some_inv in E8 as [Hlast ->].
  injection H as <- <- <-.
  rewrite !length_insert in *. split_and!; try done; lia.
Qed.

(** X3: whenever [frame_command_] returns for a payload pointer that is not
    null, the frame it built has length 4 + len + 3 and lies inside the
    buffer it was given, and nothing but the sequence counter changed; a
    payload that would not fit makes the writes leave the buffer, so the
    call is undefined, and so is [send_command_] for more than 72 payload
    bytes, whose frame buffer has 79. *)
Theorem frame_command__fits (data : list Z) (cmd : Z) (p : list Z) (len : Z)
    (s : ShellyDimmer) :
  (forall data' n s',
     frame_command_ data cmd (Some p) len s = Some (data', n, s') ->
     n = 4 + len + 3 /\ n <= Z.of_nat (length data) /\ length data' = length data
     /\ 0 <= len <= Z.of_nat (length p)
     /\ s' = set_seq_ (u8 (seq_ s + 1)) s)
  /\ (Z.of_nat (length data) < 4 + len + 3 ->
      frame_command_ data cmd (Some p) len s = None)
  /\ (72 < u8 len -> send_command_ cmd (Some p) len s = None).
Proof.
  split_and!.
  - intros data' n s'. apply frame_command__inv.
  - intros Hbig.
    destruct (frame_command_ data cmd (Some p) len s) as [[[data' n] s'] |] eqn:E; [| done].
    apply frame_command__inv in E as (-> & Hfit & _). lia.
  - intros Hbig. unfold send_command_.
    destruct (frame_command_ _ cmd (Some p) (u8 len) s) as [[[data' n] s'] |] eqn:E; [| done].
    apply frame_command__inv in E as (-> & Hfit & _).
    rewrite length_replicate in Hfit. unfold SHELLY_DIMMER_PROTO_MAX_FRAME_SIZE in Hfit. lia.
Qed.


(** ** Stream parser and dispatcher *)

(** X4: from a state that satisfies the parser invariant, any byte stream
    whatsoever is consumed without an access outside [buffer_]: every byte
    gets one of the codes 0, -1 and 1, the invariant holds again afterwards
    with the cursor inside the buffer, and nothing but the parse buffer, the
    cursor, the version fields and the sensor sinks has changed. *)
Theorem parser_never_leaves_buffer (bytes : list Z) : forall s,
  parser_ok s ->
  exists codes s', feed bytes s = Some (codes, s')
    /\ length codes = length bytes
    /\ Forall (fun r => r = 0 \/ r = -1 \/ r = 1) codes
    /\ parser_ok s'
    /\ 0 <= buffer_pos_ s' < SHELLY_DIMMER_BUFFER_SIZE
    /\ quiet s s'.
Proof.
  induction bytes as [| c bytes IH]; intros s Hok.
  - exists [], s. pose proof (parser_ok_cursor s Hok) as Hc.
    pose proof Hok as (Hsz & _). split_and!; try done; try lia.
  - destruct (read_byte__ok c s Hok) as (r & s1 & E1 & Hok1 & Hq1 & Hr & _).
    destruct (IH s1 Hok1) as (codes & s' & E & Hlen & Hcodes & Hok' & Hpos & Hq).
    exists (r :: codes), s'. cbn [feed]. rewrite E1. cbn [mbind option_bind].
    rewrite E. cbn [mbind option_bind].
    split_and!; [done | cbn [length]; by rewrite Hlen | by constructor | done | lia | lia
                | by eapply quiet_trans].
Qed.

Lemma read_byte__garbage c s :
  buffer_pos_ s = 0 -> (0 < length (buffer_ s))%nat ->
  c <> SHELLY_DIMMER_PROTO_START_BYTE ->
  read_byte_ c s = Some (-1, set_buffer_pos_ 0 (set_buffer_ (<[0%nat := c]> (buffer_ s)) s)).
Proof.
  intros Hpos Hsz Hc. unfold read_byte_. rewrite Hpos, wr_defined by lia.
  cbn [mbind option_bind]. unfold handle_byte_. cbn [buffer_pos_ set_buffer_]. rewrite Hpos.
  change (0 =? 0) with true. cbv iota.
  destruct (Z.eqb_spec c SHELLY_DIMMER_PROTO_START_BYTE); [done |]. done.
Qed.

(** Bytes other than the start marker, arriving at cursor 0, are rejected
    one by one; they only ever overwrite the first cell of the buffer. *)
Lemma feed_garbage (garbage : list Z) : forall s,
  buffer_pos_ s = 0 -> (0 < length (buffer_ s))%nat ->
  Forall (fun c => c <> SHELLY_DIMMER_PROTO_START_BYTE) garbage ->
  exists s', feed garbage s = Some (replicate (length garbage) (-1), s')
    /\ buffer_pos_ s' = 0
    /\ length (buffer_ s') = length (buffer_ s)
    /\ drop 1 (buffer_ s') = drop 1 (buffer_ s)
    /\ quiet s s'.
Proof.
  induction garbage as [| c garbage IH]; intros s Hpos Hsz Hg.
  - exists s. split_and!; done.
  - apply Forall_cons in Hg as [Hc Hg].
    destruct (IH (set_buffer_pos_ 0 (set_buffer_ (<[0%nat := c]> (buffer_ s)) s)))
      as (s' & E & Hp & Hl & Hd & Hq); [done | | done |].
    { cbn [buffer_ set_buffer_pos_ set_buffer_]. by rewrite length_insert. }
    exists s'. cbn [feed]. rewrite read_byte__garbage by done.
    cbn [mbind option_bind]. rewrite E. cbn [mbind option_bind].
    cbn [buffer_ set_buffer_pos_ set_buffer_] in Hl, Hd.
    rewrite length_insert in Hl. rewrite drop_insert_lt in Hd by lia.
    split_and!; done.
Qed.

(** X5: garbage that contains no start marker, arriving at cursor 0 in front
    of a well-formed frame, is rejected byte by byte and does not keep the
    frame from completing. *)
Theorem garbage_then_frame (garbage : list Z) (seq cmd : Z) (p : list Z) (s : ShellyDimmer) :
  Z.of_nat (length (buffer_ s)) = SHELLY_DIMMER_BUFFER_SIZE ->
  buffer_pos_ s = 0 ->
  Forall (fun c => c <> SHELLY_DIMMER_PROTO_START_BYTE) garbage ->
  (length p <= 72)%nat ->
  exists s', feed (garbage ++ wire_frame seq cmd p) s
             = Some (replicate (length garbage) (-1) ++ replicate (6 + length p) 1 ++ [0], s')
    /\ buffer_pos_ s' = 0
    /\ take (length (wire_frame seq cmd p)) (buffer_ s') = wire_frame seq cmd p.
Proof.
  intros Hsz Hpos Hg Hp. unfold SHELLY_DIMMER_PROTO_MAX_FRAME_SIZE in buffer_fits.
  destruct (feed_garbage garbage s Hpos ltac:(lia) Hg) as (s1 & E1 & Hp1 & Hl1 & _).
  destruct (feed_wire_frame seq cmd p) with (s := s1) as (s2 & E2 & Hp2 & Hb2 & _);
    [lia | lia | lia | done |].
  exists s2. rewrite feed_app, E1. cbn [mbind option_bind]. rewrite E2.
  cbn [mbind option_bind]. split_and!; try done.
  rewrite Hb2. by rewrite take_app_length.
Qed.

(** X6: [handle_frame_] reports success only for a frame whose sequence byte
    equals [seq_] and whose command is poll, version, switch or settings;
    whenever it reports failure it leaves the object exactly as it was. *)
Theorem handle_frame__outcomes (s : ShellyDimmer) (ok : bool) (s' : ShellyDimmer) :
  handle_frame_ s = Some (ok, s') ->
  (ok = false -> s' = s)
  /\ (ok = true ->
      rd (buffer_ s) 1 = Some (seq_ s)
      /\ exists cmd, rd (buffer_ s) 2 = Some cmd
           /\ (cmd = SHELLY_DIMMER_PROTO_CMD_POLL \/ cmd = SHELLY_DIMMER_PROTO_CMD_VERSION
               \/ cmd = SHELLY_DIMMER_PROTO_CMD_SWITCH
               \/ cmd = SHELLY_DIMMER_PROTO_CMD_SETTINGS)).
Proof.
  unfold handle_frame_. intros H.
  destruct (rd (buffer_ s) 1) as [seq |]; cbn [mbind option_bind] in H; [| done].
  destruct (rd (buffer_ s) 2) as [cmd |]; cbn [mbind option_bind] in H; [| done].
  destruct (rd (buffer_ s) 3) as [len |]; cbn [mbind option_bind] in H; [| done].
  destruct (Z.eqb_spec seq (seq_ s)) as [-> | Hne]; cbn [negb] in H;
    [| injection H as <- <-; split; [done | done]].
  destruct (Z.eqb_spec cmd SHELLY_DIMMER_PROTO_CMD_POLL) as [-> | Hpoll].
  { destruct (len <? 16); [injection H as <- <-; split; done |].
    repeat match type of H with
           | context [rd ?b ?i] => destruct (rd b i); cbn [mbind option_bind] in H; [| done]
           end.
    injection H as <- <-. split; [done |]. intros _. split; [done |].
    exists SHELLY_DIMMER_PROTO_CMD_POLL. split; [done | by left]. }
  destruct (Z.eqb_spec cmd SHELLY_DIMMER_PROTO_CMD_VERSION) as [-> | Hver].
  { destruct (len <? 2); [injection H as <- <-; split; done |].
    repeat match type of H with
           | context [rd ?b ?i] => destruct (rd b i); cbn [mbind option_bind] in H; [| done]
           end.
    injection H as <- <-. split; [done |]. intros _. split; [done |].
    exists SHELLY_DIMMER_PROTO_CMD_VERSION. split; [done | right; by left]. }
  destruct (Z.eqb_spec cmd SHELLY_DIMMER_PROTO_CMD_SWITCH) as [-> | Hsw];
    [| destruct (Z.eqb_spec cmd SHELLY_DIMMER_PROTO_CMD_SETTINGS) as [-> | Hset]];
    cbn [orb] in H.
  - destruct (len <? 1); [injection H as <- <-; split; done |].
    destruct (rd _ _); cbn [mbind option_bind] in H; [| done].
    injection H as <- <-. split; [done |]. intros _. split; [done |].
    exists SHELLY_DIMMER_PROTO_CMD_SWITCH. split; [done | right; right; by left].
  - destruct (len <? 1); [injection H as <- <-; split; done |].
    destruct (rd _ _); cbn [mbind option_bind] in H; [| done].
    injection H as <- <-. split; [done |]. intros _. split; [done |].
    exists SHELLY_DIMMER_PROTO_CMD_SETTINGS. split; [done | right; right; by right].
  - injection H as <- <-. split; done.
Qed.


(** ** Command transceiver *)

(** X7: for every proper payload and whatever the peer sends, [send_command_]
    returns; it has bumped the sequence counter once, transmitted one and
    the same frame at least once and at most three times, kept the parser
    invariant, and left configuration, last-sent brightness, readiness and
    failure flags alone. *)
Theorem send_command__bounded (cmd : Z) (payload : option (list Z)) (len : Z)
    (s : ShellyDimmer) :
  parser_ok s ->
  len = Z.of_nat (length (payload_bytes payload)) -> len <= 72 ->
  exists got s' (k : nat),
    send_command_ cmd payload len s = Some (got, s')
    /\ (1 <= k <= 3)%nat
    /\ tx (env s') = tx (env s)
         ++ replicate k (wire_frame (u8 (seq_ s + 1)) (u8 cmd) (payload_bytes payload))
    /\ seq_ s' = u8 (seq_ s + 1)
    /\ parser_ok s'
    /\ stable s s'.
Proof.
  intros Hok Hlen H72.
  destruct (send_command__ok cmd payload len s Hok Hlen H72)
    as (got & s' & k & E & Hok' & Hseq & Htx & Hk & Hst).
  by exists got, s', k.
Qed.

Lemma read_byte__env c s r s' : read_byte_ c s = Some (r, s') -> env s' = env s.
Proof.
  unfold read_byte_. intros H.
  destruct (wr _ _ _) as [buf |]; cbn [mbind option_bind] in H; [| done].
  destruct (handle_byte_ _ c) as [r0 |]; cbn [mbind option_bind] in H; [| done].
  destruct (r0 =? 0).
  { destruct (handle_frame_ _) as [[ok s1] |] eqn:Hf; cbn [mbind option_bind] in H; [| done].
    injection H as <- <-. apply handle_frame__inv in Hf as (_ & _ & Hq).
    destruct Hq as (_ & _ & _ & _ & _ & _ & _ & Hq).
    cbn [env set_buffer_pos_]. by rewrite Hq. }
  destruct (r0 =? -1); [by injection H as <- <- |].
  destruct (r0 =? 1); by injection H as <- <-.
Qed.

Lemma read_frame_loop_env (avail : list Z) : forall s got s',
  read_frame_loop avail s = Some (got, s') ->
  exists q, env s' = set_rx q (env s).
Proof.
  induction avail as [| c rest IH]; intros s got s' H; cbn [read_frame_loop] in H.
  - injection H as <- <-. by exists [].
  - destruct (read_byte_ (u8 c) s) as [[r s1] |] eqn:E; cbn [mbind option_bind] in H; [| done].
    apply read_byte__env in E.
    destruct (r =? 0).
    + injection H as <- <-. exists rest. cbn [env set_env]. by rewrite E.
    + apply IH in H as [q Hq]. exists q. by rewrite Hq, E.
Qed.

(** The time one polling window takes on the model clock. *)
Lemma wait_ack_time (fuel : nat) : forall tx_time s got s',
  wait_ack fuel tx_time s = Some (got, s') ->
  u32 (millis (env s) - tx_time) <= SHELLY_DIMMER_ACK_TIMEOUT ->
  exists k : nat,
    Z.of_nat k <= SHELLY_DIMMER_ACK_TIMEOUT - u32 (millis (env s) - tx_time)
    /\ incoming (env s') = drop k (incoming (env s))
    /\ u32 (millis (env s')) = u32 (millis (env s) + Z.of_nat k)
    /\ tx (env s') = tx (env s).
Proof.
  induction fuel as [| fuel IH]; intros tx_time s got s' H Hin; [done |].
  cbn [wait_ack] in H.
  destruct (Z.ltb_spec (u32 (millis (env s) - tx_time)) SHELLY_DIMMER_ACK_TIMEOUT)
    as [Hlt | Hge].
  - destruct (read_frame_ s) as [[g s1] |] eqn:E; cbn [mbind option_bind] in H; [| done].
    apply read_frame_loop_env in E as [q Hq].
    destruct g.
    + injection H as <- <-. exists 0%nat. rewrite Hq. cbn [incoming millis tx set_rx].
      rewrite drop_0, Z.add_0_r. split_and!; try done. lia.
    + apply IH in H as (k & Hk & Hinc & Hms & Htx).
      2:{ cbn [env set_env delay tick millis]. rewrite Hq. cbn [millis set_rx].
          rewrite elapsed_next by done. lia. }
      cbn [env set_env delay tick millis incoming tx] in Hk, Hinc, Hms, Htx.
      rewrite Hq in Hk, Hinc, Hms, Htx. cbn [millis incoming tx set_rx] in Hk, Hinc, Hms, Htx.
      rewrite elapsed_next in Hk by done.
      exists (S k). split_and!.
      * lia.
      * rewrite Hinc. destruct (incoming (env s)); [simpl; by rewrite !drop_nil | done].
      * rewrite Hms. unfold u32. rewrite Zplus_mod_idemp_l. f_equal. lia.
      * done.
  - injection H as <- <-. exists 0%nat. rewrite drop_0, Z.add_0_r. split_and!; try done. lia.
Qed.

Lemma send_attempts_time (retries : nat) (frame : list Z) : forall s got s',
  send_attempts retries frame s = Some (got, s') ->
  exists k : nat,
    Z.of_nat k <= SHELLY_DIMMER_ACK_TIMEOUT * Z.of_nat retries
    /\ incoming (env s') = drop k (incoming (env s))
    /\ u32 (millis (env s')) = u32 (millis (env s) + Z.of_nat k).
Proof.
  induction retries as [| n IH]; intros s got s' H.
  { injection H as <- <-. exists 0%nat. rewrite drop_0, Z.add_0_r.
    unfold SHELLY_DIMMER_ACK_TIMEOUT. split_and!; try done. }
  cbn [send_attempts] in H.
  destruct (wait_ack _ _ _) as [[g s1] |] eqn:E; cbn [mbind option_bind] in H; [| done].
  apply wait_ack_time in E as (k1 & Hk1 & Hinc1 & Hms1 & _).
  2:{ rewrite Z.sub_diag. done. }
  rewrite Z.sub_diag in Hk1. change (u32 0) with 0 in Hk1.
  cbn [env set_env write_array incoming millis] in Hinc1, Hms1.
  unfold SHELLY_DIMMER_ACK_TIMEOUT in *.
  destruct g.
  - injection H as <- <-. exists k1. split_and!; try done. lia.
  - apply IH in H as (k2 & Hk2 & Hinc2 & Hms2).
    exists (k1 + k2)%nat. split_and!.
    + lia.
    + rewrite Hinc2, Hinc1, drop_drop. done.
    + rewrite Hms2. unfold u32 in *. rewrite <- Zplus_mod_idemp_l, Hms1, Zplus_mod_idemp_l.
      f_equal. lia.
Qed.

Lemma frame_command__state (data : list Z) cmd payload len s data' n s' :
  frame_command_ data cmd payload len s = Some (data', n, s') ->
  s' = set_seq_ (u8 (seq_ s + 1)) s.
Proof.
  destruct payload as [p |]; intros H.
  - by apply frame_command__inv in H as (_ & _ & _ & _ & ->).
  - unfold frame_command_ in H.
    destruct (wr data 0 _) as [d1 |]; cbn [mbind option_bind] in H; [| done].
    destruct (wr d1 1 _) as [d2 |]; cbn [mbind option_bind] in H; [| done].
    destruct (wr d2 2 _) as [d3 |]; cbn [mbind option_bind] in H; [| done].
    destruct (wr d3 3 _) as [d4 |]; cbn [mbind option_bind] in H; [| done].
    destruct (shelly_dimmer_checksum d4 1 (3 + len)) as [csum |];
      cbn [mbind option_bind] in H; [| done].
    destruct (wr d4 _ _) as [d6 |]; cbn [mbind option_bind] in H; [| done].
    destruct (wr d6 _ _) as [d7 |]; cbn [mbind option_bind] in H; [| done].
    destruct (wr d7 _ _) as [d8 |]; cbn [mbind option_bind] in H; [| done].
    by injection H as <- <- <-.
Qed.

(** X8: a call of [send_command_] that returns has taken at most 600
    milliseconds of the model clock (three windows of 200), one arrival slot
    of the peer per millisecond. *)
Theorem send_command__duration (cmd : Z) (payload : option (list Z)) (len : Z)
    (s : ShellyDimmer) (got : bool) (s' : ShellyDimmer) :
  send_command_ cmd payload len s = Some (got, s') ->
  exists k : nat,
    (k <= 600)%nat
    /\ incoming (env s') = drop k (incoming (env s))
    /\ u32 (millis (env s')) = u32 (millis (env s) + Z.of_nat k).
Proof.
  unfold send_command_. intros H.
  destruct (frame_command_ _ cmd payload (u8 len) s) as [[[data' n] s1] |] eqn:E;
    cbn [mbind option_bind] in H; [| done].
  apply frame_command__state in E. subst s1.
  apply send_attempts_time in H as (k & Hk & Hinc & Hms).
  exists k. rewrite Hinc, Hms. cbn [env set_seq_].
  unfold SHELLY_DIMMER_ACK_TIMEOUT, SHELLY_DIMMER_MAX_RETRIES in Hk.
  split_and!; try done. lia.
Qed.

(** ** Reset lines *)

Lemma delay_spec (n : nat) : forall e,
  rx (delay n e) = rx e ++ concat (take n (incoming e))
  /\ incoming (delay n e) = drop n (incoming e)
  /\ u32 (millis (delay n e)) = u32 (millis e + Z.of_nat n).
Proof.
  induction n as [| n IH]; intros e.
  - cbn [delay take concat]. rewrite app_nil_r, drop_0, Z.add_0_r. done.
  - cbn [delay]. destruct (IH (tick e)) as (Hrx & Hin & Hms).
    rewrite Hrx, Hin, Hms. cbn [tick rx incoming millis].
    split_and!.
    + destruct (incoming e) as [| a l]; cbn [hd tl take concat].
      * rewrite take_nil. simpl. by rewrite !app_nil_r.
      * by rewrite <- app_assoc.
    + destruct (incoming e); cbn [tl]; [by rewrite !drop_nil | done].
    + unfold u32. rewrite Zplus_mod_idemp_l. f_equal. lia.
Qed.

Lemma delay_millis (n : nat) e :
  (0 < n)%nat -> millis (delay n e) = u32 (millis e + Z.of_nat n).
Proof.
  revert e. induction n as [| n IH]; intros e Hn; [lia |].
  cbn [delay]. destruct n as [| n].
  - cbn [delay tick millis]. done.
  - rewrite IH by lia. cbn [tick millis]. unfold u32.
    rewrite Zplus_mod_idemp_l. f_equal. lia.
Qed.

(** The reset sequence on the environment, for any two waiting times. *)
Lemma reset_env_spec (n m : nat) (level : bool) (e : Env) :
  (0 < n)%nat -> (0 < m)%nat ->
  let e' := delay m (digital_write_nrst true (set_rx []
              (delay n (digital_write_nrst false (digital_write_boot0 level e))))) in
  rx e' = concat (take m (drop n (incoming e)))
  /\ incoming e' = drop (n + m) (incoming e)
  /\ millis e' = u32 (millis e + Z.of_nat (n + m))
  /\ tx e' = tx e /\ nrst e' = true /\ boot0 e' = level.
Proof.
  intros Hn Hm.
  remember (digital_write_nrst false (digital_write_boot0 level e)) as e1 eqn:He1.
  remember (delay n e1) as d1 eqn:Hd1.
  remember (digital_write_nrst true (set_rx [] d1)) as e2 eqn:He2.
  cbv zeta.
  destruct (delay_spec n e1) as (Hrx1 & Hin1 & _).
  destruct (delay_spec m e2) as (Hrx2 & Hin2 & _).
  destruct (delay_frame n e1) as (Htx1 & Hn1 & Hb1).
  destruct (delay_frame m e2) as (Htx2 & Hn2 & Hb2).
  pose proof (delay_millis n e1 Hn) as Hms1.
  pose proof (delay_millis m e2 Hm) as Hms2.
  rewrite <- Hd1 in Hrx1, Hin1, Htx1, Hn1, Hb1, Hms1.
  assert (Hi2 : incoming e2 = incoming d1) by (by subst e2).
  assert (Hr2 : rx e2 = []) by (by subst e2).
  assert (Hm2 : millis e2 = millis d1) by (by subst e2).
  assert (Ht2 : tx e2 = tx d1) by (by subst e2).
  assert (Hnr2 : nrst e2 = true) by (by subst e2).
  assert (Hbo2 : boot0 e2 = boot0 d1) by (by subst e2).
  assert (Hi1 : incoming e1 = incoming e) by (by subst e1).
  assert (Hm1 : millis e1 = millis e) by (by subst e1).
  assert (Ht1 : tx e1 = tx e) by (by subst e1).
  assert (Hbo1 : boot0 e1 = level) by (by subst e1).
  clear He1 Hd1 He2.
  split_and!.
  - by rewrite Hrx2, Hr2, Hi2, Hin1, Hi1.
  - by rewrite Hin2, Hi2, Hin1, Hi1, drop_drop.
  - rewrite Hms2, Hm2, Hms1, Hm1. unfold u32. rewrite Zplus_mod_idemp_l. f_equal. lia.
  - by rewrite Htx2, Ht2, Htx1, Ht1.
  - by rewrite Hn2.
  - by rewrite Hb2, Hbo2, Hb1.
Qed.

Lemma reset__env (level : bool) (s : ShellyDimmer) :
  env (reset_ level s)
  = delay 50 (digital_write_nrst true (set_rx []
      (delay 50 (digital_write_nrst false (digital_write_boot0 level (env s)))))).
Proof. reflexivity. Qed.

Lemma reset__object (level : bool) (s : ShellyDimmer) :
  set_env (env s) (reset_ level s) = s.
Proof. unfold reset_. generalize (50%nat). intros n. by destruct s. Qed.

(** X9: a reset takes 100 milliseconds.  Whatever was waiting in the UART
    and whatever arrives while the reset line is low is discarded, so the
    receive queue afterwards holds exactly the arrivals of the second 50
    milliseconds; the reset line ends high, the boot line has the requested
    level, nothing was transmitted and the object itself is untouched.
    [reset_normal_boot_] and [reset_dfu_boot_] are the two levels. *)
Theorem reset__effect (level : bool) (s : ShellyDimmer) :
  rx (env (reset_ level s)) = concat (take 50 (drop 50 (incoming (env s))))
  /\ incoming (env (reset_ level s)) = drop 100 (incoming (env s))
  /\ millis (env (reset_ level s)) = u32 (millis (env s) + 100)
  /\ tx (env (reset_ level s)) = tx (env s)
  /\ nrst (env (reset_ level s)) = true
  /\ boot0 (env (reset_ level s)) = level
  /\ set_env (env s) (reset_ level s) = s
  /\ reset_normal_boot_ s = reset_ false s
  /\ reset_dfu_boot_ s = reset_ true s.
Proof.
  rewrite reset__env.
  split_and!; try apply (reset_env_spec 50 50 level (env s)); try lia;
    [apply reset__object | done | done].
Qed.

(** X10: [write_state] is idempotent.  Once a call has returned, repeating
    it with the same brightness changes nothing and transmits nothing, also
    when the first call went unacknowledged: [brightness_] is recorded
    whatever [send_command_] reported. *)
Theorem write_state_idempotent (brightness : float) (s s' : ShellyDimmer) :
  parser_ok s ->
  write_state brightness s = Some s' ->
  write_state brightness s' = Some s'.
Proof.
  intros Hok H. pose proof H as H0. unfold write_state in H.
  destruct (ready_ s) eqn:Hr; cbn [negb] in H; [| by injection H as <-].
  destruct (convert_brightness_ s brightness) as [b |] eqn:Hb;
    cbn [mbind option_bind] in H; [| done].
  destruct (Z.eqb_spec b (brightness_ s)) as [Heq | Hne]; [by injection H as <- |].
  destruct (send_brightness__ok b s Hok) as (s1 & k & E & _ & _ & _ & _ & Hst).
  rewrite E in H. injection H as <-.
  destruct Hst as (Hcfg & _ & Hrdy & _).
  unfold write_state. cbn [ready_ set_brightness_]. rewrite Hrdy, Hr. cbn [negb].
  rewrite (convert_brightness__config s (set_brightness_ b s1)) by done.
  rewrite Hb. cbn [mbind option_bind brightness_ set_brightness_].
  by rewrite Z.eqb_refl.
Qed.

(** ** Byte order *)

Lemma lor_shiftl_add (hi lo k : Z) :
  0 <= k -> 0 <= lo < 2 ^ k -> Z.lor (Z.shiftl hi k) lo = hi * 2 ^ k + lo.
Proof.
  intros Hk Hlo. rewrite Z.shiftl_mul_pow2 by done.
  assert (Hland : Z.land (hi * 2 ^ k) lo = 0).
  { apply Z.bits_inj'. intros n Hn. rewrite Z.land_spec, Z.bits_0.
    destruct (Z.lt_ge_cases n k) as [Hlt | Hge].
    - by rewrite Z.mul_pow2_bits_low.
    - rewrite <- (Z.mod_small lo (2 ^ k)) by done.
      rewrite Z.mod_pow2_bits_high by lia. apply andb_false_r. }
  rewrite <- Z.lxor_lor by done. symmetry. by apply Z.add_nocarry_lxor.
Qed.

Lemma byte_split (x : Z) :
  0 <= x < 65536 -> u8 (Z.land x 255) + 256 * u8 (Z.shiftr x 8) = x
                    /\ 0 <= u8 (Z.land x 255) < 256 /\ 0 <= u8 (Z.shiftr x 8) < 256.
Proof.
  intros Hx. change 255 with (Z.ones 8). rewrite Z.land_ones by done.
  rewrite Z.shiftr_div_pow2 by done. change (2 ^ 8) with 256. unfold u8.
  rewrite Z.mod_mod by done.
  assert (0 <= x / 256 < 256) by (split; [apply Z.div_pos; lia | apply Z.div_lt_upper_bound; lia]).
  rewrite (Z.mod_small (x / 256)) by done.
  pose proof (Z.div_mod x 256 ltac:(done)). pose proof (Z.mod_pos_bound x 256 ltac:(done)).
  lia.
Qed.

(** The shifts and ors that assemble a reading give the little-endian value
    of its four bytes, which fits 32 bits. *)
Lemma le32_value (b0 b1 b2 b3 : Z) :
  0 <= b0 < 256 -> 0 <= b1 < 256 -> 0 <= b2 < 256 -> 0 <= b3 < 256 ->
  le32 b0 b1 b2 b3 = b0 + 256 * b1 + 65536 * b2 + 16777216 * b3
  /\ 0 <= le32 b0 b1 b2 b3 < 4294967296.
Proof.
  intros H0 H1 H2 H3. unfold le32.
  rewrite (Z.shiftl_mul_pow2 b2 16), (Z.shiftl_mul_pow2 b1 8) by done.
  rewrite (lor_shiftl_add b3 (b2 * 2 ^ 16) 24) by lia.
  replace (b3 * 2 ^ 24 + b2 * 2 ^ 16) with (Z.shiftl (b3 * 2 ^ 8 + b2) 16)
    by (rewrite Z.shiftl_mul_pow2 by done; lia).
  rewrite (lor_shiftl_add _ (b1 * 2 ^ 8) 16) by lia.
  replace ((b3 * 2 ^ 8 + b2) * 2 ^ 16 + b1 * 2 ^ 8)
    with (Z.shiftl ((b3 * 2 ^ 8 + b2) * 2 ^ 8 + b1) 8)
    by (rewrite Z.shiftl_mul_pow2 by done; lia).
  rewrite (lor_shiftl_add _ b0 8) by lia.
  unfold u32. rewrite Z.mod_small by lia. lia.
Qed.

(** X12: the settings payload of [send_settings_] has the ten bytes the
    command announces, every one of them a byte; the fade rate travels
    clamped to 100, so its high byte is always 0, and warm-up brightness and
    warm-up time travel little-endian. *)
Theorem settings_payload_layout (s : ShellyDimmer) (b : Z) :
  0 <= b < 65536 ->
  0 <= fade_rate_ (config s) < 65536 ->
  0 <= warmup_brightness_ (config s) < 65536 ->
  0 <= warmup_time_ (config s) < 65536 ->
  let p := settings_payload s b (Z.min 100 (fade_rate_ (config s))) in
  Z.of_nat (length p) = SHELLY_DIMMER_PROTO_CMD_SETTINGS_SIZE
  /\ Forall (fun c => 0 <= c < 256) p
  /\ p !! 4%nat = Some (Z.min 100 (fade_rate_ (config s)))
  /\ p !! 5%nat = Some 0
  /\ (exists lo hi, p !! 6%nat = Some lo /\ p !! 7%nat = Some hi
                    /\ lo + 256 * hi = warmup_brightness_ (config s))
  /\ (exists lo hi, p !! 8%nat = Some lo /\ p !! 9%nat = Some hi
                    /\ lo + 256 * hi = warmup_time_ (config s)).
Proof.
  intros Hb Hf Hwb Hwt. cbv zeta. unfold settings_payload.
  set (f := Z.min 100 (fade_rate_ (config s))).
  assert (Hfr : 0 <= f <= 100) by (unfold f; lia).
  destruct (byte_split b Hb) as (_ & Hb0 & Hb1).
  destruct (byte_split f ltac:(lia)) as (Hfs & Hf0 & Hf1).
  destruct (byte_split _ Hwb) as (Hwbs & Hwb0 & Hwb1).
  destruct (byte_split _ Hwt) as (Hwts & Hwt0 & Hwt1).
  assert (Hfhi : u8 (Z.shiftr f 8) = 0).
  { rewrite Z.shiftr_div_pow2 by done. rewrite Z.div_small by (change (2 ^ 8) with 256; lia).
    done. }
  assert (Hflo : u8 (Z.land f 255) = f) by lia.
  split_and!.
  - done.
  - repeat constructor; try done; try lia.
    all: by destruct (leading_edge_ (config s)).
  - cbn [lookup list_lookup]. by rewrite Hflo.
  - cbn [lookup list_lookup]. by rewrite Hfhi.
  - eexists _, _. split_and!; [done | done |]. done.
  - eexists _, _. split_and!; [done | done |]. done.
Qed.

(** ** Replies *)

Lemma wire_frame_bytes (seq cmd : Z) (p : list Z) :
  0 <= seq < 256 -> 0 <= cmd < 256 -> (length p <= 255)%nat ->
  Forall (fun c => 0 <= c < 256) p ->
  Forall (fun c => 0 <= c < 256) (wire_frame seq cmd p).
Proof.
  intros Hs Hc Hl Hp. unfold wire_frame.
  pose proof (sum16_range (seq :: cmd :: Z.of_nat (length p) :: p) 0 ltac:(lia)) as Hsum.
  set (csum := sum16 0 _) in *.
  apply Forall_app. split; [| apply Forall_app; split; [done |]].
  - rewrite !Forall_cons. unfold SHELLY_DIMMER_PROTO_START_BYTE. split_and!; try lia. done.
  - rewrite !Forall_cons. unfold SHELLY_DIMMER_PROTO_END_BYTE. split_and!; try lia; try done.
    + rewrite Z.shiftr_div_pow2 by done. apply Z.div_pos; lia.
    + rewrite Z.shiftr_div_pow2 by done. apply Z.div_lt_upper_bound; lia.
    + change 255 with (Z.ones 8). rewrite Z.land_ones by done.
      apply Z.mod_pos_bound. done.
    + change 255 with (Z.ones 8). rewrite Z.land_ones by done.
      apply Z.mod_pos_bound. done.
Qed.

(** A byte that completes a frame has been dispatched. *)
Lemma read_byte__complete c s s' :
  read_byte_ c s = Some (0, s') ->
  exists ok sh,
    handle_frame_ (set_buffer_ (<[Z.to_nat (buffer_pos_ s) := c]> (buffer_ s)) s) = Some (ok, sh)
    /\ s' = set_buffer_pos_ 0 sh.
Proof.
  unfold read_byte_. intros H.
  destruct (wr _ _ _) as [buf |] eqn:Hw; cbn [mbind option_bind] in H; [| done].
  apply wr_Some_inv in Hw as [_ ->].
  destruct (handle_byte_ _ c) as [r0 |]; cbn [mbind option_bind] in H; [| done].
  destruct (Z.eqb_spec r0 0) as [Hr | Hr].
  - destruct (handle_frame_ _) as [[ok sh] |]; cbn [mbind option_bind] in H; [| done].
    injection H as _ <-. by exists ok, sh.
  - destruct (r0 =? -1); [injection H as H _; congruence |].
    destruct (r0 =? 1); injection H as H _; congruence.
Qed.

Lemma stored_frame_end (F buf : list Z) (k : nat) c :
  F !! k = Some c -> length F = S k -> (k < length buf)%nat ->
  <[k := c]> (take k F ++ drop k buf) = F ++ drop (length F) buf.
Proof.
  intros Hc HF Hk.
  destruct (lookup_lt_is_Some_2 buf k Hk) as [y Hy].
  assert (HFs : F = take k F ++ [c]).
  { rewrite <- (take_drop k F) at 1. by rewrite (drop_S _ _ _ Hc), (drop_ge F (S k)) by lia. }
  rewrite insert_app_r_alt by (rewrite length_take; lia).
  rewrite length_take. replace (k - k `min` length F)%nat with 0%nat by lia.
  rewrite (drop_S _ _ _ Hy). cbn [insert list_insert].
  rewrite HF. rewrite HFs at 2. by rewrite <- app_assoc.
Qed.

(** The end marker of a frame, exposing the dispatch. *)
Lemma read_byte__frame_dispatch (seq cmd : Z) (p : list Z) (s : ShellyDimmer) :
  (length p <= 72)%nat ->
  Z.of_nat (length (buffer_ s)) = SHELLY_DIMMER_BUFFER_SIZE ->
  exists ok sh,
    handle_frame_ (set_buffer_ (wire_frame seq cmd p
                                  ++ drop (length (wire_frame seq cmd p)) (buffer_ s))
                     (set_buffer_pos_ (Z.of_nat (6 + length p)) s)) = Some (ok, sh)
    /\ read_byte_ SHELLY_DIMMER_PROTO_END_BYTE (stored (wire_frame seq cmd p) (6 + length p) s)
       = Some (0, set_buffer_pos_ 0 sh).
Proof.
  intros Hp Hsz. unfold SHELLY_DIMMER_PROTO_MAX_FRAME_SIZE in buffer_fits.
  pose proof (wire_frame_length seq cmd p) as HF.
  destruct (wire_frame_trailer seq cmd p) as (_ & _ & Fend).
  destruct (read_byte__frame_end seq cmd p ltac:(lia) s Hsz) as (s' & E & _).
  pose proof E as E0. apply read_byte__complete in E0 as (ok & sh & Hf & ->).
  exists ok, sh. split; [| done].
  rewrite <- Hf. f_equal.
  unfold stored, set_buffer_, set_buffer_pos_.
  cbn [config seq_ buffer_ buffer_pos_ brightness_ version_major_ version_minor_ ready_
       failed_ power_sensor_ voltage_sensor_ current_sensor_ poll_interval_ upgrades_ env].
  f_equal. rewrite Nat2Z.id. symmetry. apply stored_frame_end; [done | lia | lia].
Qed.

Lemma feed_frame_segment (seq cmd : Z) (p : list Z) (s : ShellyDimmer) (n : nat) : forall k,
  (length p <= 72)%nat ->
  Z.of_nat (length (buffer_ s)) = SHELLY_DIMMER_BUFFER_SIZE ->
  (k + n < length (wire_frame seq cmd p))%nat ->
  feed (take n (drop k (wire_frame seq cmd p))) (stored (wire_frame seq cmd p) k s)
  = Some (replicate n 1, stored (wire_frame seq cmd p) (k + n) s).
Proof.
  unfold SHELLY_DIMMER_PROTO_MAX_FRAME_SIZE in buffer_fits.
  induction n as [| n IH]; intros k Hp Hsz Hk.
  - rewrite take_0, Nat.add_0_r. done.
  - destruct (lookup_lt_is_Some_2 (wire_frame seq cmd p) k) as [c Hc]; [lia |].
    rewrite (drop_S _ _ _ Hc), firstn_cons. cbn [feed].
    rewrite (read_byte__frame seq cmd p ltac:(lia) ltac:(lia) k c s Hsz Hc ltac:(lia)).
    cbn [mbind option_bind]. rewrite IH by (done || lia). cbn [mbind option_bind replicate].
    by replace (S k + n)%nat with (k + S n)%nat by lia.
Qed.

(** The rest of a frame, from any cursor inside it, completes the frame. *)
Lemma feed_frame_rest (seq cmd : Z) (p : list Z) (s : ShellyDimmer) (k : nat) :
  (length p <= 72)%nat ->
  Z.of_nat (length (buffer_ s)) = SHELLY_DIMMER_BUFFER_SIZE ->
  (k < length (wire_frame seq cmd p))%nat ->
  exists ok sh,
    handle_frame_ (set_buffer_ (wire_frame seq cmd p
                                  ++ drop (length (wire_frame seq cmd p)) (buffer_ s))
                     (set_buffer_pos_ (Z.of_nat (6 + length p)) s)) = Some (ok, sh)
    /\ feed (drop k (wire_frame seq cmd p)) (stored (wire_frame seq cmd p) k s)
       = Some (replicate (6 + length p - k) 1 ++ [0], set_buffer_pos_ 0 sh).
Proof.
  intros Hp Hsz Hk.
  pose proof (wire_frame_length seq cmd p) as HF.
  destruct (wire_frame_trailer seq cmd p) as (_ & _ & Fend).
  destruct (read_byte__frame_dispatch seq cmd p s Hp Hsz) as (ok & sh & Hf & E).
  exists ok, sh. split; [done |].
  rewrite <- (take_drop (6 + length p - k) (drop k (wire_frame seq cmd p))).
  rewrite drop_drop. replace (k + (6 + length p - k))%nat with (6 + length p)%nat by lia.
  rewrite (drop_S _ _ _ Fend), (drop_ge (wire_frame seq cmd p) (S (6 + length p))) by lia.
  rewrite feed_app, feed_frame_segment by (done || lia).
  cbn [mbind option_bind].
  replace (k + (6 + length p - k))%nat with (6 + length p)%nat by lia.
  rewrite feed_single, E. done.
Qed.

Lemma feed_length (bytes : list Z) : forall s codes s1,
  feed bytes s = Some (codes, s1) -> length codes = length bytes.
Proof.
  induction bytes as [| c bs IH]; intros s codes s1 H; cbn [feed] in H.
  - by injection H as <- _.
  - destruct (read_byte_ c s) as [[r s2] |]; cbn [mbind option_bind] in H; [| done].
    destruct (feed bs s2) as [[rs s3] |] eqn:E; cbn [mbind option_bind] in H; [| done].
    injection H as <- _. cbn [length]. f_equal. by eapply IH.
Qed.

(** [read_frame_] over bytes that do not complete a frame. *)
Lemma read_frame_loop_partial (bytes : list Z) : forall s s1,
  Forall (fun c => 0 <= c < 256) bytes ->
  feed bytes s = Some (replicate (length bytes) 1, s1) ->
  read_frame_loop bytes s = Some (false, set_env (set_rx [] (env s1)) s1).
Proof.
  induction bytes as [| c bs IH]; intros s s1 Hb H.
  - by injection H as <-.
  - apply Forall_cons in Hb as [Hc Hb]. cbn [feed] in H. cbn [read_frame_loop].
    unfold u8. rewrite Z.mod_small by done.
    destruct (read_byte_ c s) as [[r s2] |]; cbn [mbind option_bind] in *; [| done].
    destruct (feed bs s2) as [[rs s3] |] eqn:E; cbn [mbind option_bind] in H; [| done].
    cbn [length replicate] in H. injection H as -> -> ->.
    change (1 =? 0) with false. cbv iota. by apply IH.
Qed.

(** [read_frame_] over bytes that complete a frame: what follows the frame
    stays in the UART. *)
Lemma read_frame_loop_complete (bytes rest : list Z) : forall (n : nat) s s1,
  Forall (fun c => 0 <= c < 256) bytes ->
  feed bytes s = Some (replicate n 1 ++ [0], s1) ->
  read_frame_loop (bytes ++ rest) s = Some (true, set_env (set_rx rest (env s1)) s1).
Proof.
  induction bytes as [| c bs IH]; intros n s s1 Hb H.
  - cbn [feed] in H. injection H as H _. by destruct n.
  - apply Forall_cons in Hb as [Hc Hb]. cbn [feed] in H.
    rewrite <- app_comm_cons. cbn [read_frame_loop].
    unfold u8. rewrite Z.mod_small by done.
    destruct (read_byte_ c s) as [[r s2] |]; cbn [mbind option_bind] in *; [| done].
    destruct (feed bs s2) as [[rs s3] |] eqn:E; cbn [mbind option_bind] in H; [| done].
    destruct n as [| n]; cbn [replicate app] in H; injection H as -> -> ->.
    + pose proof (feed_length _ _ _ _ E) as Hl. destruct bs; [| done].
      cbn [feed] in E. injection E as <-. done.
    + change (1 =? 0) with false. cbv iota. by eapply IH.
Qed.

Lemma concat_last_nonempty (l : list (list Z)) :
  l <> [] -> last l <> Some [] -> concat l <> [].
Proof.
  induction l as [| a l IH]; [done |]. intros _ H.
  destruct l as [| b l].
  - cbn [last concat] in *. rewrite app_nil_r. congruence.
  - cbn [concat]. intros Hnil. apply app_eq_nil in Hnil as [_ Hnil].
    by apply IH.
Qed.

(** The polling loop while a frame arrives in pieces: [rx e] holds what came
    in last and [cs] lists the pieces still to come, one per millisecond. *)
Lemma wait_ack_frame (seq cmd : Z) (p : list Z) (more : list (list Z)) (s0 : ShellyDimmer)
    (tx_time : Z) (cs : list (list Z)) : forall (k : nat) (e : Env) (fuel : nat),
  (length p <= 72)%nat ->
  Forall (fun c => 0 <= c < 256) (wire_frame seq cmd p) ->
  Z.of_nat (length (buffer_ s0)) = SHELLY_DIMMER_BUFFER_SIZE ->
  incoming e = cs ++ more ->
  rx e ++ concat cs = drop k (wire_frame seq cmd p) ->
  last (rx e :: cs) <> Some [] ->
  u32 (millis e - tx_time) + Z.of_nat (length cs) < SHELLY_DIMMER_ACK_TIMEOUT ->
  (length cs < fuel)%nat ->
  exists e' ok sh,
    handle_frame_ (set_buffer_ (wire_frame seq cmd p
                                  ++ drop (length (wire_frame seq cmd p)) (buffer_ s0))
                     (set_buffer_pos_ (Z.of_nat (6 + length p)) (set_env e' s0)))
      = Some (ok, sh)
    /\ wait_ack fuel tx_time (stored (wire_frame seq cmd p) k (set_env e s0))
       = Some (true, set_env (set_rx [] e') (set_buffer_pos_ 0 sh))
    /\ incoming e' = more /\ tx e' = tx e /\ nrst e' = nrst e /\ boot0 e' = boot0 e
    /\ u32 (millis e') = u32 (millis e + Z.of_nat (length cs)).
Proof.
  induction cs as [| c1 cs IH]; intros k e fuel Hp HbF Hsz Hinc Hcat Hlast Hwin Hfuel.
  - cbn [concat length] in *. rewrite app_nil_r in Hcat.
    assert (Hk : (k < length (wire_frame seq cmd p))%nat).
    { destruct (decide (k < length (wire_frame seq cmd p))%nat) as [| Hge]; [done |].
      rewrite drop_ge in Hcat by lia. cbn [last] in Hlast. congruence. }
    destruct (feed_frame_rest seq cmd p (set_env e s0) k Hp Hsz Hk) as (ok & sh & Hf & E).
    exists e, ok, sh. split; [exact Hf |].
    split; [| rewrite Z.add_0_r; done].
    destruct fuel as [| fuel]; [lia |]. cbn [wait_ack].
    change (env (stored (wire_frame seq cmd p) k (set_env e s0))) with e.
    destruct (Z.ltb_spec (u32 (millis e - tx_time)) SHELLY_DIMMER_ACK_TIMEOUT); [| lia].
    unfold read_frame_.
    change (env (stored (wire_frame seq cmd p) k (set_env e s0))) with e.
    rewrite Hcat. rewrite <- (app_nil_r (drop k (wire_frame seq cmd p))) at 1.
    rewrite (read_frame_loop_complete _ [] _ _ _ (Forall_drop _ _ _ HbF) E).
    cbn [mbind option_bind]. do 2 f_equal.
    apply handle_frame__inv in Hf as (_ & _ & Hq).
    destruct Hq as (_ & _ & _ & _ & _ & _ & _ & Hq).
    cbn [env set_buffer_pos_]. rewrite Hq. done.
  - assert (Hne : concat (c1 :: cs) <> []) by (by apply concat_last_nonempty).
    set (n := length (rx e)).
    assert (Hrx : take n (drop k (wire_frame seq cmd p)) = rx e).
    { rewrite <- Hcat. unfold n. by rewrite take_app_length. }
    assert (Hrest : drop (k + n) (wire_frame seq cmd p) = c1 ++ concat cs).
    { rewrite <- drop_drop, <- Hcat. unfold n. by rewrite drop_app_length. }
    assert (Hk : (k + n < length (wire_frame seq cmd p))%nat).
    { destruct (decide (k + n < length (wire_frame seq cmd p))%nat) as [| Hge]; [done |].
      rewrite drop_ge in Hrest by lia. by cbn [concat] in Hne. }
    cbn [length] in Hwin, Hfuel.
    destruct fuel as [| fuel]; [lia |].
    destruct (IH (k + n)%nat (tick (set_rx [] e)) fuel) as (e' & ok & sh & Hf & Hw & H1 & H2 & H3 & H4 & H5);
      try done.
    + cbn [tick set_rx incoming]. by rewrite Hinc.
    + cbn [tick set_rx incoming rx]. rewrite Hinc. cbn [hd app]. done.
    + cbn [tick set_rx incoming rx]. rewrite Hinc. cbn [hd app]. done.
    + cbn [tick set_rx millis]. rewrite elapsed_next by lia. lia.
    + lia.
    + exists e', ok, sh. split; [exact Hf |].
      split; [| split_and!; try done].
      * cbn [wait_ack].
        change (env (stored (wire_frame seq cmd p) k (set_env e s0))) with e.
        destruct (Z.ltb_spec (u32 (millis e - tx_time)) SHELLY_DIMMER_ACK_TIMEOUT); [| lia].
        unfold read_frame_.
        change (env (stored (wire_frame seq cmd p) k (set_env e s0))) with e.
        rewrite (read_frame_loop_partial (rx e) _
                   (stored (wire_frame seq cmd p) (k + n) (set_env e s0))).
        -- cbn [mbind option_bind]. exact Hw.
        -- rewrite <- Hrx. apply Forall_take, Forall_drop, HbF.
        -- fold n. rewrite <- Hrx at 1. by apply feed_frame_segment.
      * rewrite H5. cbn [tick set_rx millis]. unfold u32.
        rewrite Zplus_mod_idemp_l. f_equal. cbn [length]. lia.
Qed.

(** A frame under another sequence number is dispatched to nothing. *)
Lemma handle_frame__stale (st : ShellyDimmer) (seq cmd len : Z) :
  rd (buffer_ st) 1 = Some seq -> rd (buffer_ st) 2 = Some cmd ->
  rd (buffer_ st) 3 = Some len -> seq <> seq_ st ->
  handle_frame_ st = Some (false, st).
Proof.
  intros H1 H2 H3 Hne. unfold handle_frame_. rewrite H1, H2, H3.
  cbn [mbind option_bind]. by destruct (Z.eqb_spec seq (seq_ st)).
Qed.

(** A version report under the current sequence number is recorded. *)
Lemma handle_frame__version (st : ShellyDimmer) (len minor major : Z) :
  rd (buffer_ st) 1 = Some (seq_ st) ->
  rd (buffer_ st) 2 = Some SHELLY_DIMMER_PROTO_CMD_VERSION ->
  rd (buffer_ st) 3 = Some len -> 2 <= len ->
  rd (buffer_ st) 4 = Some minor -> rd (buffer_ st) 5 = Some major ->
  handle_frame_ st = Some (true, set_version_major_ major (set_version_minor_ minor st)).
Proof.
  intros H1 H2 H3 Hlen H4 H5. unfold handle_frame_. rewrite H1, H2, H3.
  cbn [mbind option_bind]. rewrite Z.eqb_refl. cbn [negb].
  change (SHELLY_DIMMER_PROTO_CMD_VERSION =? SHELLY_DIMMER_PROTO_CMD_POLL) with false.
  rewrite Z.eqb_refl. cbv iota.
  destruct (Z.ltb_spec len 2); [lia |].
  change (4 + 0) with 4. change (4 + 1) with 5. rewrite H4. cbn [mbind option_bind].
  cbn [buffer_ set_version_minor_]. rewrite H5. done.
Qed.

Lemma rd_frame (F R : list Z) (i : nat) :
  (i < length F)%nat -> rd (F ++ R) (Z.of_nat i) = F !! i.
Proof. intros Hi. by rewrite rd_lookup, lookup_app_l. Qed.

(** A command whose wait sees a whole frame arrive, in pieces, one piece per
    millisecond: the first transmission is the only one. *)
Lemma send_command__arrival (c : Z) (payload : option (list Z)) (len : Z) (s : ShellyDimmer)
    (seq cmd : Z) (p : list Z) (cs more : list (list Z)) :
  Z.of_nat (length (buffer_ s)) = SHELLY_DIMMER_BUFFER_SIZE ->
  buffer_pos_ s = 0 ->
  len = Z.of_nat (length (payload_bytes payload)) -> len <= 72 ->
  0 <= seq < 256 -> 0 <= cmd < 256 ->
  (length p <= 72)%nat -> Forall (fun b => 0 <= b < 256) p ->
  incoming (env s) = cs ++ more ->
  rx (env s) ++ concat cs = wire_frame seq cmd p ->
  last (rx (env s) :: cs) <> Some [] ->
  (length cs < 200)%nat ->
  exists e' ok sh,
    handle_frame_ (set_buffer_ (wire_frame seq cmd p
                                  ++ drop (length (wire_frame seq cmd p)) (buffer_ s))
                     (set_buffer_pos_ (Z.of_nat (6 + length p))
                        (set_env e' (set_seq_ (u8 (seq_ s + 1)) s))))
      = Some (ok, sh)
    /\ send_command_ c payload len s
       = Some (true, set_env (set_rx [] e') (set_buffer_pos_ 0 sh))
    /\ incoming e' = more
    /\ tx e' = tx (env s) ++ [wire_frame (u8 (seq_ s + 1)) (u8 c) (payload_bytes payload)]
    /\ nrst e' = nrst (env s) /\ boot0 e' = boot0 (env s)
    /\ u32 (millis e') = u32 (millis (env s) + Z.of_nat (length cs)).
Proof.
  intros Hsz Hpos Hlen H72 Hseq Hcmd Hp Hpb Hinc Hcat Hlast Hcs.
  unfold send_command_.
  assert (Hu : u8 len = len) by (unfold u8; apply Z.mod_small; lia).
  rewrite Hu.
  destruct (frame_command__frame
              (replicate (Z.to_nat SHELLY_DIMMER_PROTO_MAX_FRAME_SIZE) 0) c payload len s)
    as (data' & E & _ & Hw); [done | lia | |].
  { rewrite length_replicate. unfold SHELLY_DIMMER_PROTO_MAX_FRAME_SIZE. lia. }
  rewrite E. cbn [mbind option_bind]. rewrite Hw.
  set (fr := wire_frame (u8 (seq_ s + 1)) (u8 c) (payload_bytes payload)).
  set (s0 := set_seq_ (u8 (seq_ s + 1)) s).
  change (Z.to_nat SHELLY_DIMMER_MAX_RETRIES) with 3%nat. cbn [send_attempts].
  change (env (set_env (write_array fr (env s0)) s0)) with (write_array fr (env s)).
  set (e := write_array fr (env s)).
  destruct (wait_ack_frame seq cmd p more s0 (millis e) cs 0 e
              (S (Z.to_nat SHELLY_DIMMER_ACK_TIMEOUT)))
    as (e' & ok & sh & Hf & Hwait & H1 & H2 & H3 & H4 & H5); try done.
  - apply wire_frame_bytes; [done | done | lia | done].
  - rewrite Z.sub_diag. change (u32 0) with 0. unfold SHELLY_DIMMER_ACK_TIMEOUT. lia.
  - unfold SHELLY_DIMMER_ACK_TIMEOUT. lia.
  - exists e', ok, sh. split; [exact Hf |]. split; [| done].
    rewrite stored_0 in Hwait by done.
    change (set_env e s0) with (set_env (write_array fr (env s0)) s0) in Hwait.
    rewrite Hwait. done.
Qed.

(** X13: [send_command_] takes any complete frame for the acknowledgement.
    When a well-formed frame arrives within the first window, in pieces of
    any size, the call returns true after a single transmission, whatever
    sequence number and command the frame carries; under a sequence number
    other than the one just sent the frame is dispatched to nothing, so the
    stored version and the sensors are as before. *)
Theorem any_frame_ends_wait (c : Z) (payload : option (list Z)) (len : Z) (s : ShellyDimmer)
    (seq cmd : Z) (p : list Z) (cs more : list (list Z)) :
  Z.of_nat (length (buffer_ s)) = SHELLY_DIMMER_BUFFER_SIZE ->
  buffer_pos_ s = 0 ->
  len = Z.of_nat (length (payload_bytes payload)) -> len <= 72 ->
  0 <= seq < 256 -> 0 <= cmd < 256 ->
  (length p <= 72)%nat -> Forall (fun b => 0 <= b < 256) p ->
  incoming (env s) = cs ++ more ->
  rx (env s) ++ concat cs = wire_frame seq cmd p ->
  last (rx (env s) :: cs) <> Some [] ->
  (length cs < 200)%nat ->
  exists s',
    send_command_ c payload len s = Some (true, s')
    /\ tx (env s') = tx (env s)
         ++ [wire_frame (u8 (seq_ s + 1)) (u8 c) (payload_bytes payload)]
    /\ rx (env s') = [] /\ incoming (env s') = more
    /\ u32 (millis (env s')) = u32 (millis (env s) + Z.of_nat (length cs))
    /\ seq_ s' = u8 (seq_ s + 1) /\ buffer_pos_ s' = 0
    /\ (seq <> u8 (seq_ s + 1) ->
        version_major_ s' = version_major_ s /\ version_minor_ s' = version_minor_ s
        /\ power_sensor_ s' = power_sensor_ s /\ voltage_sensor_ s' = voltage_sensor_ s
        /\ current_sensor_ s' = current_sensor_ s).
Proof.
  intros Hsz Hpos Hlen H72 Hseq Hcmd Hp Hpb Hinc Hcat Hlast Hcs.
  destruct (send_command__arrival c payload len s seq cmd p cs more)
    as (e' & ok & sh & Hf & E & H1 & H2 & H3 & H4 & H5); try done.
  eexists. split; [exact E |].
  cbn [env set_env set_rx rx incoming tx millis seq_ buffer_pos_ set_buffer_pos_].
  pose proof Hf as Hinv. apply handle_frame__inv in Hinv as (_ & _ & Hq).
  destruct Hq as (_ & Hqseq & _).
  split_and!; try done.
  intros Hne.
  pose proof (wire_frame_length seq cmd p) as HF.
  destruct (wire_frame_header seq cmd p) as (_ & F1 & F2 & F3).
  rewrite (handle_frame__stale _ seq cmd (Z.of_nat (length p))) in Hf.
  - by injection Hf as _ <-.
  - cbn [buffer_ set_buffer_]. change 1 with (Z.of_nat 1). by rewrite rd_frame by lia.
  - cbn [buffer_ set_buffer_]. change 2 with (Z.of_nat 2). by rewrite rd_frame by lia.
  - cbn [buffer_ set_buffer_]. change 3 with (Z.of_nat 3). by rewrite rd_frame by lia.
  - done.
Qed.

(** X14: a version report that arrives under the sequence number just sent
    is recorded, minor byte first, whichever command was sent. *)
Theorem version_reply_recorded (c : Z) (payload : option (list Z)) (len : Z)
    (s : ShellyDimmer) (minor major : Z) (p : list Z) (cs more : list (list Z)) :
  Z.of_nat (length (buffer_ s)) = SHELLY_DIMMER_BUFFER_SIZE ->
  buffer_pos_ s = 0 ->
  len = Z.of_nat (length (payload_bytes payload)) -> len <= 72 ->
  (length p <= 70)%nat -> Forall (fun b => 0 <= b < 256) (minor :: major :: p) ->
  incoming (env s) = cs ++ more ->
  rx (env s) ++ concat cs
  = wire_frame (u8 (seq_ s + 1)) SHELLY_DIMMER_PROTO_CMD_VERSION (minor :: major :: p) ->
  last (rx (env s) :: cs) <> Some [] ->
  (length cs < 200)%nat ->
  exists s',
    send_command_ c payload len s = Some (true, s')
    /\ version_minor_ s' = minor /\ version_major_ s' = major
    /\ tx (env s') = tx (env s)
         ++ [wire_frame (u8 (seq_ s + 1)) (u8 c) (payload_bytes payload)].
Proof.
  intros Hsz Hpos Hlen H72 Hp Hpb Hinc Hcat Hlast Hcs.
  assert (Hseq : 0 <= u8 (seq_ s + 1) < 256) by (apply Z.mod_pos_bound; done).
  destruct (send_command__arrival c payload len s (u8 (seq_ s + 1))
              SHELLY_DIMMER_PROTO_CMD_VERSION (minor :: major :: p) cs more)
    as (e' & ok & sh & Hf & E & H1 & H2 & _); try done.
  { cbn [length]. lia. }
  eexists. split; [exact E |].
  set (F := wire_frame (u8 (seq_ s + 1)) SHELLY_DIMMER_PROTO_CMD_VERSION (minor :: major :: p))
    in *.
  pose proof (wire_frame_length (u8 (seq_ s + 1)) SHELLY_DIMMER_PROTO_CMD_VERSION
                (minor :: major :: p)) as HF.
  destruct (wire_frame_header (u8 (seq_ s + 1)) SHELLY_DIMMER_PROTO_CMD_VERSION
              (minor :: major :: p)) as (_ & F1 & F2 & F3).
  pose proof (wire_frame_payload (u8 (seq_ s + 1)) SHELLY_DIMMER_PROTO_CMD_VERSION
                (minor :: major :: p) 0 ltac:(cbn [length]; lia)) as F4.
  pose proof (wire_frame_payload (u8 (seq_ s + 1)) SHELLY_DIMMER_PROTO_CMD_VERSION
                (minor :: major :: p) 1 ltac:(cbn [length]; lia)) as F5.
  fold F in HF, F1, F2, F3, F4, F5. cbn [length] in HF.
  rewrite (handle_frame__version _ (Z.of_nat (length (minor :: major :: p))) minor major) in Hf.
  - injection Hf as _ <-. split_and!; done.
  - cbn [buffer_ set_buffer_]. change 1 with (Z.of_nat 1). by rewrite rd_frame by lia.
  - cbn [buffer_ set_buffer_]. change 2 with (Z.of_nat 2). by rewrite rd_frame by lia.
  - cbn [buffer_ set_buffer_]. change 3 with (Z.of_nat 3). by rewrite rd_frame by lia.
  - cbn [length]. lia.
  - cbn [buffer_ set_buffer_]. change 4 with (Z.of_nat (4 + 0)). by rewrite rd_frame by lia.
  - cbn [buffer_ set_buffer_]. change 5 with (Z.of_nat (4 + 1)). by rewrite rd_frame by lia.
Qed.

(** ** Upgrade orchestrator *)

(** The copy loop from the [i]-th chunk on, with [count] whole chunks to
    go: the whole chunks are written in order; what follows them is the
    end of the loop for an image of whole chunks, and a read of 256 bytes
    where the image has fewer for any other image. *)
Lemma write_chunks_from (stm32 : stm32_t) (start : Z) (count : nat) :
  forall (i fuel : nat) (buffer : list Z) (e : Env),
  let n := Z.of_nat (length STM_FIRMWARE) in
  0 <= start -> start + n < 4294967296 ->
  Z.of_nat (i + count) = n / 256 ->
  length buffer = 256%nat ->
  (count < fuel)%nat ->
  write_chunks fuel stm32 buffer (256 * Z.of_nat i) (256 * Z.of_nat i)
    (start + 256 * Z.of_nat i) (start + n) n e
  = (let '(ok, e2) :=
       write_plan stm32
         (map (fun i : nat =>
                 let off := 256 * Z.of_nat i in
                 (start + off, take 256 (drop (Z.to_nat off) STM_FIRMWARE), 256))
              (seq i count)) e in
     if ok then if n mod 256 =? 0 then Some (true, e2) else None
     else Some (false, e2)).
Proof.
  induction count as [| count IH]; intros i fuel buffer e n Hs Hend Hi Hbuf Hfuel.
  - destruct fuel as [| fuel]; [lia |]. cbn [write_chunks seq map write_plan].
    pose proof (Z.div_mod n 256 ltac:(done)) as Hdm.
    pose proof (Z.mod_pos_bound n 256 ltac:(done)) as Hmb.
    rewrite Nat.add_0_r in Hi. fold n. rewrite Hi.
    destruct (Z.eqb_spec (n mod 256) 0) as [Hz | Hnz].
    + replace (256 * (n / 256)) with n by lia.
      destruct (Z.ltb_spec n n); [lia |]. by rewrite andb_false_r.
    + set (off := 256 * (n / 256)) in *.
      destruct (Z.ltb_spec (start + off) (start + n)); [| lia].
      destruct (Z.ltb_spec off n); [| lia]. cbn [andb].
      replace (u32 (start + n - (start + off))) with (n - off)
        by (unfold u32; rewrite Z.mod_small; lia).
      replace (u32 (n - off)) with (n - off) by (unfold u32; rewrite Z.mod_small; lia).
      rewrite !Z.gtb_ltb.
      destruct (Z.ltb_spec (n - off) 256); [| lia].
      destruct (Z.ltb_spec (n - off) (n - off)); [lia |].
      destruct (Z.eqb_spec (n - off) 0); [lia |].
      rewrite memcpy_short by (rewrite length_drop; lia). done.
  - destruct fuel as [| fuel]; [lia |].
    pose proof (Z.div_mod n 256 ltac:(done)) as Hdm.
    pose proof (Z.mod_pos_bound n 256 ltac:(done)) as Hmb.
    set (off := 256 * Z.of_nat i) in *.
    assert (Hfull : off + 256 <= n) by (unfold off; lia).
    cbn [seq map]. cbv beta zeta. fold n off. cbn [write_chunks write_plan].
    destruct (Z.ltb_spec (start + off) (start + n)); [| lia].
    destruct (Z.ltb_spec off n); [| lia]. cbn [andb].
    replace (u32 (start + n - (start + off))) with (n - off)
      by (unfold u32; rewrite Z.mod_small; lia).
    replace (u32 (n - off)) with (n - off) by (unfold u32; rewrite Z.mod_small; lia).
    rewrite !Z.gtb_ltb.
    destruct (Z.ltb_spec (n - off) 256); [lia |].
    destruct (Z.ltb_spec (n - off) 256); [lia |].
    change (256 =? 0) with false. cbv iota.
    rewrite memcpy_chunk by (rewrite ?length_drop; lia). cbn [mbind option_bind].
    destruct (stm32_write_memory stm32 (start + off) _ 256 e) as [ok e1].
    destruct ok; cbn [negb]; [| done].
    replace (u32 (off + 256)) with (256 * Z.of_nat (S i))
      by (unfold u32, off; rewrite Z.mod_small; lia).
    replace (u32 (start + off + 256)) with (start + 256 * Z.of_nat (S i))
      by (unfold u32, off; rewrite Z.mod_small; lia).
    replace (off + 256) with (256 * Z.of_nat (S i)) by (unfold off; lia).
    apply IH; try done; try lia.
    + fold n. lia.
    + rewrite length_take, length_drop. lia.
Qed.

(** The bytes that the plan writes, chunk after chunk, are the whole chunks
    of the image. *)
Lemma chunk_plan_from (count : nat) : forall i : nat,
  let n := Z.of_nat (length STM_FIRMWARE) in
  Z.of_nat (i + count) = n / 256 ->
  concat (map (fun i : nat =>
                 take (Z.to_nat 256)
                      (take 256 (drop (Z.to_nat (256 * Z.of_nat i)) STM_FIRMWARE)))
              (seq i count))
  = take (256 * count) (drop (256 * i) STM_FIRMWARE).
Proof.
  induction count as [| count IH]; intros i n Hi.
  - cbn [seq map concat]. by rewrite Nat.mul_0_r, take_0.
  - pose proof (Z.div_mod n 256 ltac:(done)) as Hdm.
    pose proof (Z.mod_pos_bound n 256 ltac:(done)) as Hmb.
    cbn [seq map concat]. rewrite IH by (fold n; lia).
    change (Z.to_nat 256) with 256%nat. rewrite take_take. change (256 `min` 256)%nat with 256%nat.
    replace (Z.to_nat (256 * Z.of_nat i)) with (256 * i)%nat by lia.
    replace (256 * S i)%nat with (256 * i + 256)%nat by lia.
    rewrite <- drop_drop.
    replace (256 * S count)%nat with (256 + 256 * count)%nat by lia.
    by rewrite <- take_take_drop.
Qed.

(** X15: when the bootloader answers and the erase succeeds,
    [upgrade_firmware_] writes the whole 256-byte chunks of the image in
    order from the start of flash, stopping and closing at the first write
    that fails.  After them, an image that is a whole number of chunks has
    been written completely, byte for byte, and the call closes and returns
    true; for any other image the copy of the last, shorter chunk reads 256
    bytes where the image has fewer left, which is undefined. *)
Theorem upgrade_writes_image (s : ShellyDimmer) (stm32 : stm32_t) (e0 e1 : Env) :
  let s1 := reset_dfu_boot_ (set_upgrades_ (S (upgrades_ s)) s) in
  let n := Z.of_nat (length STM_FIRMWARE) in
  0 <= fl_start stm32 ->
  fl_start stm32 + n < 4294967296 ->
  stm32_init (env s1) = (Some stm32, e0) ->
  stm32_erase_memory stm32 e0 = (true, e1) ->
  upgrade_firmware_ s
  = (let '(ok, e2) := write_plan stm32 (chunk_plan (fl_start stm32)) e1 in
     if ok then
       if n mod 256 =? 0 then Some (true, set_env (stm32_close stm32 e2) s1) else None
     else Some (false, set_env e2 s1))
  /\ (n mod 256 <> 0 ->
      forall buffer,
        memcpy buffer 0 (drop (Z.to_nat (256 * (n / 256))) STM_FIRMWARE) 256 = None)
  /\ (n mod 256 = 0 ->
      concat (map (fun w : Z * list Z * Z => take (Z.to_nat w.2) w.1.2)
                (chunk_plan (fl_start stm32)))
      = STM_FIRMWARE).
Proof.
  intros s1 n Hs Hend Hinit Herase.
  pose proof (Z.div_mod n 256 ltac:(done)) as Hdm.
  pose proof (Z.mod_pos_bound n 256 ltac:(done)) as Hmb.
  assert (Hq : 0 <= n / 256) by (apply Z.div_pos; lia).
  split_and!.
  - unfold upgrade_firmware_. fold s1. rewrite Hinit, Herase. cbn [negb].
    fold n.
    replace (u32 n) with n by (unfold u32; rewrite Z.mod_small; lia).
    replace (u32 (fl_start stm32)) with (fl_start stm32)
      by (unfold u32; rewrite Z.mod_small; lia).
    replace (u32 (fl_start stm32 + n)) with (fl_start stm32 + n)
      by (unfold u32; rewrite Z.mod_small; lia).
    pose proof (write_chunks_from stm32 (fl_start stm32) (Z.to_nat (n / 256))
                  0 (S (length STM_FIRMWARE)) (replicate 256 0) e1) as Hw.
    cbv zeta in Hw. fold n in Hw.
    change (256 * Z.of_nat 0) with 0 in Hw. rewrite Z.add_0_r in Hw.
    rewrite Hw; [| lia | lia | lia | apply length_replicate | lia].
    unfold chunk_plan. fold n.
    destruct (write_plan stm32 _ e1) as [ok e2].
    destruct ok; [| done]. by destruct (n mod 256 =? 0).
  - intros Hnz buffer. apply memcpy_short. rewrite length_drop. lia.
  - intros Hz. unfold chunk_plan. fold n. rewrite map_map. cbn [fst snd].
    rewrite (chunk_plan_from (Z.to_nat (n / 256)) 0) by (fold n; lia).
    rewrite drop_0. apply take_ge. lia.
Qed.

(** ** Initialisation *)

Lemma check_version_lines s :
  parser_ok s ->
  exists s1, check_version s = Some (version_mismatch s1, s1)
    /\ parser_ok s1 /\ stable (reset_normal_boot_ s) s1
    /\ nrst (env s1) = true /\ boot0 (env s1) = false.
Proof.
  intros Hok. unfold check_version.
  destruct (send_command__ok SHELLY_DIMMER_PROTO_CMD_VERSION None 0 (reset_normal_boot_ s))
    as (got & s1 & k & E & Hok1 & _ & _ & _ & Hst); [done | done | done |].
  rewrite E. cbn [mbind option_bind]. exists s1. split; [done |].
  split; [done |]. split; [done |].
  destruct Hst as (_ & _ & _ & _ & _ & _ & Hn & Hb). rewrite Hn, Hb.
  unfold reset_normal_boot_.
  destruct (reset__effect false s) as (_ & _ & _ & _ & Hn' & Hb' & _). done.
Qed.

(** The version gate, flag by flag. *)
Lemma version_gate_flags s go g :
  parser_ok s ->
  version_gate 3 0 s = Some (go, g) ->
  parser_ok g /\ config g = config s /\ ready_ g = ready_ s
  /\ poll_interval_ g = poll_interval_ s /\ brightness_ g = brightness_ s
  /\ (go = true -> failed_ g = failed_ s /\ nrst (env g) = true /\ boot0 (env g) = false)
  /\ (go = false -> failed_ g = true /\ upgrades_ g = S (upgrades_ s)).
Proof.
  intros Hok H.
  assert (P : match version_gate 3 0 s with
              | Some (go, g) =>
                  parser_ok g /\ config g = config s /\ ready_ g = ready_ s
                  /\ poll_interval_ g = poll_interval_ s /\ brightness_ g = brightness_ s
                  /\ (go = true -> failed_ g = failed_ s /\ nrst (env g) = true
                                    /\ boot0 (env g) = false)
                  /\ (go = false -> failed_ g = true /\ upgrades_ g = S (upgrades_ s))
              | None => True
              end).
  { clear H. rewrite version_gate_step. change (0 <? 2) with true. cbv iota.
    destruct (check_version_lines s Hok) as (s1 & E1 & Hok1 & Hst1 & Hn1 & Hb1).
    rewrite E1. cbn [mbind option_bind].
    destruct Hst1 as (Hc1 & Hbr1 & Hr1 & Hf1 & Hu1 & Hp1 & _).
    change (config (reset_normal_boot_ s)) with (config s) in Hc1.
    change (brightness_ (reset_normal_boot_ s)) with (brightness_ s) in Hbr1.
    change (ready_ (reset_normal_boot_ s)) with (ready_ s) in Hr1.
    change (failed_ (reset_normal_boot_ s)) with (failed_ s) in Hf1.
    change (upgrades_ (reset_normal_boot_ s)) with (upgrades_ s) in Hu1.
    change (poll_interval_ (reset_normal_boot_ s)) with (poll_interval_ s) in Hp1.
    destruct (version_mismatch s1).
    2:{ split_and!; done. }
    change (0 >? 0) with false. cbv iota.
    destruct (upgrade_firmware_ s1) as [[ok u] |] eqn:E2; cbn [mbind option_bind];
      [| done].
    destruct (upgrade_firmware__inv _ _ _ E2) as [e ->].
    destruct ok; cbn [negb].
    2:{ cbn [mark_failed set_failed_ set_env set_upgrades_ config ready_ poll_interval_
             brightness_ failed_ upgrades_ buffer_ buffer_pos_].
        split_and!; try done. intros _. split; [done | congruence]. }
    rewrite version_gate_step. change (0 + 1 <? 2) with true. cbv iota.
    set (s2 := set_env e (set_upgrades_ (S (upgrades_ s1)) s1)).
    destruct (check_version_lines s2) as (s3 & E3 & Hok3 & Hst3 & Hn3 & Hb3); [done |].
    rewrite E3. cbn [mbind option_bind].
    destruct Hst3 as (Hc3 & Hbr3 & Hr3 & Hf3 & Hu3 & Hp3 & _).
    change (config (reset_normal_boot_ s2)) with (config s1) in Hc3.
    change (brightness_ (reset_normal_boot_ s2)) with (brightness_ s1) in Hbr3.
    change (ready_ (reset_normal_boot_ s2)) with (ready_ s1) in Hr3.
    change (failed_ (reset_normal_boot_ s2)) with (failed_ s1) in Hf3.
    change (upgrades_ (reset_normal_boot_ s2)) with (S (upgrades_ s1)) in Hu3.
    change (poll_interval_ (reset_normal_boot_ s2)) with (poll_interval_ s1) in Hp3.
    destruct (version_mismatch s3).
    - change (0 + 1 >? 0) with true. cbv iota.
      cbn [mark_failed set_failed_ config ready_ poll_interval_ brightness_ failed_ upgrades_
           buffer_ buffer_pos_].
      split_and!; try done; try congruence. intros _. split; [done | congruence].
    - split_and!; try done; try congruence.
      intros _. split_and!; [congruence | done | done]. }
  rewrite H in P. exact P.
Qed.

(** What follows the gate: settings, an immediate poll, the readiness flag. *)
Lemma setup_tail_flags g b :
  parser_ok g ->
  convert_brightness_ g (light_brightness g) = Some b ->
  exists s3,
    (s2 ← send_settings_ (set_poll_interval_ true g);
     '(_, s3) ← send_command_ SHELLY_DIMMER_PROTO_CMD_POLL None 0 s2;
     Some (set_ready_ true s3)) = Some (set_ready_ true s3)
    /\ config s3 = config g /\ failed_ s3 = failed_ g /\ poll_interval_ s3 = true
    /\ upgrades_ s3 = upgrades_ g /\ brightness_ s3 = b
    /\ nrst (env s3) = nrst (env g) /\ boot0 (env s3) = boot0 (env g).
Proof.
  intros Hok Hconv.
  destruct (send_settings__ok (set_poll_interval_ true g) b) as
    (s2 & k1 & k2 & E & Hok2 & Hst2 & _); [done | done |].
  destruct (send_command__ok SHELLY_DIMMER_PROTO_CMD_POLL None 0 (set_brightness_ b s2))
    as (got & s3 & k & E3 & _ & _ & _ & _ & Hst3); [done | done | done |].
  exists s3. rewrite E. cbn [mbind option_bind]. rewrite E3. cbn [mbind option_bind].
  split; [done |].
  destruct Hst2 as (Hc2 & _ & _ & Hf2 & Hu2 & Hp2 & Hn2 & Hb2).
  destruct Hst3 as (Hc3 & Hbr3 & _ & Hf3 & Hu3 & Hp3 & Hn3 & Hb3).
  cbn [set_brightness_ set_poll_interval_ config failed_ poll_interval_ upgrades_ brightness_
       env] in *.
  split_and!; congruence.
Qed.

(** X16: for a firmware image of whole 256-byte chunks, [setup()] returns
    whenever the brightness of the light converts, and it ends in one of two
    ways.  Either the component is ready: the failure mark is untouched,
    the poll timer is registered, the brightness of the light was sent and
    recorded, and the STM32 runs in normal boot mode with reset released.
    Or the component is marked failed after exactly one upgrade attempt: it
    is not made ready, no timer is registered and no brightness was
    recorded. *)
Theorem setup_ready_or_failed (s : ShellyDimmer) (b : Z) :
  whole_chunks STM_FIRMWARE ->
  parser_ok s ->
  convert_brightness_ s (light_brightness s) = Some b ->
  exists s', setup s = Some s'
    /\ config s' = config s
    /\ ((ready_ s' = true /\ failed_ s' = failed_ s /\ poll_interval_ s' = true
         /\ brightness_ s' = b /\ (upgrades_ s' <= S (upgrades_ s))%nat
         /\ nrst (env s') = true /\ boot0 (env s') = false)
        \/ (failed_ s' = true /\ ready_ s' = ready_ s
            /\ poll_interval_ s' = poll_interval_ s /\ brightness_ s' = brightness_ s
            /\ upgrades_ s' = S (upgrades_ s))).
Proof.
  intros Hw Hok Hconv.
  destruct (version_gate_returns s Hw Hok) as [[go g] Eg].
  destruct (version_gate_flags s go g Hok Eg)
    as (Hokg & Hcg & Hrg & Hpg & Hbg & Htrue & Hfalse).
  destruct (version_gate_ok s go g Hok Eg) as (_ & _ & _ & Hug & _).
  rewrite (setup_after_gate s go g Eg).
  destruct go.
  - destruct (Htrue eq_refl) as (Hf & Hn & Hb0).
    rewrite <- (convert_brightness__config s g), <- (light_brightness_config s g) in Hconv
      by done.
    destruct (setup_tail_flags g b Hokg Hconv)
      as (s3 & E & Hc3 & Hf3 & Hp3 & Hu3 & Hbr3 & Hn3 & Hb3).
    rewrite E. eexists. split; [done |].
    cbn [set_ready_ config ready_ failed_ poll_interval_ brightness_ upgrades_ env].
    split; [congruence |]. left. split_and!; try done; try congruence; lia.
  - destruct (Hfalse eq_refl) as (Hf & Hu).
    exists g. split; [done |]. split; [done |]. right. split_and!; done.
Qed.

(** ** Damaged frames *)

(** [handle_byte_] on start marker, header and payload. *)
Lemma handle_byte__body (st : ShellyDimmer) (c len : Z) :
  0 <= buffer_pos_ st <= 4 + len ->
  (buffer_pos_ st = 0 -> c = SHELLY_DIMMER_PROTO_START_BYTE) ->
  (4 <= buffer_pos_ st -> rd (buffer_ st) 3 = Some len) ->
  4 + len + 3 <= SHELLY_DIMMER_BUFFER_SIZE ->
  handle_byte_ st c = Some 1.
Proof.
  intros Hk H0 H3 Hfit. unfold handle_byte_.
  destruct (Z.eqb_spec (buffer_pos_ st) 0) as [E0 | E0].
  { rewrite (H0 E0). done. }
  destruct (Z.ltb_spec (buffer_pos_ st) 4); [done |].
  rewrite H3 by lia. cbn [mbind option_bind]. rewrite Z.gtb_ltb.
  destruct (Z.ltb_spec SHELLY_DIMMER_BUFFER_SIZE (4 + len + 3)); [lia |].
  destruct (Z.ltb_spec (buffer_pos_ st) (4 + len + 1)); [done | lia].
Qed.

(** [handle_byte_] on the low byte of the checksum. *)
Lemma handle_byte__checksum (st : ShellyDimmer) (c len hi v : Z) :
  0 <= len -> buffer_pos_ st = 4 + len + 1 ->
  rd (buffer_ st) 3 = Some len ->
  4 + len + 3 <= SHELLY_DIMMER_BUFFER_SIZE ->
  rd (buffer_ st) (4 + len) = Some hi ->
  shelly_dimmer_checksum (buffer_ st) 1 (3 + len) = Some v ->
  handle_byte_ st c = Some (if u16 (Z.lor (Z.shiftl hi 8) c) =? v then 1 else -1).
Proof.
  intros Hlen Hk H3 Hfit Hhi Hv. unfold handle_byte_. rewrite Hk.
  destruct (Z.eqb_spec (4 + len + 1) 0); [lia |].
  destruct (Z.ltb_spec (4 + len + 1) 4); [lia |].
  rewrite H3. cbn [mbind option_bind]. rewrite Z.gtb_ltb.
  destruct (Z.ltb_spec SHELLY_DIMMER_BUFFER_SIZE (4 + len + 3)); [lia |].
  destruct (Z.ltb_spec (4 + len + 1) (4 + len + 1)); [lia |].
  rewrite Z.eqb_refl. replace (4 + len + 1 - 1) with (4 + len) by lia.
  rewrite Hhi. cbn [mbind option_bind]. rewrite Hv. cbn [mbind option_bind].
  by destruct (u16 (Z.lor (Z.shiftl hi 8) c) =? v).
Qed.

(** [handle_byte_] on the end marker. *)
Lemma handle_byte__end (st : ShellyDimmer) (c len : Z) :
  0 <= len -> buffer_pos_ st = 4 + len + 2 ->
  rd (buffer_ st) 3 = Some len ->
  4 + len + 3 <= SHELLY_DIMMER_BUFFER_SIZE ->
  handle_byte_ st c = Some (if c =? SHELLY_DIMMER_PROTO_END_BYTE then 0 else -1).
Proof.
  intros Hlen Hk H3 Hfit. unfold handle_byte_. rewrite Hk.
  destruct (Z.eqb_spec (4 + len + 2) 0); [lia |].
  destruct (Z.ltb_spec (4 + len + 2) 4); [lia |].
  rewrite H3. cbn [mbind option_bind]. rewrite Z.gtb_ltb.
  destruct (Z.ltb_spec SHELLY_DIMMER_BUFFER_SIZE (4 + len + 3)); [lia |].
  destruct (Z.ltb_spec (4 + len + 2) (4 + len + 1)); [lia |].
  destruct (Z.eqb_spec (4 + len + 2) (4 + len + 1)); [lia |].
  by rewrite Z.eqb_refl.
Qed.

Lemma stored_step (G : list Z) (k : nat) (c : Z) (s : ShellyDimmer) :
  G !! k = Some c -> (k < length (buffer_ s))%nat ->
  set_buffer_ (<[k := c]> (buffer_ (stored G k s))) (stored G k s)
  = set_buffer_pos_ (Z.of_nat k) (stored G (S k) s).
Proof.
  intros Hc Hk. destruct (lookup_lt_is_Some_2 (buffer_ s) k Hk) as [x Hx].
  pose proof (lookup_lt_Some _ _ _ Hc) as HG.
  unfold stored, set_buffer_, set_buffer_pos_.
  cbn [config seq_ buffer_ buffer_pos_ brightness_ version_major_ version_minor_ ready_
       failed_ power_sensor_ voltage_sensor_ current_sensor_ poll_interval_ upgrades_ env].
  f_equal.
  rewrite insert_app_r_alt by (rewrite length_take; lia).
  rewrite length_take. replace (k - k `min` length G)%nat with 0%nat by lia.
  rewrite (drop_S _ _ _ Hx). cbn [insert list_insert].
  by rewrite (take_S_r _ _ _ Hc), <- app_assoc.
Qed.

(** Storing the next byte of [G] behind the first [k]: the byte is
    classified over the buffer that already holds it. *)
Lemma read_byte__stored (G : list Z) (k : nat) (c r : Z) (s : ShellyDimmer) :
  (k < length (buffer_ s))%nat -> (k < 255)%nat ->
  G !! k = Some c ->
  handle_byte_ (set_buffer_pos_ (Z.of_nat k) (stored G (S k) s)) c = Some r ->
  r = 1 \/ r = -1 ->
  read_byte_ c (stored G k s)
  = Some (r, if r =? 1 then stored G (S k) s else set_buffer_pos_ 0 (stored G (S k) s)).
Proof.
  intros Hk H255 Hc Hh Hr. unfold read_byte_.
  change (buffer_pos_ (stored G k s)) with (Z.of_nat k).
  assert (Hlen : length (buffer_ (stored G k s)) = length (buffer_ s)).
  { unfold stored. cbn [buffer_ set_buffer_ set_buffer_pos_].
    pose proof (lookup_lt_Some _ _ _ Hc).
    rewrite length_app, length_take, length_drop. lia. }
  rewrite wr_defined by lia. cbn [mbind option_bind]. rewrite Nat2Z.id.
  rewrite stored_step by done. rewrite Hh. cbn [mbind option_bind].
  destruct Hr as [-> | ->].
  - change (1 =? 0) with false. change (1 =? -1) with false. change (1 =? 1) with true.
    cbv iota. cbn [buffer_pos_ set_buffer_pos_].
    replace (u8 (Z.of_nat k + 1)) with (Z.of_nat (S k))
      by (unfold u8; rewrite Z.mod_small; lia).
    done.
  - change (-1 =? 0) with false. change (-1 =? -1) with true. change (-1 =? 1) with false.
    cbv iota. done.
Qed.

Lemma byte_sum_insert_mod (l : list Z) (j : nat) (x y : Z) :
  l !! j = Some x -> 0 <= x < 256 -> 0 <= y < 256 -> x <> y ->
  byte_sum (<[j := y]> l) mod 65536 <> byte_sum l mod 65536.
Proof.
  intros Hj Hx Hy Hne. rewrite (byte_sum_insert _ _ x y Hj). intros Heq.
  set (S0 := byte_sum l) in *.
  assert (Hdiv : ((S0 - x + y) - S0) mod 65536 = 0).
  { rewrite Zminus_mod, Heq, Z.sub_diag. done. }
  replace (S0 - x + y - S0) with (y - x) in Hdiv by lia.
  apply Z.mod_divide in Hdiv; [| lia]. destruct Hdiv as [k Hk]. lia.
Qed.

Lemma take_drop_stored (G R : list Z) (a b k : nat) :
  (a + b <= k)%nat -> (k <= length G)%nat ->
  take b (drop a (take k G ++ R)) = take b (drop a G).
Proof.
  intros Hk Hle.
  rewrite drop_app_le by (rewrite length_take; lia).
  rewrite take_app_le by (rewrite length_drop, length_take; lia).
  rewrite !take_drop_commute, take_take.
  by replace ((a + b) `min` k)%nat with (a + b)%nat by lia.
Qed.

Section Damaged.

Variables (G : list Z) (n : nat).
Hypothesis G_start : G !! 0%nat = Some SHELLY_DIMMER_PROTO_START_BYTE.
Hypothesis G_len : G !! 3%nat = Some (Z.of_nat n).
Hypothesis G_length : length G = (7 + n)%nat.
Hypothesis n_fits : (n <= 72)%nat.

Lemma rd_stored (s : ShellyDimmer) (k i : nat) :
  (i <= k)%nat -> (k < length G)%nat ->
  rd (buffer_ (stored G (S k) s)) (Z.of_nat i) = G !! i.
Proof.
  intros Hi Hk. unfold stored. cbn [buffer_ set_buffer_ set_buffer_pos_].
  rewrite rd_lookup. by apply lookup_stored.
Qed.

Lemma read_byte__damaged_body (k : nat) c s :
  Z.of_nat (length (buffer_ s)) = SHELLY_DIMMER_BUFFER_SIZE ->
  G !! k = Some c -> (k <= 4 + n)%nat ->
  read_byte_ c (stored G k s) = Some (1, stored G (S k) s).
Proof.
  intros Hsz Hc Hk. unfold SHELLY_DIMMER_PROTO_MAX_FRAME_SIZE in buffer_fits.
  rewrite (read_byte__stored G k c 1 s); [done | lia | lia | done | | by left].
  apply (handle_byte__body _ c (Z.of_nat n)).
  - cbn [buffer_pos_ set_buffer_pos_]. lia.
  - cbn [buffer_pos_ set_buffer_pos_]. intros H0. replace k with 0%nat in Hc by lia.
    congruence.
  - cbn [buffer_pos_ set_buffer_pos_]. intros H4.
    change (buffer_ (set_buffer_pos_ (Z.of_nat k) (stored G (S k) s)))
      with (buffer_ (stored G (S k) s)).
    change 3 with (Z.of_nat 3). rewrite rd_stored by lia. done.
  - lia.
Qed.

Lemma feed_damaged_body s (k : nat) :
  Z.of_nat (length (buffer_ s)) = SHELLY_DIMMER_BUFFER_SIZE ->
  (k <= 5 + n)%nat ->
  feed (take k G) (stored G 0 s) = Some (replicate k 1, stored G k s).
Proof.
  intros Hsz. induction k as [| k IH]; intros Hk; [done |].
  destruct (lookup_lt_is_Some_2 G k) as [c Hc]; [lia |].
  rewrite (take_S_r _ _ _ Hc), feed_app, IH by lia. cbn [mbind option_bind].
  rewrite feed_single, read_byte__damaged_body by (done || lia). cbn [mbind option_bind].
  by rewrite <- replicate_cons_app.
Qed.

(** The low byte of the checksum decides. *)
Lemma read_byte__damaged_checksum (c hi : Z) (s : ShellyDimmer) :
  Z.of_nat (length (buffer_ s)) = SHELLY_DIMMER_BUFFER_SIZE ->
  G !! (4 + n)%nat = Some hi -> G !! (5 + n)%nat = Some c ->
  read_byte_ c (stored G (5 + n) s)
  = Some (if u16 (Z.lor (Z.shiftl hi 8) c) =? byte_sum (take (3 + n) (drop 1 G)) mod 65536
          then (1, stored G (6 + n) s)
          else (-1, set_buffer_pos_ 0 (stored G (6 + n) s))).
Proof.
  intros Hsz Hhi Hc. unfold SHELLY_DIMMER_PROTO_MAX_FRAME_SIZE in buffer_fits.
  set (v := byte_sum (take (3 + n) (drop 1 G)) mod 65536).
  assert (Hh : handle_byte_ (set_buffer_pos_ (Z.of_nat (5 + n)) (stored G (S (5 + n)) s)) c
               = Some (if u16 (Z.lor (Z.shiftl hi 8) c) =? v then 1 else -1)).
  { apply (handle_byte__checksum _ c (Z.of_nat n) hi v).
    - lia.
    - cbn [buffer_pos_ set_buffer_pos_]. lia.
    - change (buffer_ (set_buffer_pos_ (Z.of_nat (5 + n)) (stored G (S (5 + n)) s)))
        with (buffer_ (stored G (S (5 + n)) s)).
      change 3 with (Z.of_nat 3). rewrite rd_stored by lia. done.
    - lia.
    - change (buffer_ (set_buffer_pos_ (Z.of_nat (5 + n)) (stored G (S (5 + n)) s)))
        with (buffer_ (stored G (S (5 + n)) s)).
      replace (4 + Z.of_nat n) with (Z.of_nat (4 + n)) by lia.
      rewrite rd_stored by lia. done.
    - change (buffer_ (set_buffer_pos_ (Z.of_nat (5 + n)) (stored G (S (5 + n)) s)))
        with (buffer_ (stored G (S (5 + n)) s)).
      assert (Hl : length (buffer_ (stored G (S (5 + n)) s)) = length (buffer_ s)).
      { unfold stored. cbn [buffer_ set_buffer_ set_buffer_pos_].
        rewrite length_app, length_take, length_drop. lia. }
      rewrite checksum_in_range by lia.
      unfold v. do 3 f_equal. unfold stored. cbn [buffer_ set_buffer_ set_buffer_pos_].
      replace (Z.to_nat (3 + Z.of_nat n)) with (3 + n)%nat by lia.
      change (Z.to_nat 1) with 1%nat. apply take_drop_stored; lia. }
  rewrite (read_byte__stored G (5 + n) c _ s ltac:(lia) ltac:(lia) Hc Hh).
  - destruct (u16 (Z.lor (Z.shiftl hi 8) c) =? v); done.
  - destruct (u16 (Z.lor (Z.shiftl hi 8) c) =? v); [by left | by right].
Qed.

(** Anything but the end marker in the last place is rejected. *)
Lemma read_byte__damaged_end (c : Z) (s : ShellyDimmer) :
  Z.of_nat (length (buffer_ s)) = SHELLY_DIMMER_BUFFER_SIZE ->
  G !! (6 + n)%nat = Some c -> c <> SHELLY_DIMMER_PROTO_END_BYTE ->
  read_byte_ c (stored G (6 + n) s) = Some (-1, set_buffer_pos_ 0 (stored G (7 + n) s)).
Proof.
  intros Hsz Hc Hne. unfold SHELLY_DIMMER_PROTO_MAX_FRAME_SIZE in buffer_fits.
  rewrite (read_byte__stored G (6 + n) c (-1) s); [done | lia | lia | done | | by right].
  rewrite (handle_byte__end _ c (Z.of_nat n)).
  - by destruct (Z.eqb_spec c SHELLY_DIMMER_PROTO_END_BYTE).
  - lia.
  - cbn [buffer_pos_ set_buffer_pos_]. lia.
  - change (buffer_ (set_buffer_pos_ (Z.of_nat (6 + n)) (stored G (S (6 + n)) s)))
      with (buffer_ (stored G (S (6 + n)) s)).
    change 3 with (Z.of_nat 3). rewrite rd_stored by lia. done.
  - lia.
Qed.

End Damaged.

Lemma lookup_insert_same (l : list Z) (j : nat) (y : Z) :
  (j < length l)%nat -> <[j := y]> l !! j = Some y.
Proof.
  intros Hj. rewrite list_lookup_insert.
  destruct (decide (j = j /\ (j < length l)%nat)) as [_ | Hn]; [done |].
  exfalso. by apply Hn.
Qed.

Lemma wire_frame_body_bytes (seq cmd : Z) (p : list Z) :
  take (3 + length p) (drop 1 (wire_frame seq cmd p))
  = seq :: cmd :: Z.of_nat (length p) :: p.
Proof.
  unfold wire_frame. simpl. by rewrite take_app_length.
Qed.

Lemma rejected_unchanged (X : list Z) (st s : ShellyDimmer) :
  buffer_pos_ s = 0 -> st = set_buffer_ (buffer_ st) (set_buffer_pos_ (buffer_pos_ st) s) ->
  set_buffer_pos_ 0 (set_buffer_ X st) = set_buffer_ X s.
Proof.
  intros Hpos ->. destruct s. cbn in *. by subst.
Qed.

(** X17: a frame in which one byte behind the start marker, other than the
    length byte, has been replaced by a different byte is never accepted:
    no byte of it completes a frame, the last verdict is a rejection, the
    cursor ends at 0 and nothing but the parse buffer has changed. *)
Theorem damaged_frame_rejected (seq cmd : Z) (p : list Z) (j : nat) (x y : Z)
    (s : ShellyDimmer) :
  Z.of_nat (length (buffer_ s)) = SHELLY_DIMMER_BUFFER_SIZE ->
  buffer_pos_ s = 0 ->
  (length p <= 72)%nat ->
  (1 <= j)%nat -> j <> 3%nat ->
  wire_frame seq cmd p !! j = Some x ->
  0 <= x < 256 -> 0 <= y < 256 -> x <> y ->
  exists codes s',
    feed (<[j := y]> (wire_frame seq cmd p)) s = Some (codes, s')
    /\ Forall (fun r => r = 1 \/ r = -1) codes
    /\ last codes = Some (-1)
    /\ buffer_pos_ s' = 0
    /\ s' = set_buffer_ (buffer_ s') s.
Proof.
  intros Hsz Hpos Hp Hj1 Hj3 Hx Hxb Hyb Hne.
  unfold SHELLY_DIMMER_PROTO_MAX_FRAME_SIZE in buffer_fits.
  set (F := wire_frame seq cmd p) in *. set (n := length p) in *.
  set (G := <[j := y]> F).
  pose proof (wire_frame_length seq cmd p) as HF. fold F n in HF.
  destruct (wire_frame_header seq cmd p) as (F0 & _ & _ & F3). fold F n in F0, F3.
  destruct (wire_frame_trailer seq cmd p) as (Fhi & Flo & Fend). fold F n in Fhi, Flo, Fend.
  pose proof (wire_frame_body_bytes seq cmd p) as Hbody. fold F n in Hbody.
  set (csum := sum16 0 (seq :: cmd :: Z.of_nat n :: p)) in *.
  assert (Hcs : 0 <= csum < 65536) by (apply sum16_range; lia).
  assert (Hsum : byte_sum (take (3 + n) (drop 1 F)) mod 65536 = csum)
    by (rewrite Hbody; symmetry; apply sum16_0).
  assert (Hhib : 0 <= Z.shiftr csum 8 < 256).
  { rewrite Z.shiftr_div_pow2 by done. change (2 ^ 8) with 256.
    split; [apply Z.div_pos; lia | apply Z.div_lt_upper_bound; lia]. }
  assert (Hlob : 0 <= Z.land csum 255 < 256).
  { change 255 with (Z.ones 8). rewrite Z.land_ones by done. apply Z.mod_pos_bound. done. }
  assert (Hcsum : Z.shiftr csum 8 * 2 ^ 8 + Z.land csum 255 = csum).
  { rewrite <- lor_shiftl_add by (done || lia). apply split_hi_lo. lia. }
  pose proof (lookup_lt_Some _ _ _ Hx) as Hjlt.
  assert (HG : length G = (7 + n)%nat) by (unfold G; rewrite length_insert; lia).
  assert (G0 : G !! 0%nat = Some SHELLY_DIMMER_PROTO_START_BYTE)
    by (unfold G; rewrite list_lookup_insert_ne by lia; done).
  assert (G3 : G !! 3%nat = Some (Z.of_nat n))
    by (unfold G; rewrite list_lookup_insert_ne by lia; done).
  assert (Hsplit : forall c5 c6, G !! (5 + n)%nat = Some c5 -> G !! (6 + n)%nat = Some c6 ->
            feed G s = '(r, s1) ← read_byte_ c5 (stored G (5 + n) s);
                       '(r', s2) ← read_byte_ c6 s1;
                       Some (replicate (5 + n) 1 ++ [r; r'], s2)).
  { intros c5 c6 H5 H6.
    rewrite <- (take_drop (5 + n) G) at 1.
    rewrite (drop_S _ _ _ H5). change (S (5 + n)) with (6 + n)%nat.
    rewrite (drop_S _ _ _ H6), (drop_ge G (S (6 + n))) by lia.
    rewrite feed_app. rewrite <- (stored_0 G s Hpos) at 1.
    rewrite (feed_damaged_body G n G0 G3 HG Hp s (5 + n) Hsz) by lia.
    cbn [mbind option_bind feed].
    destruct (read_byte_ c5 _) as [[r s1] |]; cbn [mbind option_bind]; [| done].
    destruct (read_byte_ c6 s1) as [[r' s2] |]; cbn [mbind option_bind]; done. }
  assert (Hcanon : forall k, stored G k s
            = set_buffer_ (buffer_ (stored G k s))
                (set_buffer_pos_ (buffer_pos_ (stored G k s)) s)) by done.
  assert (Hrej : forall c5 hi,
            G !! (4 + n)%nat = Some hi -> G !! (5 + n)%nat = Some c5 ->
            G !! (6 + n)%nat = Some SHELLY_DIMMER_PROTO_END_BYTE ->
            u16 (Z.lor (Z.shiftl hi 8) c5) <> byte_sum (take (3 + n) (drop 1 G)) mod 65536 ->
            exists codes s',
              feed G s = Some (codes, s')
              /\ Forall (fun r => r = 1 \/ r = -1) codes
              /\ last codes = Some (-1)
              /\ buffer_pos_ s' = 0
              /\ s' = set_buffer_ (buffer_ s') s).
  { intros c5 hi H4 H5 H6 Hbad.
    rewrite (Hsplit _ _ H5 H6).
    rewrite (read_byte__damaged_checksum G n G3 HG Hp c5 hi s Hsz H4 H5).
    destruct (Z.eqb_spec (u16 (Z.lor (Z.shiftl hi 8) c5))
                (byte_sum (take (3 + n) (drop 1 G)) mod 65536)); [done |].
    cbn [mbind option_bind].
    rewrite read_byte__garbage; [| done | | done].
    2:{ cbn [buffer_ set_buffer_pos_]. unfold stored. cbn [buffer_ set_buffer_ set_buffer_pos_].
        rewrite length_app, length_take, length_drop. lia. }
    cbn [mbind option_bind]. eexists _, _. split; [done |].
    split_and!.
    - apply Forall_app. split; [apply Forall_replicate; by left |].
      apply Forall_cons; split; [by right |].
      apply Forall_cons; split; [by right | apply Forall_nil_2].
    - by rewrite last_app.
    - done.
    - cbn [buffer_ set_buffer_ set_buffer_pos_].
      rewrite (rejected_unchanged _ (set_buffer_pos_ 0 (stored G (6 + n) s)) s); [done | done |].
      done. }
  destruct (decide (j <= 3 + n)%nat) as [Hbodyj | Hbeyond].
  - (* the damage is in the sequence number, the command or the payload *)
    apply (Hrej (Z.land csum 255) (Z.shiftr csum 8)).
    + unfold G. rewrite list_lookup_insert_ne by lia. done.
    + unfold G. rewrite list_lookup_insert_ne by lia. done.
    + unfold G. rewrite list_lookup_insert_ne by lia. done.
    + rewrite lor_shiftl_add by (done || lia). rewrite Hcsum.
      unfold u16. rewrite Z.mod_small by done. rewrite <- Hsum.
      unfold G. rewrite drop_insert_ge by lia. rewrite take_insert_lt by lia.
      intros Heq. symmetry in Heq. revert Heq.
      apply (byte_sum_insert_mod _ _ x y); try done.
      rewrite lookup_take_lt by lia. rewrite lookup_drop.
      by replace (1 + (j - 1))%nat with j by lia.
  - destruct (decide (j = 4 + n)%nat) as [-> | Hj4].
    { (* the high byte of the checksum *)
      rewrite Fhi in Hx. injection Hx as <-.
      apply (Hrej (Z.land csum 255) y).
      + unfold G. by rewrite lookup_insert_same by lia.
      + unfold G. rewrite list_lookup_insert_ne by lia. done.
      + unfold G. rewrite list_lookup_insert_ne by lia. done.
      + rewrite lor_shiftl_add by (done || lia).
        unfold G. rewrite drop_insert_ge by lia. rewrite take_insert_ge by lia.
        rewrite Hsum. unfold u16. rewrite Z.mod_small by lia. lia. }
    destruct (decide (j = 5 + n)%nat) as [-> | Hj5].
    { (* the low byte of the checksum *)
      rewrite Flo in Hx. injection Hx as <-.
      apply (Hrej y (Z.shiftr csum 8)).
      + unfold G. rewrite list_lookup_insert_ne by lia. done.
      + unfold G. by rewrite lookup_insert_same by lia.
      + unfold G. rewrite list_lookup_insert_ne by lia. done.
      + rewrite lor_shiftl_add by (done || lia).
        unfold G. rewrite drop_insert_ge by lia. rewrite take_insert_ge by lia.
        rewrite Hsum. unfold u16. rewrite Z.mod_small by lia. lia. }
    (* the end marker *)
    assert (Hj6 : j = (6 + n)%nat) by lia. subst j.
    rewrite Fend in Hx. injection Hx as <-.
    assert (G4 : G !! (4 + n)%nat = Some (Z.shiftr csum 8))
      by (unfold G; rewrite list_lookup_insert_ne by lia; done).
    assert (G5 : G !! (5 + n)%nat = Some (Z.land csum 255))
      by (unfold G; rewrite list_lookup_insert_ne by lia; done).
    assert (G6 : G !! (6 + n)%nat = Some y)
      by (unfold G; by rewrite lookup_insert_same by lia).
    rewrite (Hsplit _ _ G5 G6).
    rewrite (read_byte__damaged_checksum G n G3 HG Hp _ _ s Hsz G4 G5).
    assert (Hgood : u16 (Z.lor (Z.shiftl (Z.shiftr csum 8) 8) (Z.land csum 255))
                    = byte_sum (take (3 + n) (drop 1 G)) mod 65536).
    { rewrite lor_shiftl_add by (done || lia). rewrite Hcsum.
      unfold u16. rewrite Z.mod_small by done. rewrite <- Hsum.
      unfold G. rewrite drop_insert_ge by lia. rewrite take_insert_ge by lia. done. }
    rewrite Hgood, Z.eqb_refl. cbn [mbind option_bind].
    rewrite (read_byte__damaged_end G n G3 HG Hp y s Hsz G6) by congruence.
    cbn [mbind option_bind]. eexists _, _. split; [done |].
    split_and!.
    + apply Forall_app. split; [apply Forall_replicate; by left |].
      apply Forall_cons; split; [by left |].
      apply Forall_cons; split; [by right | apply Forall_nil_2].
    + by rewrite last_app.
    + done.
    + unfold stored. destruct s. cbn in *. by subst.
Qed.

(** ** Poll reports *)

(** The decoding of a poll report, for readings made of bytes. *)
Lemma handle_frame__poll (s : ShellyDimmer) (len : Z) :
  rd (buffer_ s) 1 = Some (seq_ s) ->
  rd (buffer_ s) 2 = Some SHELLY_DIMMER_PROTO_CMD_POLL ->
  rd (buffer_ s) 3 = Some len -> 16 <= len ->
  (21 <= length (buffer_ s))%nat ->
  Forall (fun b => 0 <= b < 256) (take 12 (drop 8 (buffer_ s))) ->
  let reading factor off := scale_reading factor (le_value (take 4 (drop off (buffer_ s)))) in
  handle_frame_ s
  = Some (true,
          set_current_sensor_
            (publish_state (reading CURRENT_SCALING_FACTOR 16%nat) (current_sensor_ s))
            (set_voltage_sensor_
               (publish_state (reading VOLTAGE_SCALING_FACTOR 12%nat) (voltage_sensor_ s))
               (set_power_sensor_
                  (publish_state (reading POWER_SCALING_FACTOR 8%nat) (power_sensor_ s)) s))).
Proof.
  intros H1 H2 H3 Hlen Hsz Hbytes. cbv zeta.
  unfold handle_frame_.
  destruct (buffer_ s) as [| b0 buf] eqn:Hbuf; [cbn [length] in Hsz; lia |].
  do 20 (destruct buf as [| ? buf]; [cbn [length] in Hsz; lia |]).
  repeat match goal with
         | H : context [rd (?b :: ?l) ?i] |- _ =>
             let v := eval vm_compute in (rd (b :: l) i) in
             change (rd (b :: l) i) with v in H
         end.
  injection H1 as H1. injection H2 as H2. injection H3 as H3. subst.
  repeat match goal with
         | |- context [rd (?b :: ?l) ?i] =>
             let v := eval vm_compute in (rd (b :: l) i) in
             change (rd (b :: l) i) with v
         end.
  cbn [mbind option_bind]. rewrite Z.eqb_refl. cbn [negb].
  change (SHELLY_DIMMER_PROTO_CMD_POLL =? SHELLY_DIMMER_PROTO_CMD_POLL) with true. cbv iota.
  destruct (Z.ltb_spec len 16); [lia |].
  cbn [firstn skipn] in Hbytes.
  repeat (apply Forall_cons in Hbytes as [? Hbytes]).
  cbn [firstn skipn].
  repeat match goal with
         | |- context [le_value [?a; ?b; ?c; ?d]] =>
             replace (le_value [a; b; c; d]) with (le32 a b c d)
               by (rewrite (proj1 (le32_value a b c d ltac:(done) ltac:(done) ltac:(done)
                                     ltac:(done)));
                   cbn [le_value foldr]; lia)
         end.
  done.
Qed.

(** X11: a poll report under the current sequence number, with at least 16
    payload bytes announced, is decoded from fixed places of the parse
    buffer: power from bytes 8 to 11, voltage from 12 to 15 and current from
    16 to 19, each read least significant byte first, scaled by its factor
    unless it is 0 and published once to its sensor if there is one; byte 20
    is read as the fade rate whatever the length byte says.  Nothing else
    of the object changes. *)
Theorem poll_report_published (s : ShellyDimmer) (len : Z) :
  rd (buffer_ s) 1 = Some (seq_ s) ->
  rd (buffer_ s) 2 = Some SHELLY_DIMMER_PROTO_CMD_POLL ->
  rd (buffer_ s) 3 = Some len -> 16 <= len ->
  (21 <= length (buffer_ s))%nat ->
  Forall (fun b => 0 <= b < 256) (buffer_ s) ->
  let reading factor off := scale_reading factor (le_value (take 4 (drop off (buffer_ s)))) in
  handle_frame_ s
  = Some (true,
          set_current_sensor_
            (publish_state (reading CURRENT_SCALING_FACTOR 16%nat) (current_sensor_ s))
            (set_voltage_sensor_
               (publish_state (reading VOLTAGE_SCALING_FACTOR 12%nat) (voltage_sensor_ s))
               (set_power_sensor_
                  (publish_state (reading POWER_SCALING_FACTOR 8%nat) (power_sensor_ s)) s))).
Proof.
  intros H1 H2 H3 Hlen Hsz Hbytes.
  apply (handle_frame__poll s len); try done.
  by apply Forall_take, Forall_drop.
Qed.

(** X18: a poll report that arrives within the first window under the
    sequence number just sent is published: each sensor that is not null
    receives, once, the reading decoded from payload bytes 4 to 7 (power),
    8 to 11 (voltage) and 12 to 15 (current); the stored version is
    untouched and the command counts as acknowledged after a single
    transmission. *)
Theorem poll_reply_published (c : Z) (payload : option (list Z)) (len : Z)
    (s : ShellyDimmer) (p : list Z) (cs more : list (list Z)) :
  Z.of_nat (length (buffer_ s)) = SHELLY_DIMMER_BUFFER_SIZE ->
  buffer_pos_ s = 0 ->
  len = Z.of_nat (length (payload_bytes payload)) -> len <= 72 ->
  (16 <= length p <= 72)%nat -> Forall (fun b => 0 <= b < 256) p ->
  incoming (env s) = cs ++ more ->
  rx (env s) ++ concat cs = wire_frame (u8 (seq_ s + 1)) SHELLY_DIMMER_PROTO_CMD_POLL p ->
  last (rx (env s) :: cs) <> Some [] ->
  (length cs < 200)%nat ->
  let reading factor off := scale_reading factor (le_value (take 4 (drop off p))) in
  exists s',
    send_command_ c payload len s = Some (true, s')
    /\ power_sensor_ s' = publish_state (reading POWER_SCALING_FACTOR 4%nat) (power_sensor_ s)
    /\ voltage_sensor_ s'
       = publish_state (reading VOLTAGE_SCALING_FACTOR 8%nat) (voltage_sensor_ s)
    /\ current_sensor_ s'
       = publish_state (reading CURRENT_SCALING_FACTOR 12%nat) (current_sensor_ s)
    /\ version_major_ s' = version_major_ s /\ version_minor_ s' = version_minor_ s
    /\ tx (env s') = tx (env s)
         ++ [wire_frame (u8 (seq_ s + 1)) (u8 c) (payload_bytes payload)].
Proof.
  intros Hsz Hpos Hlen H72 Hp Hpb Hinc Hcat Hlast Hcs reading.
  unfold SHELLY_DIMMER_PROTO_MAX_FRAME_SIZE in buffer_fits.
  assert (Hseq : 0 <= u8 (seq_ s + 1) < 256) by (apply Z.mod_pos_bound; done).
  destruct (send_command__arrival c payload len s (u8 (seq_ s + 1))
              SHELLY_DIMMER_PROTO_CMD_POLL p cs more)
    as (e' & ok & sh & Hf & E & H1 & H2 & _); try done; [lia |].
  eexists. split; [exact E |].
  set (F := wire_frame (u8 (seq_ s + 1)) SHELLY_DIMMER_PROTO_CMD_POLL p) in *.
  pose proof (wire_frame_length (u8 (seq_ s + 1)) SHELLY_DIMMER_PROTO_CMD_POLL p) as HF.
  destruct (wire_frame_header (u8 (seq_ s + 1)) SHELLY_DIMMER_PROTO_CMD_POLL p)
    as (_ & F1 & F2 & F3).
  fold F in HF, F1, F2, F3.
  assert (HFb : Forall (fun b => 0 <= b < 256) F)
    by (apply wire_frame_bytes; [done | done | lia | done]).
  assert (Hseg : forall a b, (a + b <= length p)%nat ->
            take b (drop (4 + a) (F ++ drop (length F) (buffer_ s))) = take b (drop a p)).
  { intros a b Hab.
    rewrite drop_app_le by lia. rewrite take_app_le by (rewrite length_drop; lia).
    unfold F, wire_frame. rewrite <- drop_drop. cbn [app skipn]. rewrite drop_0.
    rewrite drop_app_le by lia. rewrite take_app_le by (rewrite length_drop; lia). done. }
  pose proof (Hseg 4%nat 4%nat ltac:(lia)) as Ep.
  pose proof (Hseg 8%nat 4%nat ltac:(lia)) as Ev.
  pose proof (Hseg 12%nat 4%nat ltac:(lia)) as Ec.
  pose proof (Hseg 4%nat 12%nat ltac:(lia)) as Eb.
  cbn [Nat.add] in Ep, Ev, Ec, Eb.
  assert (HFe : Forall (fun b => 0 <= b < 256)
                  (take 12 (drop 8 (F ++ drop (length F) (buffer_ s)))))
    by (rewrite Eb; by apply Forall_take, Forall_drop).
  clear Hseg Eb. clearbody F.
  pose proof (handle_frame__poll
                (set_buffer_ (F ++ drop (length F) (buffer_ s))
                   (set_buffer_pos_ (Z.of_nat (6 + length p))
                      (set_env e' (set_seq_ (u8 (seq_ s + 1)) s))))
                (Z.of_nat (length p))) as Hpoll.
  cbv zeta in Hpoll. cbn [buffer_ set_buffer_ seq_ set_buffer_pos_ set_env set_seq_] in Hpoll.
  rewrite Ep, Ev, Ec in Hpoll.
  rewrite Hpoll in Hf.
  - injection Hf as _ <-. unfold reading. split_and!; done.
  - change 1 with (Z.of_nat 1). by rewrite rd_frame by lia.
  - change 2 with (Z.of_nat 2). by rewrite rd_frame by lia.
  - change 3 with (Z.of_nat 3). by rewrite rd_frame by lia.
  - lia.
  - rewrite length_app, length_drop. lia.
  - done.
Qed.

(** X19: three ways through [setup()].  A version that matches at the
    first check makes the component ready without any upgrade; a failed upgrade ends [setup()] at once with the failure mark
    and without a second check; an upgrade followed by a matching version
    makes the component ready after exactly one upgrade. *)
Theorem setup_paths (s : ShellyDimmer) (b : Z) :
  parser_ok s ->
  convert_brightness_ s (light_brightness s) = Some b ->
  (forall s1, check_version s = Some (false, s1) ->
     exists s', setup s = Some s' /\ ready_ s' = true /\ failed_ s' = failed_ s
                /\ upgrades_ s' = upgrades_ s /\ brightness_ s' = b)
  /\ (forall s1 s2, check_version s = Some (true, s1) ->
        upgrade_firmware_ s1 = Some (false, s2) ->
        setup s = Some (mark_failed s2) /\ ready_ (mark_failed s2) = ready_ s
        /\ upgrades_ (mark_failed s2) = S (upgrades_ s))
  /\ (forall s1 s2 s3, check_version s = Some (true, s1) ->
        upgrade_firmware_ s1 = Some (true, s2) ->
        check_version s2 = Some (false, s3) ->
        exists s', setup s = Some s' /\ ready_ s' = true /\ failed_ s' = failed_ s
                   /\ upgrades_ s' = S (upgrades_ s) /\ brightness_ s' = b).
Proof.
  intros Hok Hconv.
  destruct (check_version_lines s Hok) as (c1 & E1 & Hok1 & Hst1 & _).
  destruct Hst1 as (Hc1 & _ & Hr1 & Hf1 & Hu1 & _).
  change (config (reset_normal_boot_ s)) with (config s) in Hc1.
  change (ready_ (reset_normal_boot_ s)) with (ready_ s) in Hr1.
  change (failed_ (reset_normal_boot_ s)) with (failed_ s) in Hf1.
  change (upgrades_ (reset_normal_boot_ s)) with (upgrades_ s) in Hu1.
  split_and!.
  - intros s1 H1. rewrite E1 in H1. injection H1 as Hm <-.
    assert (Eg : version_gate 3 0 s = Some (true, c1)).
    { rewrite version_gate_step. change (0 <? 2) with true. cbv iota.
      rewrite E1, Hm. done. }
    rewrite (setup_after_gate s true c1 Eg).
    rewrite <- (convert_brightness__config s c1), <- (light_brightness_config s c1) in Hconv
      by done.
    destruct (setup_tail_flags c1 b Hok1 Hconv) as (s3 & E & _ & Hf3 & _ & Hu3 & Hb3 & _).
    rewrite E. eexists. split; [done |].
    cbn [set_ready_ ready_ failed_ upgrades_ brightness_]. split_and!; congruence.
  - intros s1 s2 H1 H2. rewrite E1 in H1. injection H1 as Hm <-.
    destruct (upgrade_firmware__inv _ _ _ H2) as [e ->].
    assert (Eg : version_gate 3 0 s
                 = Some (false, mark_failed (set_env e (set_upgrades_ (S (upgrades_ c1)) c1)))).
    { rewrite version_gate_step. change (0 <? 2) with true. cbv iota.
      rewrite E1, Hm. cbn [mbind option_bind]. change (0 >? 0) with false. cbv iota.
      rewrite H2. done. }
    rewrite (setup_after_gate s false _ Eg).
    cbn [mark_failed set_failed_ set_env set_upgrades_ ready_ upgrades_].
    split_and!; [done | done | congruence].
  - intros s1 s2 s3 H1 H2 H3. rewrite E1 in H1. injection H1 as Hm <-.
    destruct (upgrade_firmware__inv _ _ _ H2) as [e ->].
    set (s2 := set_env e (set_upgrades_ (S (upgrades_ c1)) c1)) in *.
    destruct (check_version_lines s2) as (c3 & E3 & Hok3 & Hst3 & _); [done |].
    rewrite E3 in H3. injection H3 as Hm3 <-.
    destruct Hst3 as (Hc3 & _ & Hr3 & Hf3 & Hu3 & _).
    change (config (reset_normal_boot_ s2)) with (config c1) in Hc3.
    change (failed_ (reset_normal_boot_ s2)) with (failed_ c1) in Hf3.
    change (upgrades_ (reset_normal_boot_ s2)) with (S (upgrades_ c1)) in Hu3.
    assert (Eg : version_gate 3 0 s = Some (true, c3)).
    { rewrite version_gate_step. change (0 <? 2) with true. cbv iota.
      rewrite E1, Hm. cbn [mbind option_bind]. change (0 >? 0) with false. cbv iota.
      rewrite H2. cbn [mbind option_bind negb].
      rewrite version_gate_step. change (0 + 1 <? 2) with true. cbv iota.
      rewrite E3, Hm3. done. }
    rewrite (setup_after_gate s true c3 Eg).
    rewrite <- (convert_brightness__config s c3), <- (light_brightness_config s c3) in Hconv
      by congruence.
    destruct (setup_tail_flags c3 b Hok3 Hconv) as (s4 & E & _ & Hf4 & _ & Hu4 & Hb4 & _).
    rewrite E. eexists. split; [done |].
    cbn [set_ready_ ready_ failed_ upgrades_ brightness_]. split_and!; congruence.
Qed.

End Engine.

(** * The claims at concrete inputs *)

Lemma capacity_256_fits : SHELLY_DIMMER_PROTO_MAX_FRAME_SIZE <= 256.
Proof. vm_compute. discriminate. Defined.

Lemma dimmer_idle_parser_ok : parser_ok 256 dimmer_idle.
Proof.
  unfold parser_ok. split; [reflexivity |]. split; [vm_compute; discriminate |].
  left. vm_compute. discriminate.
Defined.

(** C1 at its failing input: with a well-formed reply under sequence number
    7 waiting in the UART, [send_command_] for the version under sequence
    number 5 transmits once and returns success, and the version fields
    stay as they were. *)
Theorem stale_reply_ends_wait :
  exists s', send_command_ 256 SHELLY_DIMMER_PROTO_CMD_VERSION None 0 dimmer_stale
             = Some (true, s')
    /\ seq_ s' = 5
    /\ rd stale_reply 1 = Some 7
    /\ tx (env s') = [[0x01; 0x05; 0x11; 0x00; 0x00; 0x16; 0x04]]
    /\ version_major_ s' = version_major_ dimmer_stale
    /\ version_minor_ s' = version_minor_ dimmer_stale.
Proof. eexists. vm_compute. repeat split. Qed.

Lemma frame_roundtrip_witness :
  0 <= 1 < 256
  /\ 2 = Z.of_nat (length (payload_bytes (Some [0xE8; 0x03])))
  /\ 2 <= 72
  /\ Z.of_nat (length (replicate 79 0)) = SHELLY_DIMMER_PROTO_MAX_FRAME_SIZE
  /\ Z.of_nat (length (buffer_ dimmer_idle)) = 256
  /\ buffer_pos_ dimmer_idle = 0
  /\ exists data' frame_len s' parser',
       frame_command_ (replicate 79 0) 1 (Some [0xE8; 0x03]) 2 dimmer_idle
         = Some (data', frame_len, s')
       /\ seq_ s' = u8 (seq_ dimmer_idle + 1)
       /\ feed 256 (take (Z.to_nat frame_len) data') dimmer_idle
          = Some (replicate (Z.to_nat frame_len - 1) 1 ++ [0], parser')
       /\ rd (buffer_ parser') 1 = Some (seq_ s')
       /\ rd (buffer_ parser') 2 = Some 1
       /\ rd (buffer_ parser') 3 = Some 2
       /\ take (Z.to_nat 2) (drop 4 (buffer_ parser')) = payload_bytes (Some [0xE8; 0x03]).
Proof.
  split; [lia |]. split; [reflexivity |]. split; [lia |].
  split; [reflexivity |]. split; [reflexivity |]. split; [reflexivity |].
  apply (frame_roundtrip 256 capacity_256_fits); try reflexivity; lia.
Defined.

Lemma oversized_frame_rejected_witness :
  Z.of_nat (length (buffer_ dimmer_idle)) = 256
  /\ buffer_pos_ dimmer_idle = 0
  /\ 4 + 250 + 3 > 256
  /\ (exists s', feed 256 [SHELLY_DIMMER_PROTO_START_BYTE; 5; 1; 250; 9] dimmer_idle
                 = Some ([1; 1; 1; 1; -1], s')
                 /\ buffer_pos_ s' = 0)
  /\ (forall s1 c1, 4 <= buffer_pos_ s1 -> rd (buffer_ s1) 3 = Some 250 ->
                    handle_byte_ 256 s1 c1 = Some (-1)).
Proof.
  split; [reflexivity |]. split; [reflexivity |]. split; [lia |].
  apply (oversized_frame_rejected 256 capacity_256_fits); try reflexivity; lia.
Defined.

Lemma parser_resynchronises_witness :
  Z.of_nat (length (buffer_ dimmer_idle)) = 256
  /\ feed 256 [0x01; 0x05; 0x01; 0xFA; 0x09] dimmer_idle
     = Some ([1; 1; 1; 1; -1], set_buffer_ ([1; 5; 1; 250; 9] ++ replicate 251 0) dimmer_idle)
  /\ last [1; 1; 1; 1; -1] = Some (-1)
  /\ (length [0xE8; 0x03] <= 72)%nat
  /\ exists s2,
       feed 256 (wire_frame 5 1 [0xE8; 0x03])
            (set_buffer_ ([1; 5; 1; 250; 9] ++ replicate 251 0) dimmer_idle)
       = Some (replicate (6 + length [0xE8; 0x03]) 1 ++ [0], s2)
       /\ buffer_pos_ s2 = 0.
Proof.
  assert (Hfeed : feed 256 [0x01; 0x05; 0x01; 0xFA; 0x09] dimmer_idle
     = Some ([1; 1; 1; 1; -1], set_buffer_ ([1; 5; 1; 250; 9] ++ replicate 251 0) dimmer_idle))
    by (vm_compute; reflexivity).
  split; [reflexivity |]. split; [exact Hfeed |]. split; [reflexivity |].
  split; [simpl; lia |].
  destruct (parser_resynchronises 256 capacity_256_fits) as [_ H].
  apply (H [0x01; 0x05; 0x01; 0xFA; 0x09] dimmer_idle [1; 1; 1; 1; -1]);
    [reflexivity | exact Hfeed | reflexivity | simpl; lia].
Defined.

(** C5 as stated fails: with the floor configured at 2000, the input 0.5
    lies in (0.0, 1.0] and converts to 1000, below the floor. *)
Lemma convert_brightness_below_floor :
  in_unit_interval fhalf = true
  /\ convert_brightness_ dimmer_high_floor fhalf = Some 1000
  /\ ~ min_brightness_ (config dimmer_high_floor) <= 1000.
Proof. split; [reflexivity |]. split; [vm_compute; reflexivity |]. vm_compute. intros H. apply H. reflexivity. Qed.

Lemma convert_brightness_bounds_witness :
  float_is_zero fzero = true
  /\ in_unit_interval fhalf = true
  /\ 0 <= min_brightness_ (config dimmer_high_floor) <= max_brightness_ (config dimmer_high_floor)
  /\ max_brightness_ (config dimmer_high_floor) < 65536
  /\ convert_brightness_ dimmer_high_floor fzero = Some 0
  /\ exists t,
       float_to_u16 (fmul fhalf (float_of_Z (max_brightness_ (config dimmer_high_floor)
                                             - min_brightness_ (config dimmer_high_floor))))
       = Some t
       /\ 0 <= t <= max_brightness_ (config dimmer_high_floor)
                    - min_brightness_ (config dimmer_high_floor)
       /\ convert_brightness_ dimmer_high_floor fhalf
          = Some (Z.min (t + min_brightness_ (config dimmer_high_floor))
                        SHELLY_DIMMER_MAX_BRIGHTNESS)
       /\ Z.min (min_brightness_ (config dimmer_high_floor)) SHELLY_DIMMER_MAX_BRIGHTNESS
          <= Z.min (t + min_brightness_ (config dimmer_high_floor)) SHELLY_DIMMER_MAX_BRIGHTNESS
          <= Z.min (max_brightness_ (config dimmer_high_floor)) SHELLY_DIMMER_MAX_BRIGHTNESS.
Proof.
  destruct (convert_brightness_bounds dimmer_high_floor fzero) as (Hzero & _).
  destruct (convert_brightness_bounds dimmer_high_floor fhalf) as (_ & _ & Hunit & _).
  split; [reflexivity |]. split; [reflexivity |].
  split; [vm_compute; split; discriminate |]. split; [reflexivity |].
  split; [apply Hzero; reflexivity |].
  apply Hunit; [reflexivity | vm_compute; split; discriminate | reflexivity].
Defined.

Lemma silent_peer_three_transmissions_witness :
  silent (env dimmer_idle)
  /\ 0 = Z.of_nat (length (payload_bytes None))
  /\ 0 <= 72
  /\ exists s', send_command_ 256 SHELLY_DIMMER_PROTO_CMD_POLL None 0 dimmer_idle
                = Some (false, s')
       /\ seq_ s' = u8 (seq_ dimmer_idle + 1)
       /\ tx (env s') = tx (env dimmer_idle)
            ++ replicate 3 (wire_frame (u8 (seq_ dimmer_idle + 1))
                              (u8 SHELLY_DIMMER_PROTO_CMD_POLL) (payload_bytes None)).
Proof.
  assert (Hs : silent (env dimmer_idle)) by (split; [reflexivity | constructor]).
  split; [exact Hs |]. split; [reflexivity |]. split; [lia |].
  apply silent_peer_three_transmissions; [exact Hs | reflexivity | lia].
Defined.

Lemma settings_then_switch_witness :
  parser_ok 256 dimmer_idle
  /\ convert_brightness_ dimmer_idle (light_brightness dimmer_idle) = Some 0
  /\ exists s' (k1 k2 : nat),
       send_settings_ 256 dimmer_idle = Some s'
       /\ tx (env s') = tx (env dimmer_idle)
            ++ replicate k1 (wire_frame (u8 (seq_ dimmer_idle + 1))
                               SHELLY_DIMMER_PROTO_CMD_SETTINGS
                               (settings_payload dimmer_idle 0
                                  (Z.min 100 (fade_rate_ (config dimmer_idle)))))
            ++ replicate k2 (wire_frame (u8 (u8 (seq_ dimmer_idle + 1) + 1))
                               SHELLY_DIMMER_PROTO_CMD_SWITCH (switch_payload 0))
       /\ (1 <= k1 <= 3)%nat /\ (1 <= k2 <= 3)%nat
       /\ payload_brightness (settings_payload dimmer_idle 0
                                (Z.min 100 (fade_rate_ (config dimmer_idle)))) = Some 0
       /\ payload_brightness (switch_payload 0) = Some 0
       /\ brightness_ s' = 0.
Proof.
  split; [exact dimmer_idle_parser_ok |]. split; [reflexivity |].
  apply (settings_then_switch 256 capacity_256_fits dimmer_idle 0);
    [exact dimmer_idle_parser_ok | reflexivity].
Defined.

Lemma zero_reading_decodes_to_zero_witness :
  handle_frame_ dimmer_polled
  = Some (true, set_current_sensor_ (Some [fzero])
                  (set_voltage_sensor_ (Some [S754_finite false 9117368 (-18)])
                     (set_power_sensor_ (Some [fzero]) dimmer_polled)))
  /\ rd (buffer_ dimmer_polled) 2 = Some SHELLY_DIMMER_PROTO_CMD_POLL
  /\ raw_reading dimmer_polled 4 = Some 0
  /\ power_sensor_ (set_current_sensor_ (Some [fzero])
                      (set_voltage_sensor_ (Some [S754_finite false 9117368 (-18)])
                         (set_power_sensor_ (Some [fzero]) dimmer_polled)))
     = publish_state fzero (power_sensor_ dimmer_polled).
Proof.
  assert (H : handle_frame_ dimmer_polled
    = Some (true, set_current_sensor_ (Some [fzero])
                  (set_voltage_sensor_ (Some [S754_finite false 9117368 (-18)])
                     (set_power_sensor_ (Some [fzero]) dimmer_polled))))
    by (vm_compute; reflexivity).
  split; [exact H |]. split; [reflexivity |]. split; [reflexivity |].
  destruct (zero_reading_decodes_to_zero _ _ H) as (Hp & _); [reflexivity |].
  apply Hp. reflexivity.
Defined.

Lemma write_state_gated_witness :
  ready_ dimmer_idle = false
  /\ write_state 256 fhalf dimmer_idle = Some dimmer_idle
  /\ parser_ok 256 dimmer_ready
  /\ ready_ dimmer_ready = true
  /\ convert_brightness_ dimmer_ready fhalf = Some 500
  /\ 500 <> brightness_ dimmer_ready
  /\ exists s' (k : nat), write_state 256 fhalf dimmer_ready = Some s'
       /\ tx (env s') = tx (env dimmer_ready)
            ++ replicate k (wire_frame (u8 (seq_ dimmer_ready + 1))
                              SHELLY_DIMMER_PROTO_CMD_SWITCH (switch_payload 500))
       /\ (1 <= k <= 3)%nat
       /\ brightness_ s' = 500.
Proof.
  destruct (write_state_gated 256 capacity_256_fits fhalf dimmer_idle) as (Hidle & _).
  destruct (write_state_gated 256 capacity_256_fits fhalf dimmer_ready) as (_ & _ & Hready).
  split; [reflexivity |]. split; [apply Hidle; reflexivity |].
  split; [exact dimmer_idle_parser_ok |]. split; [reflexivity |].
  split; [vm_compute; reflexivity |]. split; [vm_compute; discriminate |].
  apply Hready; [exact dimmer_idle_parser_ok | reflexivity | vm_compute; reflexivity
                | vm_compute; discriminate].
Defined.

Lemma upgrade_cycle_once_witness :
  parser_ok 256 dimmer_idle
  /\ whole_chunks firmware_padded
  /\ (forall s', setup 256 1 0 firmware_padded flash_init_ok flash_erase_ok flash_write_ok
                   flash_close_ok dimmer_idle = Some s' ->
                 (upgrades_ s' <= S (upgrades_ dimmer_idle))%nat)
  /\ (exists s1 s2 s3,
        check_version 256 1 0 dimmer_idle = Some (true, s1)
        /\ upgrade_firmware_ firmware_padded flash_init_ok flash_erase_ok flash_write_ok
             flash_close_ok s1 = Some (true, s2)
        /\ check_version 256 1 0 s2 = Some (true, s3)
        /\ setup 256 1 0 firmware_padded flash_init_ok flash_erase_ok flash_write_ok
             flash_close_ok dimmer_idle = Some (mark_failed s3)
        /\ failed_ (mark_failed s3) = true
        /\ ready_ (mark_failed s3) = false
        /\ upgrades_ (mark_failed s3) = 1%nat)
  /\ is_Some (setup 256 1 0 firmware_padded flash_init_ok flash_erase_ok flash_write_ok
                flash_close_ok dimmer_idle).
Proof.
  destruct (upgrade_cycle_once 256 1 0 firmware_padded flash_init_ok flash_erase_ok
              flash_write_ok flash_close_ok capacity_256_fits dimmer_idle
              dimmer_idle_parser_ok) as (Hup & Hsecond & Hret).
  split; [exact dimmer_idle_parser_ok |]. split; [reflexivity |]. split; [exact Hup |].
  split.
  - pose (s1 := default dimmer_idle (snd <$> check_version 256 1 0 dimmer_idle)).
    pose (s2 := default dimmer_idle
                  (snd <$> upgrade_firmware_ firmware_padded flash_init_ok flash_erase_ok
                             flash_write_ok flash_close_ok s1)).
    pose (s3 := default dimmer_idle (snd <$> check_version 256 1 0 s2)).
    assert (E1 : check_version 256 1 0 dimmer_idle = Some (true, s1))
      by (vm_compute; reflexivity).
    assert (E2 : upgrade_firmware_ firmware_padded flash_init_ok flash_erase_ok
                   flash_write_ok flash_close_ok s1 = Some (true, s2))
      by (vm_compute; reflexivity).
    assert (E3 : check_version 256 1 0 s2 = Some (true, s3))
      by (vm_compute; reflexivity).
    exists s1, s2, s3.
    split; [exact E1 |]. split; [exact E2 |]. split; [exact E3 |].
    exact (Hsecond s1 s2 s3 E1 E2 E3).
  - apply Hret; [reflexivity | exists 0; reflexivity].
Defined.

(** * The further properties at concrete inputs *)

Lemma checksum_is_sum_mod_witness :
  0 <= 1
  /\ shelly_dimmer_checksum [0x01; 0x05; 0x11; 0x00] 1 3
     = Some (byte_sum (take (Z.to_nat 3) (drop (Z.to_nat 1) [0x01; 0x05; 0x11; 0x00]))
             mod 65536)
  /\ shelly_dimmer_checksum [0x01; 0x05; 0x11; 0x00] 1 4 = None.
Proof.
  destruct (checksum_is_sum_mod [0x01; 0x05; 0x11; 0x00] 1 3) as (_ & Hin & _); [lia |].
  destruct (checksum_is_sum_mod [0x01; 0x05; 0x11; 0x00] 1 4) as (_ & _ & Hout); [lia |].
  split; [lia |]. split; [apply Hin; simpl; lia | apply Hout; simpl; lia].
Defined.

Lemma checksum_detects_byte_change_witness :
  rd [0x01; 0x05; 0x11; 0x00] 2 = Some 0x11
  /\ shelly_dimmer_checksum (<[Z.to_nat 2 := 0x10]> [0x01; 0x05; 0x11; 0x00]) 1 3
     <> shelly_dimmer_checksum [0x01; 0x05; 0x11; 0x00] 1 3.
Proof.
  split; [reflexivity |].
  apply (checksum_detects_byte_change [0x01; 0x05; 0x11; 0x00] 1 3 2 0x11 0x10);
    try reflexivity; simpl; lia.
Defined.

Lemma parser_never_leaves_buffer_witness :
  parser_ok 256 dimmer_idle
  /\ exists codes s', feed 256 [0x01; 0x05; 0xFF; 0x09; 0x04] dimmer_idle = Some (codes, s')
       /\ length codes = length [0x01; 0x05; 0xFF; 0x09; 0x04]
       /\ Forall (fun r => r = 0 \/ r = -1 \/ r = 1) codes
       /\ parser_ok 256 s'
       /\ 0 <= buffer_pos_ s' < 256
       /\ quiet dimmer_idle s'.
Proof.
  split; [exact dimmer_idle_parser_ok |].
  apply (parser_never_leaves_buffer 256 capacity_256_fits). exact dimmer_idle_parser_ok.
Defined.

Lemma garbage_then_frame_witness :
  Z.of_nat (length (buffer_ dimmer_idle)) = 256
  /\ buffer_pos_ dimmer_idle = 0
  /\ exists s', feed 256 ([0x00; 0x07; 0x09] ++ wire_frame 5 1 [0xE8; 0x03]) dimmer_idle
                = Some (replicate (length [0x00; 0x07; 0x09]) (-1)
                        ++ replicate (6 + length [0xE8; 0x03]) 1 ++ [0], s')
       /\ buffer_pos_ s' = 0
       /\ take (length (wire_frame 5 1 [0xE8; 0x03])) (buffer_ s') = wire_frame 5 1 [0xE8; 0x03].
Proof.
  split; [reflexivity |]. split; [reflexivity |].
  apply (garbage_then_frame 256 capacity_256_fits); [reflexivity | reflexivity | | simpl; lia].
  apply Forall_cons_2; [discriminate |]. apply Forall_cons_2; [discriminate |].
  apply Forall_cons_2; [discriminate |]. apply Forall_nil_2.
Defined.

Lemma handle_frame__outcomes_witness :
  handle_frame_ dimmer_polled
  = Some (true, set_current_sensor_ (Some [fzero])
                  (set_voltage_sensor_ (Some [S754_finite false 9117368 (-18)])
                     (set_power_sensor_ (Some [fzero]) dimmer_polled)))
  /\ rd (buffer_ dimmer_polled) 1 = Some (seq_ dimmer_polled).
Proof.
  assert (H : handle_frame_ dimmer_polled
    = Some (true, set_current_sensor_ (Some [fzero])
                  (set_voltage_sensor_ (Some [S754_finite false 9117368 (-18)])
                     (set_power_sensor_ (Some [fzero]) dimmer_polled))))
    by (vm_compute; reflexivity).
  split; [exact H |].
  destruct (handle_frame__outcomes _ _ _ H) as (_ & Hok).
  destruct (Hok eq_refl) as (Hseq & _). exact Hseq.
Defined.

Lemma send_command__bounded_witness :
  parser_ok 256 dimmer_idle
  /\ 0 = Z.of_nat (length (payload_bytes None))
  /\ exists got s' (k : nat),
       send_command_ 256 SHELLY_DIMMER_PROTO_CMD_POLL None 0 dimmer_idle = Some (got, s')
       /\ (1 <= k <= 3)%nat
       /\ tx (env s') = tx (env dimmer_idle)
            ++ replicate k (wire_frame (u8 (seq_ dimmer_idle + 1))
                              (u8 SHELLY_DIMMER_PROTO_CMD_POLL) (payload_bytes None))
       /\ seq_ s' = u8 (seq_ dimmer_idle + 1)
       /\ parser_ok 256 s'
       /\ stable dimmer_idle s'.
Proof.
  split; [exact dimmer_idle_parser_ok |]. split; [reflexivity |].
  apply (send_command__bounded 256 capacity_256_fits);
    [exact dimmer_idle_parser_ok | reflexivity | lia].
Defined.

Lemma send_command__duration_witness :
  exists s',
    send_command_ 256 SHELLY_DIMMER_PROTO_CMD_POLL None 0 dimmer_idle = Some (false, s')
    /\ exists k : nat,
         (k <= 600)%nat
         /\ incoming (env s') = drop k (incoming (env dimmer_idle))
         /\ u32 (millis (env s')) = u32 (millis (env dimmer_idle) + Z.of_nat k).
Proof.
  eexists. split; [vm_compute; reflexivity |].
  apply (send_command__duration 256 SHELLY_DIMMER_PROTO_CMD_POLL None 0 dimmer_idle false).
  vm_compute. reflexivity.
Defined.

Lemma write_state_idempotent_witness :
  parser_ok 256 dimmer_ready
  /\ exists s', write_state 256 fhalf dimmer_ready = Some s'
       /\ brightness_ s' = 500
       /\ write_state 256 fhalf s' = Some s'.
Proof.
  split; [exact dimmer_idle_parser_ok |].
  eexists. split; [vm_compute; reflexivity |]. split; [reflexivity |].
  apply (write_state_idempotent 256 capacity_256_fits fhalf dimmer_ready);
    [exact dimmer_idle_parser_ok | vm_compute; reflexivity].
Defined.

Lemma poll_report_published_witness :
  rd (buffer_ dimmer_polled) 3 = Some 17
  /\ exists s', handle_frame_ dimmer_polled = Some (true, s')
       /\ power_sensor_ s' = Some [scale_reading POWER_SCALING_FACTOR 0]
       /\ voltage_sensor_ s' = Some [scale_reading VOLTAGE_SCALING_FACTOR 10000]
       /\ current_sensor_ s' = Some [scale_reading CURRENT_SCALING_FACTOR 0].
Proof.
  split; [reflexivity |].
  eexists. split.
  - apply (poll_report_published dimmer_polled 17);
      [reflexivity | reflexivity | reflexivity | lia | simpl; lia |].
    apply Forall_app. split; [| apply Forall_replicate; lia].
    repeat (apply Forall_cons_2; [lia |]). apply Forall_nil_2.
  - split; [reflexivity |]. split; reflexivity.
Defined.

Lemma settings_payload_layout_witness :
  0 <= fade_rate_ (config dimmer_idle) < 65536
  /\ settings_payload dimmer_idle 0 (Z.min 100 (fade_rate_ (config dimmer_idle))) !! 4%nat
     = Some (Z.min 100 (fade_rate_ (config dimmer_idle)))
  /\ settings_payload dimmer_idle 0 (Z.min 100 (fade_rate_ (config dimmer_idle))) !! 5%nat
     = Some 0.
Proof.
  destruct (settings_payload_layout dimmer_idle 0) as (_ & _ & H4 & H5 & _);
    [simpl; lia | simpl; lia | simpl; lia | simpl; lia |].
  split; [simpl; lia |]. split; [exact H4 | exact H5].
Defined.

Lemma any_frame_ends_wait_witness :
  [] ++ concat [[0x01; 0x07; 0x11]; []; [0x02; 0x00; 0x00; 0x00; 0x1A; 0x04]]
  = wire_frame 7 0x11 [0x00; 0x00]
  /\ 7 <> u8 (seq_ dimmer_idle + 1)
  /\ exists s',
       send_command_ 256 SHELLY_DIMMER_PROTO_CMD_VERSION None 0
         (set_env (mkEnv [] [[0x01; 0x07; 0x11]; []; [0x02; 0x00; 0x00; 0x00; 0x1A; 0x04]]
                         0 [] true false) dimmer_idle)
       = Some (true, s')
       /\ tx (env s') = [wire_frame 5 0x11 []]
       /\ version_major_ s' = version_major_ dimmer_idle
       /\ version_minor_ s' = version_minor_ dimmer_idle.
Proof.
  split; [reflexivity |]. split; [vm_compute; discriminate |].
  destruct (any_frame_ends_wait 256 capacity_256_fits SHELLY_DIMMER_PROTO_CMD_VERSION None 0
              (set_env (mkEnv [] [[0x01; 0x07; 0x11]; []; [0x02; 0x00; 0x00; 0x00; 0x1A; 0x04]]
                              0 [] true false) dimmer_idle)
              7 0x11 [0x00; 0x00]
              [[0x01; 0x07; 0x11]; []; [0x02; 0x00; 0x00; 0x00; 0x1A; 0x04]] [])
    as (s' & E & Htx & _ & _ & _ & _ & _ & Hstale);
    [reflexivity | reflexivity | reflexivity | lia | lia | lia | simpl; lia
    | apply Forall_cons_2; [lia |]; apply Forall_cons_2; [lia |]; apply Forall_nil_2
    | reflexivity | reflexivity | simpl; discriminate | simpl; lia |].
  exists s'. split; [exact E |]. split; [exact Htx |].
  destruct Hstale as (Hmaj & Hmin & _); [vm_compute; discriminate |].
  split; [exact Hmaj | exact Hmin].
Defined.

Lemma version_reply_recorded_witness :
  [] ++ concat [[0x01; 0x05; 0x11; 0x02]; [0x03; 0x01; 0x00; 0x1C; 0x04]]
  = wire_frame (u8 (seq_ dimmer_idle + 1)) SHELLY_DIMMER_PROTO_CMD_VERSION [0x03; 0x01]
  /\ exists s',
       send_command_ 256 SHELLY_DIMMER_PROTO_CMD_VERSION None 0
         (set_env (mkEnv [] [[0x01; 0x05; 0x11; 0x02]; [0x03; 0x01; 0x00; 0x1C; 0x04]]
                         0 [] true false) dimmer_idle)
       = Some (true, s')
       /\ version_minor_ s' = 3 /\ version_major_ s' = 1
       /\ tx (env s') = [wire_frame 5 0x11 []].
Proof.
  split; [reflexivity |].
  apply (version_reply_recorded 256 capacity_256_fits SHELLY_DIMMER_PROTO_CMD_VERSION None 0
           (set_env (mkEnv [] [[0x01; 0x05; 0x11; 0x02]; [0x03; 0x01; 0x00; 0x1C; 0x04]]
                           0 [] true false) dimmer_idle)
           3 1 [] [[0x01; 0x05; 0x11; 0x02]; [0x03; 0x01; 0x00; 0x1C; 0x04]] []);
    [reflexivity | reflexivity | reflexivity | lia | simpl; lia
    | apply Forall_cons_2; [lia |]; apply Forall_cons_2; [lia |]; apply Forall_nil_2
    | reflexivity | reflexivity | simpl; discriminate | simpl; lia].
Defined.

Lemma upgrade_writes_image_witness :
  fl_start (mkStm32 0x08000000) + Z.of_nat (length firmware_padded) < 4294967296
  /\ upgrade_firmware_ firmware_padded flash_init_ok flash_erase_ok flash_write_ok
       flash_close_ok dimmer_idle
     = Some (true, reset_dfu_boot_ (set_upgrades_ 1 dimmer_idle))
  /\ concat (map (fun w : Z * list Z * Z => take (Z.to_nat w.2) w.1.2)
               (chunk_plan firmware_padded (fl_start (mkStm32 0x08000000))))
     = firmware_padded
  /\ fl_start (mkStm32 0x08000000) + Z.of_nat (length firmware_example) < 4294967296
  /\ upgrade_firmware_ firmware_example flash_init_ok flash_erase_ok flash_write_ok
       flash_close_ok dimmer_idle = None
  /\ (forall buffer, memcpy buffer 0 (drop 512 firmware_example) 256 = None).
Proof.
  assert (Hp := upgrade_writes_image firmware_padded flash_init_ok flash_erase_ok
                  flash_write_ok flash_close_ok dimmer_idle (mkStm32 0x08000000)
                  (env (reset_dfu_boot_ (set_upgrades_ 1 dimmer_idle)))
                  (env (reset_dfu_boot_ (set_upgrades_ 1 dimmer_idle)))).
  assert (He := upgrade_writes_image firmware_example flash_init_ok flash_erase_ok
                  flash_write_ok flash_close_ok dimmer_idle (mkStm32 0x08000000)
                  (env (reset_dfu_boot_ (set_upgrades_ 1 dimmer_idle)))
                  (env (reset_dfu_boot_ (set_upgrades_ 1 dimmer_idle)))).
  cbv zeta in Hp, He.
  destruct Hp as (Hrun & _ & Hall); [simpl; lia | reflexivity | reflexivity | reflexivity |].
  destruct He as (Hrun' & Hpast & _); [simpl; lia | reflexivity | reflexivity | reflexivity |].
  split; [reflexivity |].
  split; [rewrite Hrun; vm_compute; reflexivity |].
  split; [apply Hall; reflexivity |].
  split; [reflexivity |].
  split; [rewrite Hrun'; vm_compute; reflexivity |].
  apply Hpast. vm_compute. discriminate.
Defined.

Lemma setup_ready_or_failed_witness :
  whole_chunks firmware_padded
  /\ parser_ok 256 dimmer_idle
  /\ convert_brightness_ dimmer_idle (light_brightness dimmer_idle) = Some 0
  /\ exists s',
       setup 256 1 0 firmware_padded flash_init_ok flash_erase_ok flash_write_ok
         flash_close_ok dimmer_idle = Some s'
       /\ config s' = config dimmer_idle
       /\ ((ready_ s' = true /\ failed_ s' = failed_ dimmer_idle /\ poll_interval_ s' = true
            /\ brightness_ s' = 0 /\ (upgrades_ s' <= S (upgrades_ dimmer_idle))%nat
            /\ nrst (env s') = true /\ boot0 (env s') = false)
           \/ (failed_ s' = true /\ ready_ s' = ready_ dimmer_idle
               /\ poll_interval_ s' = poll_interval_ dimmer_idle
               /\ brightness_ s' = brightness_ dimmer_idle
               /\ upgrades_ s' = S (upgrades_ dimmer_idle))).
Proof.
  split; [reflexivity |]. split; [exact dimmer_idle_parser_ok |]. split; [reflexivity |].
  apply (setup_ready_or_failed 256 1 0 firmware_padded flash_init_ok flash_erase_ok
           flash_write_ok flash_close_ok capacity_256_fits dimmer_idle 0);
    [reflexivity | exact dimmer_idle_parser_ok | reflexivity].
Defined.

Lemma damaged_frame_rejected_witness :
  wire_frame 5 1 [0xE8; 0x03] !! 4%nat = Some 0xE8
  /\ exists codes s',
       feed 256 (<[4%nat := 0xE9]> (wire_frame 5 1 [0xE8; 0x03])) dimmer_idle
       = Some (codes, s')
       /\ Forall (fun r => r = 1 \/ r = -1) codes
       /\ last codes = Some (-1)
       /\ buffer_pos_ s' = 0
       /\ s' = set_buffer_ (buffer_ s') dimmer_idle.
Proof.
  split; [reflexivity |].
  apply (damaged_frame_rejected 256 capacity_256_fits 5 1 [0xE8; 0x03] 4 0xE8 0xE9 dimmer_idle);
    [reflexivity | reflexivity | simpl; lia | lia | lia | reflexivity | lia | lia | lia].
Defined.

Lemma poll_reply_published_witness :
  [] ++ concat [[0x01; 0x05; 0x10; 0x11; 0x01; 0x00; 0xE8; 0x03; 0x00; 0x00];
                [0x00; 0x00; 0x10; 0x27; 0x00; 0x00; 0x00; 0x00; 0x00; 0x00; 0x05;
                 0x01; 0x4E; 0x04]]
  = wire_frame (u8 (seq_ dimmer_idle + 1)) SHELLY_DIMMER_PROTO_CMD_POLL
      [0x01; 0x00; 0xE8; 0x03; 0x00; 0x00; 0x00; 0x00; 0x10; 0x27; 0x00; 0x00;
       0x00; 0x00; 0x00; 0x00; 0x05]
  /\ exists s',
       send_command_ 256 SHELLY_DIMMER_PROTO_CMD_POLL None 0
         (set_env (mkEnv [] [[0x01; 0x05; 0x10; 0x11; 0x01; 0x00; 0xE8; 0x03; 0x00; 0x00];
                             [0x00; 0x00; 0x10; 0x27; 0x00; 0x00; 0x00; 0x00; 0x00; 0x00; 0x05;
                              0x01; 0x4E; 0x04]]
                         0 [] true false) dimmer_idle)
       = Some (true, s')
       /\ power_sensor_ s' = Some [fzero]
       /\ voltage_sensor_ s' = Some [scale_reading VOLTAGE_SCALING_FACTOR 10000]
       /\ current_sensor_ s' = Some [fzero].
Proof.
  split; [reflexivity |].
  destruct (poll_reply_published 256 capacity_256_fits SHELLY_DIMMER_PROTO_CMD_POLL None 0
              (set_env (mkEnv [] [[0x01; 0x05; 0x10; 0x11; 0x01; 0x00; 0xE8; 0x03; 0x00; 0x00];
                                  [0x00; 0x00; 0x10; 0x27; 0x00; 0x00; 0x00; 0x00; 0x00; 0x00;
                                   0x05; 0x01; 0x4E; 0x04]]
                              0 [] true false) dimmer_idle)
              [0x01; 0x00; 0xE8; 0x03; 0x00; 0x00; 0x00; 0x00; 0x10; 0x27; 0x00; 0x00;
               0x00; 0x00; 0x00; 0x00; 0x05]
              [[0x01; 0x05; 0x10; 0x11; 0x01; 0x00; 0xE8; 0x03; 0x00; 0x00];
               [0x00; 0x00; 0x10; 0x27; 0x00; 0x00; 0x00; 0x00; 0x00; 0x00; 0x05;
                0x01; 0x4E; 0x04]] [])
    as (s' & E & Hp & Hv & Hc & _);
    [reflexivity | reflexivity | reflexivity | lia | simpl; lia
    | repeat (apply Forall_cons_2; [lia |]); apply Forall_nil_2
    | reflexivity | reflexivity | simpl; discriminate | simpl; lia |].
  exists s'. split; [exact E |]. split; [exact Hp |]. split; [exact Hv | exact Hc].
Defined.

Lemma setup_paths_witness :
  parser_ok 256 dimmer_idle
  /\ convert_brightness_ dimmer_idle (light_brightness dimmer_idle) = Some 0
  /\ exists s1 s',
       check_version 256 0 0 dimmer_idle = Some (false, s1)
       /\ setup 256 0 0 firmware_example flash_init_ok flash_erase_ok flash_write_ok
            flash_close_ok dimmer_idle = Some s'
       /\ ready_ s' = true /\ failed_ s' = failed_ dimmer_idle
       /\ upgrades_ s' = upgrades_ dimmer_idle /\ brightness_ s' = 0.
Proof.
  split; [exact dimmer_idle_parser_ok |]. split; [reflexivity |].
  destruct (setup_paths 256 0 0 firmware_example flash_init_ok flash_erase_ok flash_write_ok
              flash_close_ok capacity_256_fits dimmer_idle 0 dimmer_idle_parser_ok eq_refl)
    as (Hmatch & _).
  eexists. 
  assert (E : check_version 256 0 0 dimmer_idle
              = Some (false, default dimmer_idle (snd <$> check_version 256 0 0 dimmer_idle)))
    by (vm_compute; reflexivity).
  destruct (Hmatch _ E) as (s' & Hs & H1 & H2 & H3 & H4).
  exists s'. split; [exact E |]. split; [exact Hs |]. split; [exact H1 |].
  split; [exact H2 |]. split; [exact H3 | exact H4].
Defined.

